(** * An explicit-free-list allocator with boundary tags (Malloc_implementation_lab.c)

    A shallow embedding of the allocator: the heap is a word-addressed
    memory, the globals and the memory source are fields of an explicit
    state, every routine of the C file is a function on that state. *)

From Stdlib Require Import ZArith List Lia Bool Permutation Ascii.
Import ListNotations.
Local Open Scope Z_scope.

(** ** Machine arithmetic *)

(** [size_t] and pointers are 64-bit (the header picture of the source shows
    bits 63..0, and a word is 8 bytes); their arithmetic wraps. *)
Definition wrap64 (z : Z) : Z := z mod 2 ^ 64.

(** Conversion of a [size_t] to the 32-bit [int] of [place]. *)
Definition to_int (z : Z) : Z := (z + 2 ^ 31) mod 2 ^ 32 - 2 ^ 31.

Definition NULL : Z := 0.

(** ** Constants of the source *)

Definition WSIZE : Z := 8.
Definition DSIZE : Z := 16.
Definition CHUNKSIZE : Z := Z.shiftl 1 12.
Definition OVERHEAD : Z := 16.
Definition MINIMUMSIZE : Z := 32.

(** ** State *)

(** [mem] maps the address of an 8-byte word to its value; [heap_start] is
    the global of the source; [heap_lo], [mem_brk] and [mem_max] are the
    memory source (first byte, current break, first byte it cannot give). *)
Record state : Type := mkState {
  mem : Z -> Z;
  heap_start : Z;
  heap_lo : Z;
  mem_brk : Z;
  mem_max : Z
}.

Definition upd (m : Z -> Z) (a v : Z) : Z -> Z :=
  fun x => if x =? a then v else m x.

Definition set_mem (st : state) (m : Z -> Z) : state :=
  mkState m (heap_start st) (heap_lo st) (mem_brk st) (mem_max st).

Definition set_heap_start (st : state) (p : Z) : state :=
  mkState (mem st) p (heap_lo st) (mem_brk st) (mem_max st).

(** Modelled from the spec: the memory source (memlib's mem_sbrk and
    mem_heap_lo are not part of the source file).  "request(n_bytes) ->
    region_start | failure; appends n_bytes to the end of the managed region,
    or signals failure without partial effect."  A refused request is
    [None].  The source recognises one by the value returned, which it
    compares with NULL in mm_init (line 119) and tests for a negative [long]
    in extend_heap (line 304); no value meets both tests, and which value
    the memory source returns is not part of the source file.  The model
    takes a refused request as recognised at both places and a granted
    address as not negative.  So [extend_heap] is the source's for a memory
    source that returns a negative pointer such as -1 and lies below 2^63,
    and the first branch of [mm_init] is the source's for one that returns
    NULL; of a refused request in [mm_init] the theorems state only that 0
    is not returned. *)
Definition mem_sbrk (st : state) (incr : Z) : option (Z * state) :=
  if mem_brk st + incr <=? mem_max st
  then Some (mem_brk st,
             mkState (mem st) (heap_start st) (heap_lo st)
                     (mem_brk st + incr) (mem_max st))
  else None.

Definition mem_heap_lo (st : state) : Z := heap_lo st.

(** ** Macros *)

Definition PACK (size alloc : Z) : Z := Z.lor size alloc.

(** The memory of the model is total: [PUT] stores through any address,
    where C faults outside the heap.  A request whose adjusted size wraps
    around to 16 (a size from 2^64-15 on) makes [place] overwrite the
    previous-link of the block it takes and [remove_node] store through the
    value written there, which is no address of the heap; the theorems on
    [mm_malloc] leave such requests out. *)
Definition GET (st : state) (p : Z) : Z := mem st p.
Definition PUT (st : state) (p val : Z) : state := set_mem st (upd (mem st) p val).

Definition PADD (p val : Z) : Z := wrap64 (p + val).
Definition PSUB (p val : Z) : Z := wrap64 (p - val).

Definition GET_SIZE (st : state) (p : Z) : Z :=
  Z.land (GET st p) (wrap64 (Z.lnot 15)).
Definition GET_ALLOC (st : state) (p : Z) : Z := Z.land (GET st p) 1.

Definition HDRP (bp : Z) : Z := PSUB bp WSIZE.
Definition FTRP (st : state) (bp : Z) : Z :=
  PADD bp (wrap64 (GET_SIZE st (HDRP bp) - DSIZE)).

Definition NEXT_BLKP (st : state) (bp : Z) : Z :=
  PADD bp (GET_SIZE st (HDRP bp)).
Definition PREV_BLKP (st : state) (bp : Z) : Z :=
  PSUB bp (GET_SIZE st (PSUB bp DSIZE)).

Definition PREV_FREE (st : state) (bp : Z) : Z := GET st bp.
Definition NEXT_FREE (st : state) (bp : Z) : Z := GET st (PADD bp WSIZE).
Definition set_PREV_FREE (st : state) (bp v : Z) : state := PUT st bp v.
Definition set_NEXT_FREE (st : state) (bp v : Z) : state :=
  PUT st (PADD bp WSIZE) v.

(** ** Free-list routines *)

Definition insert_head (st : state) (bp : Z) : state :=
  let st := set_NEXT_FREE st bp (heap_start st) in
  let st := set_PREV_FREE st (heap_start st) bp in
  let st := set_PREV_FREE st bp NULL in
  set_heap_start st bp.

Definition remove_node (st : state) (bp : Z) : state :=
  let st :=
    if negb (PREV_FREE st bp =? NULL)
    then set_NEXT_FREE st (PREV_FREE st bp) (NEXT_FREE st bp)
    else set_heap_start st (NEXT_FREE st bp) in
  set_PREV_FREE st (NEXT_FREE st bp) (PREV_FREE st bp).

(** ** Internal routines *)

Definition max (x y : Z) : Z := if x >? y then x else y.

Definition coalesce (st : state) (bp : Z) : Z * state :=
  let prev_alloc := GET_ALLOC st (PSUB bp DSIZE) in
  let next_alloc := GET_ALLOC st (HDRP (NEXT_BLKP st bp)) in
  let size := GET_SIZE st (HDRP bp) in
  if negb (prev_alloc =? 0) && negb (next_alloc =? 0) then
    (bp, insert_head st bp)
  else if negb (prev_alloc =? 0) && (next_alloc =? 0) then
    let size := wrap64 (size + GET_SIZE st (HDRP (NEXT_BLKP st bp))) in
    let st := remove_node st (NEXT_BLKP st bp) in
    let st := PUT st (HDRP bp) (PACK size 0) in
    let st := PUT st (FTRP st bp) (PACK size 0) in
    (bp, insert_head st bp)
  else if (prev_alloc =? 0) && negb (next_alloc =? 0) then
    let size := wrap64 (size + GET_SIZE st (HDRP (PREV_BLKP st bp))) in
    let bp := PREV_BLKP st bp in
    let st := remove_node st bp in
    let st := PUT st (HDRP bp) (PACK size 0) in
    let st := PUT st (FTRP st bp) (PACK size 0) in
    (bp, insert_head st bp)
  else
    let size :=
      wrap64 (size + wrap64 (GET_SIZE st (HDRP (PREV_BLKP st bp))
                             + GET_SIZE st (HDRP (NEXT_BLKP st bp)))) in
    let st := remove_node st (PREV_BLKP st bp) in
    let st := remove_node st (NEXT_BLKP st bp) in
    let bp := PREV_BLKP st bp in
    let st := PUT st (HDRP bp) (PACK size 0) in
    let st := PUT st (FTRP st bp) (PACK size 0) in
    (bp, insert_head st bp).

Definition place (st : state) (bp asize : Z) : state :=
  let free_space_left := to_int (wrap64 (GET_SIZE st (HDRP bp) - asize)) in
  if free_space_left <? MINIMUMSIZE then
    let st := PUT st (HDRP bp) (PACK (GET_SIZE st (HDRP bp)) 1) in
    let st := PUT st (FTRP st bp) (PACK (GET_SIZE st (HDRP bp)) 1) in
    remove_node st bp
  else
    let st := PUT st (HDRP bp) (PACK asize 1) in
    let st := PUT st (FTRP st bp) (PACK asize 1) in
    let st := remove_node st bp in
    let bp := NEXT_BLKP st bp in
    let st := PUT st (HDRP bp) (wrap64 (PACK free_space_left 0)) in
    let st := PUT st (FTRP st bp) (wrap64 (PACK free_space_left 0)) in
    insert_head st bp.

(** The loop of [find_fit]; [None] when the fuel runs out before the loop
    ends. *)
Fixpoint find_fit_from (fuel : nat) (st : state) (asize cur_block : Z)
  : option Z :=
  match fuel with
  | O => None
  | S fuel' =>
      if cur_block =? mem_heap_lo st then Some NULL
      else if asize <=? GET_SIZE st (HDRP cur_block) then Some cur_block
      else find_fit_from fuel' st asize (NEXT_FREE st cur_block)
  end.

Definition find_fit (fuel : nat) (st : state) (asize : Z) : option Z :=
  find_fit_from fuel st asize (heap_start st).

Definition extend_heap (st : state) (words : Z) : Z * state :=
  let size := wrap64 (words * WSIZE) in
  let size := if words mod 2 =? 1 then wrap64 (size + WSIZE) else size in
  match mem_sbrk st size with
  | None => (NULL, st)
  | Some (bp, st) =>
      let st := PUT st (HDRP bp) (PACK size 0) in
      let st := PUT st (FTRP st bp) (PACK size 0) in
      let st := PUT st (HDRP (NEXT_BLKP st bp)) (PACK 0 1) in
      coalesce st bp
  end.

(** ** Public operations *)

Definition mm_init (st : state) : Z * state :=
  match mem_sbrk st (4 * WSIZE) with
  | None => (-1, set_heap_start st NULL)
  | Some (p, st) =>
      let st := set_heap_start st p in
      let st := PUT st (heap_start st) 0 in
      let st := PUT st (PADD (heap_start st) WSIZE) (PACK OVERHEAD 1) in
      let st := PUT st (PADD (heap_start st) DSIZE) (PACK OVERHEAD 1) in
      let st := PUT st (PADD (heap_start st) (WSIZE + DSIZE)) (PACK 0 1) in
      let (bp, st) := extend_heap st (CHUNKSIZE / WSIZE) in
      if bp =? NULL then (-1, st) else (0, st)
  end.

(** The adjusted block size computed by [mm_malloc]. *)
Definition adjusted_size (size : Z) : Z :=
  if size <=? DSIZE then DSIZE + OVERHEAD
  else wrap64 (DSIZE * (wrap64 (wrap64 (size + OVERHEAD) + (DSIZE - 1)) / DSIZE)).

Definition mm_malloc (fuel : nat) (st : state) (size : Z)
  : option (Z * state) :=
  if size <=? 0 then Some (NULL, st)
  else
    let asize := adjusted_size size in
    match find_fit fuel st asize with
    | None => None
    | Some bp =>
        if negb (bp =? NULL) then Some (bp, place st bp asize)
        else
          let extendsize := max asize CHUNKSIZE in
          let (bp, st) := extend_heap st (extendsize / WSIZE) in
          if bp =? NULL then Some (NULL, st)
          else Some (bp, place st bp asize)
    end.

Definition mm_free (st : state) (bp : Z) : state :=
  let size := GET_SIZE st (HDRP bp) in
  let st := PUT st (HDRP bp) (PACK size 0) in
  let st := PUT st (FTRP st bp) (PACK size 0) in
  snd (coalesce st bp).

(** ** Diagnostics *)

Definition check_block (st : state) (bp : Z) : bool :=
  if negb (bp mod DSIZE =? 0) then false
  else if negb (GET st (HDRP bp) =? GET st (FTRP st bp)) then false
  else true.

Fixpoint check_heap_from (fuel : nat) (st : state) (bp : Z) : option bool :=
  match fuel with
  | O => None
  | S fuel' =>
      if GET_SIZE st (HDRP bp) >? 0 then
        if negb (check_block st bp) then Some false
        else check_heap_from fuel' st (NEXT_BLKP st bp)
      else if negb (GET_SIZE st (HDRP bp) =? 0)
              || (GET_ALLOC st (HDRP bp) =? 0) then Some false
      else Some true
  end.

Definition check_heap (fuel : nat) (st : state) : option bool :=
  if negb (GET_SIZE st (HDRP (heap_start st)) =? DSIZE)
     || (GET_ALLOC st (HDRP (heap_start st)) =? 0) then Some false
  else check_heap_from fuel st (heap_start st).

(** A line of the output of [print_heap]: "Heap (%p):", "%p: End of free
    list", and "%p: header: [%ld:%c] footer: [%ld:%c]". *)
Inductive line : Type :=
| heap_line (p : Z)
| end_line (bp : Z)
| block_line (bp hsize : Z) (halloc : ascii) (fsize : Z) (falloc : ascii).

Definition print_block (st : state) (bp : Z) : line :=
  let hsize := GET_SIZE st (HDRP bp) in
  let halloc := GET_ALLOC st (HDRP bp) in
  let fsize := GET_SIZE st (FTRP st bp) in
  let falloc := GET_ALLOC st (FTRP st bp) in
  if hsize =? 0 then end_line bp
  else block_line bp hsize (if negb (halloc =? 0) then "a"%char else "f"%char)
                  fsize (if negb (falloc =? 0) then "a"%char else "f"%char).

(** The loop of [print_heap] and the call of [print_block] after it. *)
Fixpoint print_heap_from (fuel : nat) (st : state) (bp : Z) : option (list line) :=
  match fuel with
  | O => None
  | S fuel' =>
      if GET_SIZE st (HDRP bp) >? 0 then
        match print_heap_from fuel' st (NEXT_BLKP st bp) with
        | Some out => Some (print_block st bp :: out)
        | None => None
        end
      else Some [print_block st bp]
  end.

Definition print_heap (fuel : nat) (st : state) : option (list line) :=
  match print_heap_from fuel st (heap_start st) with
  | Some out => Some (heap_line (heap_start st) :: out)
  | None => None
  end.


(** * Abstract view of a heap *)

(** A block of the heap: its total size and its allocated flag. *)
Definition block : Type := (Z * Z)%type.

Definition block_ok (b : block) : Prop :=
  MINIMUMSIZE <= fst b /\ fst b mod DSIZE = 0 /\ (snd b = 0 \/ snd b = 1).

(** The bytes covered by a run of blocks. *)
Fixpoint span (bs : list block) : Z :=
  match bs with
  | [] => 0
  | b :: bs' => fst b + span bs'
  end.

(** The blocks [bs] lie one after the other from the block pointer [bp] on,
    each with its header one word before its block pointer and its footer
    in its last word, both holding the packed size and flag. *)
Fixpoint blocks_at (m : Z -> Z) (bp : Z) (bs : list block) : Prop :=
  match bs with
  | [] => True
  | b :: bs' =>
      m (bp - WSIZE) = PACK (fst b) (snd b) /\
      m (bp + fst b - DSIZE) = PACK (fst b) (snd b) /\
      blocks_at m (bp + fst b) bs'
  end.

(** The block pointers of the free blocks of a run, in address order. *)
Fixpoint free_bps (bp : Z) (bs : list block) : list Z :=
  match bs with
  | [] => []
  | b :: bs' =>
      if snd b =? 0 then bp :: free_bps (bp + fst b) bs'
      else free_bps (bp + fst b) bs'
  end.

(** No two neighbours of a run are both free. *)
Fixpoint no_adjacent_free (bs : list block) : Prop :=
  match bs with
  | [] => True
  | b :: bs' =>
      (snd b = 0 -> snd (hd (0, 1) bs') <> 0) /\ no_adjacent_free bs'
  end.

(** The block pointer of the first block after the prologue. *)
Definition first_bp (st : state) : Z := heap_lo st + 2 * DSIZE.

(** The heap of [st] is the padding word, the prologue, the blocks [bs] and
    the epilogue header, up to the break of the memory source. *)
Record layout (st : state) (bs : list block) : Prop := mkLayout {
  lay_lo : 0 < heap_lo st;
  lay_brk : mem_brk st = first_bp st + span bs;
  lay_max : mem_brk st <= mem_max st /\ mem_max st < 2 ^ 64;
  lay_ok : Forall block_ok bs;
  lay_prologue_hdr : mem st (heap_lo st + WSIZE) = PACK OVERHEAD 1;
  lay_prologue_ftr : mem st (heap_lo st + DSIZE) = PACK OVERHEAD 1;
  lay_blocks : blocks_at (mem st) (first_bp st) bs;
  lay_epilogue : mem st (mem_brk st - WSIZE) = PACK 0 1
}.

(** The nodes met when following next-links from [cur] until the low end of
    the heap, which ends the list. *)
Fixpoint next_chain (st : state) (cur : Z) (l : list Z) : Prop :=
  match l with
  | [] => cur = mem_heap_lo st
  | x :: l' =>
      cur = x /\ x <> mem_heap_lo st /\ next_chain st (NEXT_FREE st x) l'
  end.

(** The same walk, checking the previous-links on the way: the previous-link
    of the first node is [prev], the one of every other node is the node
    before it. *)
Fixpoint free_list (st : state) (prev cur : Z) (l : list Z) : Prop :=
  match l with
  | [] => cur = mem_heap_lo st
  | x :: l' =>
      cur = x /\ x <> mem_heap_lo st /\ PREV_FREE st x = prev /\
      free_list st x (NEXT_FREE st x) l'
  end.

(** An address that can hold a list node: above the low end of the heap,
    double-word aligned relative to it, with room for the two links. *)
Definition node_ok (st : state) (x : Z) : Prop :=
  heap_lo st < x /\ x + DSIZE <= 2 ^ 64 /\ (x - heap_lo st) mod DSIZE = 0.

(** A heap with its blocks [bs] and its free list [l]. *)
Definition heap_ok (st : state) (bs : list block) (l : list Z) : Prop :=
  layout st bs /\ free_list st NULL (heap_start st) l.

(** The free list holds the free blocks, each once. *)
Definition wf (st : state) (bs : list block) (l : list Z) : Prop :=
  heap_ok st bs l /\ Permutation l (free_bps (first_bp st) bs).

(** The state in which [coalesce] is called: the block of size [s] between
    [bs1] and [bs2] is tagged free and is not yet in the free list, which
    holds the free blocks of [bs1] and [bs2]. *)
Definition pending (st : state) (bs1 : list block) (s : Z) (bs2 : list block)
    (l : list Z) : Prop :=
  heap_ok st (bs1 ++ (s, 0) :: bs2) l /\
  Permutation l (free_bps (first_bp st) bs1
                 ++ free_bps (first_bp st + span bs1 + s) bs2).

(** The words that hold the links of the free blocks of a run. *)
Definition link_cell (p : Z) (bs : list block) (c : Z) : Prop :=
  exists x, In x (free_bps p bs) /\ (c = x \/ c = x + WSIZE).

(** The bytes requested by [extend_heap] for [words] words. *)
Definition extend_size (words : Z) : Z :=
  if words mod 2 =? 1 then words * WSIZE + WSIZE else words * WSIZE.

(** A memory source that has not given out anything yet. *)
Definition fresh_source (st : state) : Prop :=
  0 < heap_lo st /\ mem_brk st = heap_lo st /\ mem_max st < 2 ^ 64.

(** The invariant of the allocator. *)
Definition heap_inv (st : state) : Prop :=
  exists bs l, wf st bs l /\ no_adjacent_free bs.

(** The free-list states reached from the empty list by the two list
    routines, used as the source uses them (a node is inserted when it is not
    in the list, removed when it is), and by writes to words that hold no
    link of the list (the tags). *)
Inductive list_state : state -> list Z -> Prop :=
| ls_empty (st : state) :
    0 < heap_lo st -> heap_start st = mem_heap_lo st -> list_state st []
| ls_insert (st : state) (l : list Z) (bp : Z) :
    list_state st l -> node_ok st bp -> ~ In bp l ->
    list_state (insert_head st bp) (bp :: l)
| ls_remove (st : state) (l1 : list Z) (x : Z) (l2 : list Z) :
    list_state st (l1 ++ x :: l2) ->
    list_state (remove_node st x) (l1 ++ l2)
| ls_write (st : state) (l : list Z) (a v : Z) :
    list_state st l ->
    (forall x, In x l -> a <> x /\ a <> x + WSIZE) ->
    list_state (PUT st a v) l.

(** The blocks met when walking the heap in address order from the block
    pointer [bp] until a header of size 0: block pointer, size, flag. *)
Fixpoint heap_blocks (fuel : nat) (st : state) (bp : Z) : list (Z * Z * Z) :=
  match fuel with
  | O => []
  | S fuel' =>
      if GET_SIZE st (HDRP bp) >? 0
      then (bp, GET_SIZE st (HDRP bp), GET_ALLOC st (HDRP bp))
           :: heap_blocks fuel' st (NEXT_BLKP st bp)
      else []
  end.

(** A block pointer of an allocated block of a heap that satisfies the
    invariant: what [mm_free] may be called on. *)
Definition allocated_block (st : state) (bp : Z) : Prop :=
  exists bs1 s bs2 l,
    wf st (bs1 ++ (s, 1) :: bs2) l /\ no_adjacent_free (bs1 ++ (s, 1) :: bs2) /\
    bp = first_bp st + span bs1.

(** The states reached from the memory source [st0] by a successful
    [mm_init], by calls of [mm_malloc] whose adjusted size does not wrap, and
    by calls of [mm_free] on allocated blocks. *)
Inductive served (st0 : state) : state -> Prop :=
| served_init :
    fresh_source st0 -> fst (mm_init st0) = 0 ->
    served st0 (snd (mm_init st0))
| served_malloc (st : state) (size : Z) (fuel : nat) (bp : Z) (st' : state) :
    served st0 st ->
    0 < size -> size + OVERHEAD + (DSIZE - 1) < 2 ^ 64 ->
    mm_malloc fuel st size = Some (bp, st') ->
    served st0 st'
| served_free (st : state) (bp : Z) :
    served st0 st -> allocated_block st bp ->
    served st0 (mm_free st bp).

(** ** Allocated blocks and payloads *)

(** The allocated blocks of a run, in address order: block pointer and
    size. *)
Fixpoint alloc_bps (bp : Z) (bs : list block) : list (Z * Z) :=
  match bs with
  | [] => []
  | b :: bs' =>
      if snd b =? 0 then alloc_bps (bp + fst b) bs'
      else (bp, fst b) :: alloc_bps (bp + fst b) bs'
  end.

(** The blocks after the block of size [s] between [bs1] and [bs2] is freed:
    it is merged with its free neighbours. *)
Definition freed_blocks (bs1 : list block) (s : Z) (bs2 : list block)
  : list block :=
  let prev := last bs1 (OVERHEAD, 1) in
  let next := hd (0, 1) bs2 in
  (if snd prev =? 0 then removelast bs1 else bs1)
  ++ ((if snd prev =? 0 then fst prev else 0) + s
      + (if snd next =? 0 then fst next else 0), 0)
     :: (if snd next =? 0 then tl bs2 else bs2).

(** The blocks after [asize] bytes are placed in the free block of size [s]
    between [bs1] and [bs2]: the block is split when the rest can be a
    block. *)
Definition placed_blocks (bs1 : list block) (s : Z) (bs2 : list block)
    (asize : Z) : list block :=
  if s - asize <? MINIMUMSIZE then bs1 ++ (s, 1) :: bs2
  else bs1 ++ (asize, 1) :: (s - asize, 0) :: bs2.

(** The address [a] lies in the payload of one of the blocks [live]: from
    the block pointer up to the footer. *)
Definition payload_word (live : list (Z * Z)) (a : Z) : Prop :=
  exists p s, In (p, s) live /\ p <= a < p + s - DSIZE.

(** What a successful [mm_malloc] leaves: the blocks [bs'] with one more
    allocated block, at [bp], than the blocks [bs] before; the payloads of the
    blocks allocated before are untouched. *)
Definition malloc_post (st st' : state) (bs bs' : list block) (bp asize : Z)
  : Prop :=
  exists l' s a1 a2,
    wf st' bs' l' /\ asize <= s < asize + MINIMUMSIZE /\
    alloc_bps (first_bp st) bs = a1 ++ a2 /\
    alloc_bps (first_bp st) bs' = a1 ++ (bp, s) :: a2 /\
    (no_adjacent_free bs -> no_adjacent_free bs') /\
    (bp - heap_lo st) mod DSIZE = 0 /\
    (forall a, payload_word (alloc_bps (first_bp st) bs) a ->
               mem st' a = mem st a).

(** The block pointer at which the walk in address order from [bp] stops. *)
Fixpoint heap_end (fuel : nat) (st : state) (bp : Z) : Z :=
  match fuel with
  | O => bp
  | S fuel' =>
      if GET_SIZE st (HDRP bp) >? 0 then heap_end fuel' st (NEXT_BLKP st bp)
      else bp
  end.

(** The lines that describe the blocks of a run whose headers and footers
    agree. *)
Fixpoint block_lines (bp : Z) (bs : list block) : list line :=
  match bs with
  | [] => []
  | b :: bs' =>
      let c := if negb (snd b =? 0) then "a"%char else "f"%char in
      block_line bp (fst b) c (fst b) c :: block_lines (bp + fst b) bs'
  end.

(** ** Example heaps *)

(** A fresh memory source at address 65536 that can give [cap] bytes, with
    zeroed memory. *)
Definition ex_source (cap : Z) : state :=
  mkState (fun _ => 0) NULL 65536 65536 (65536 + cap).

(** The heap right after [mm_init]. *)
Definition ex_heap : state := snd (mm_init (ex_source (2 ^ 40))).

(** The state and the pointer after a call of [mm_malloc] (the fuel is enough
    in every example below). *)
Definition after_malloc (st : state) (size : Z) : state :=
  match mm_malloc 64 st size with
  | Some (_, st') => st'
  | None => st
  end.

Definition malloc_ptr (st : state) (size : Z) : Z :=
  match mm_malloc 64 st size with
  | Some (p, _) => p
  | None => NULL
  end.

(** [n] requests of 2^30 bytes, one after the other: the state and the
    pointers returned. *)
Fixpoint malloc_gib (n : nat) (st : state) : state * list Z :=
  match n with
  | O => (st, [])
  | S n' =>
      let (st', ps) := malloc_gib n' (after_malloc st (2 ^ 30)) in
      (st', malloc_ptr st (2 ^ 30) :: ps)
  end.

(** [n] requests of 2^30 bytes, then all of them freed in the order of
    allocation: a heap whose only free block has n * (2^30 + 16) + 4096
    bytes. *)
Definition ex_gib (n : nat) : state :=
  let (st, ps) := malloc_gib n ex_heap in
  fold_left mm_free ps st.

(** Three allocated 32-byte blocks of which the outer two are freed, and the
    tags of the middle one flipped to free as [mm_free] does before it calls
    [coalesce]. *)
Definition ex_pending : state :=
  let st1 := after_malloc ex_heap 16 in
  let st2 := after_malloc st1 16 in
  let st3 := after_malloc st2 16 in
  let st4 := after_malloc st3 16 in
  let st5 := mm_free (mm_free st4 65568) 65632 in
  let st6 := PUT st5 (HDRP 65600) (PACK 32 0) in
  PUT st6 (FTRP st6 65600) (PACK 32 0).

(** The heap after [mm_init] on a source of 64 KiB. *)
Definition ex_small : state := snd (mm_init (ex_source 65536)).

(** Requests of 100, 200 and 50 bytes, then the release of the second block:
    the blocks are 128 allocated, 224 free, 80 allocated, 3664 free. *)
Definition ex_live : state :=
  let st1 := after_malloc ex_small 100 in
  let st2 := after_malloc st1 200 in
  let st3 := after_malloc st2 50 in
  mm_free st3 65696.

(** * Basic facts *)

(** ** Arithmetic of tags *)

Lemma wrap64_small (z : Z) : 0 <= z < 2 ^ 64 -> wrap64 z = z.
Proof. intros H. unfold wrap64. apply Z.mod_small. exact H. Qed.

Lemma size_mask : wrap64 (Z.lnot 15) = Z.land (Z.ones 64) (Z.lnot (Z.ones 4)).
Proof. reflexivity. Qed.

Lemma land_size_mask (x : Z) :
  0 <= x < 2 ^ 64 -> Z.land x (wrap64 (Z.lnot 15)) = 16 * (x / 16).
Proof.
  intros Hx. rewrite size_mask, Z.land_assoc, Z.land_ones by lia.
  rewrite Z.mod_small by lia.
  rewrite <- Z.ldiff_land, Z.ldiff_ones_r by lia.
  rewrite Z.shiftl_mul_pow2, Z.shiftr_div_pow2 by lia.
  change (2 ^ 4) with 16. lia.
Qed.

Lemma land_alloc_mask (x : Z) : Z.land x 1 = x mod 2.
Proof. change 1 with (Z.ones 1) at 1. rewrite Z.land_ones by lia. reflexivity. Qed.

Lemma PACK_add (s a : Z) : s mod 16 = 0 -> 0 <= a < 16 -> PACK s a = s + a.
Proof.
  intros Hs Ha. unfold PACK.
  assert (Hd : Z.land s a = 0).
  { rewrite <- (Z.mod_small a (2 ^ 4)) by (change (2 ^ 4) with 16; lia).
    rewrite <- Z.land_ones by lia.
    rewrite (Z.land_comm a), Z.land_assoc, Z.land_ones by lia.
    change (2 ^ 4) with 16. rewrite Hs. apply Z.land_0_l. }
  rewrite <- Z.lxor_lor by exact Hd. symmetry. apply Z.add_nocarry_lxor. exact Hd.
Qed.

Lemma size_of_PACK (s a : Z) :
  0 <= s < 2 ^ 64 -> s mod 16 = 0 -> 0 <= a <= 1 ->
  Z.land (PACK s a) (wrap64 (Z.lnot 15)) = s.
Proof.
  intros Hs Hm Ha. rewrite PACK_add by lia.
  assert (s + a < 2 ^ 64).
  { assert (s <= 2 ^ 64 - 16); [|lia].
    change (2 ^ 64) with (16 * 2 ^ 60) in *. Z.div_mod_to_equations. lia. }
  rewrite land_size_mask by lia. Z.div_mod_to_equations. lia.
Qed.

Lemma alloc_of_PACK (s a : Z) :
  s mod 16 = 0 -> 0 <= a <= 1 -> Z.land (PACK s a) 1 = a.
Proof.
  intros Hm Ha. rewrite PACK_add by lia. rewrite land_alloc_mask.
  Z.div_mod_to_equations. lia.
Qed.

(** ** Reading and writing memory *)

Lemma upd_eq (m : Z -> Z) (a v : Z) : upd m a v a = v.
Proof. unfold upd. rewrite Z.eqb_refl. reflexivity. Qed.

Lemma upd_neq (m : Z -> Z) (a v x : Z) : x <> a -> upd m a v x = m x.
Proof. intros H. unfold upd. destruct (Z.eqb_spec x a); [contradiction|reflexivity]. Qed.

Lemma GET_SIZE_PACK (st : state) (p s a : Z) :
  mem st p = PACK s a -> 0 <= s < 2 ^ 64 -> s mod 16 = 0 -> 0 <= a <= 1 ->
  GET_SIZE st p = s.
Proof. intros H ? ? ?. unfold GET_SIZE, GET. rewrite H. apply size_of_PACK; assumption. Qed.

Lemma GET_ALLOC_PACK (st : state) (p s a : Z) :
  mem st p = PACK s a -> s mod 16 = 0 -> 0 <= a <= 1 ->
  GET_ALLOC st p = a.
Proof. intros H ? ?. unfold GET_ALLOC, GET. rewrite H. apply alloc_of_PACK; assumption. Qed.


(** ** The free list as a linked structure *)

Lemma node_ok_PADD (st : state) (x : Z) :
  node_ok st x -> 0 < heap_lo st -> PADD x WSIZE = x + WSIZE.
Proof.
  intros (Hlo & Hhi & _) H0. unfold PADD, WSIZE, DSIZE in *.
  apply wrap64_small. lia.
Qed.

Lemma free_list_frame (st st' : state) (l : list Z) :
  heap_lo st' = heap_lo st ->
  (forall x, In x l ->
     mem st' x = mem st x /\ mem st' (PADD x WSIZE) = mem st (PADD x WSIZE)) ->
  forall prev cur, free_list st prev cur l -> free_list st' prev cur l.
Proof.
  intros Hlo. induction l as [|x l IH]; intros Hm prev cur; cbn.
  - unfold mem_heap_lo. rewrite Hlo. auto.
  - intros (Hc & Hx & Hp & Hl). unfold mem_heap_lo, PREV_FREE, NEXT_FREE, GET in *.
    destruct (Hm x (or_introl eq_refl)) as [E1 E2].
    rewrite Hlo, E1, E2. repeat split; auto.
    apply IH; auto. intros y Hy. apply Hm. right. exact Hy.
Qed.

Lemma free_list_next_chain (st : state) (l : list Z) :
  forall prev cur, free_list st prev cur l -> next_chain st cur l.
Proof.
  induction l as [|x l IH]; intros prev cur; cbn; auto.
  intros (Hc & Hx & _ & Hl). eauto.
Qed.

Lemma next_chain_functional (st : state) (l1 : list Z) :
  forall l2 cur, next_chain st cur l1 -> next_chain st cur l2 -> l1 = l2.
Proof.
  induction l1 as [|x l1 IH]; intros [|y l2] cur; cbn; auto.
  - intros -> (-> & Hy & _). contradiction.
  - intros (-> & Hx & _) ->. contradiction.
  - intros (-> & Hx & H1) (<- & _ & H2). f_equal. eapply IH; eauto.
Qed.

Lemma next_chain_suffix (st : state) (a : list Z) (x : Z) (b : list Z) :
  forall cur, next_chain st cur (a ++ x :: b) -> next_chain st x (x :: b).
Proof.
  induction a as [|y a IH]; intros cur; cbn.
  - intros (-> & H). auto.
  - intros (_ & _ & H). apply (IH _ H).
Qed.

Lemma next_chain_NoDup (st : state) (l : list Z) :
  forall cur, next_chain st cur l -> NoDup l.
Proof.
  induction l as [|x l IH]; intros cur; cbn.
  - constructor.
  - intros (-> & Hx & H). constructor; [|eauto].
    intros Hin. apply in_split in Hin. destruct Hin as (a & b & ->).
    pose proof (next_chain_suffix _ _ _ _ _ H) as Hs. cbn in Hs.
    destruct Hs as (_ & _ & Hs).
    pose proof (next_chain_functional _ _ _ _ H Hs) as E.
    apply (f_equal (@length Z)) in E. rewrite length_app in E. cbn in E. lia.
Qed.

Lemma free_list_NoDup (st : state) (l : list Z) (prev cur : Z) :
  free_list st prev cur l -> NoDup l.
Proof. intros H. eapply next_chain_NoDup, free_list_next_chain, H. Qed.

Lemma free_list_hd (st : state) (l : list Z) (prev cur : Z) :
  free_list st prev cur l -> cur = hd (heap_lo st) l.
Proof. destruct l; cbn; [auto|]. intros (H & _). exact H. Qed.


Lemma insert_head_mem (st : state) (bp c : Z) :
  mem (insert_head st bp) c =
  if c =? bp then NULL
  else if c =? heap_start st then bp
  else if c =? PADD bp WSIZE then heap_start st
  else mem st c.
Proof. reflexivity. Qed.

Lemma insert_head_fields (st : state) (bp : Z) :
  heap_start (insert_head st bp) = bp /\
  heap_lo (insert_head st bp) = heap_lo st /\
  mem_brk (insert_head st bp) = mem_brk st /\
  mem_max (insert_head st bp) = mem_max st.
Proof. repeat split. Qed.

Ltac node_arith :=
  unfold node_ok, WSIZE, DSIZE, NULL in *; Z.div_mod_to_equations; lia.

Ltac eqb_cases :=
  repeat match goal with
         | |- context [?a =? ?b] => destruct (Z.eqb_spec a b)
         end.

Lemma insert_head_list (st : state) (bp : Z) (l : list Z) :
  0 < heap_lo st ->
  free_list st NULL (heap_start st) l ->
  Forall (node_ok st) l -> node_ok st bp -> ~ In bp l ->
  free_list (insert_head st bp) NULL (heap_start (insert_head st bp)) (bp :: l).
Proof.
  intros Hlo Hl Hn Hbp Hnin.
  pose proof (free_list_NoDup _ _ _ _ Hl) as Hnd.
  pose proof (node_ok_PADD _ _ Hbp Hlo) as Ebp.
  cbn [free_list]. unfold mem_heap_lo, PREV_FREE, NEXT_FREE, GET.
  destruct (insert_head_fields st bp) as (-> & -> & _).
  rewrite !insert_head_mem, Ebp, Z.eqb_refl.
  split; [reflexivity|]. split; [node_arith|]. split; [reflexivity|].
  destruct l as [|y l'].
  - cbn in Hl. unfold mem_heap_lo in Hl. rewrite Hl.
    eqb_cases; try node_arith. cbn. reflexivity.
  - cbn in Hl. destruct Hl as (Hy & Hylo & Hyp & Hl). rewrite Hy.
    apply Forall_cons_iff in Hn. destruct Hn as [Hyok Hn'].
    apply NoDup_cons_iff in Hnd. destruct Hnd as [Hynin Hnd'].
    pose proof (node_ok_PADD _ _ Hyok Hlo) as Ey.
    assert (bp <> y) by (intros ->; apply Hnin; left; reflexivity).
    eqb_cases; try node_arith.
    cbn [free_list]. unfold mem_heap_lo, PREV_FREE, NEXT_FREE, GET.
    destruct (insert_head_fields st bp) as (_ & -> & _).
    rewrite !insert_head_mem, Ey, Ebp, Hy.
    split; [reflexivity|]. split; [exact Hylo|].
    eqb_cases; try node_arith. split; [reflexivity|].
    unfold NEXT_FREE, GET in Hl. rewrite Ey in Hl.
    revert Hl. apply free_list_frame; [reflexivity|].
    intros z Hz. rewrite Forall_forall in Hn'. pose proof (Hn' z Hz) as Hzok.
    pose proof (node_ok_PADD _ _ Hzok Hlo) as Ez.
    assert (z <> bp) by (intros ->; apply Hnin; right; exact Hz).
    assert (z <> y) by (intros ->; contradiction).
    rewrite !insert_head_mem, Ez, Ebp, Hy.
    eqb_cases; try node_arith; auto.
Qed.


Lemma last_nonempty {A : Type} (l : list A) (a d d' : A) :
  last (a :: l) d = last (a :: l) d'.
Proof.
  revert a. induction l as [|b l IH]; intros a; [reflexivity|].
  change (last (b :: l) d = last (b :: l) d'). apply IH.
Qed.

Lemma free_list_split (st : state) (x : Z) (l2 : list Z) (l1 : list Z) :
  forall prev cur,
    free_list st prev cur (l1 ++ x :: l2) ->
    PREV_FREE st x = last l1 prev /\
    NEXT_FREE st x = hd (heap_lo st) l2 /\
    free_list st x (NEXT_FREE st x) l2.
Proof.
  induction l1 as [|w l1 IH]; intros prev cur H.
  - cbn in H. destruct H as (_ & _ & Hp & Hl). cbn [last].
    repeat split; auto. apply (free_list_hd _ _ _ _ Hl).
  - cbn [app free_list] in H. destruct H as (_ & _ & _ & Hl).
    destruct (IH _ _ Hl) as (Hp & Hn & Hr). repeat split; auto.
    rewrite Hp. destruct l1; [reflexivity|].
    change (last (w :: z :: l1) prev) with (last (z :: l1) prev).
    apply last_nonempty.
Qed.

Lemma free_list_unlink (st st' : state) (x : Z) (l2 : list Z) :
  0 < heap_lo st -> heap_lo st' = heap_lo st ->
  forall l1 prev cur,
    l1 <> [] ->
    free_list st prev cur (l1 ++ x :: l2) ->
    Forall (node_ok st) (l1 ++ x :: l2) -> NoDup (l1 ++ x :: l2) ->
    (forall c, mem st' c =
               if c =? hd (heap_lo st) l2 then last l1 NULL
               else if c =? last l1 NULL + WSIZE then hd (heap_lo st) l2
               else mem st c) ->
    free_list st' prev cur (l1 ++ l2).
Proof.
  intros Hlo Elo. induction l1 as [|w l1 IH]; intros prev cur Hne H Hok Hnd Hm;
    [contradiction|].
  cbn [app free_list] in H. destruct H as (Hc & Hw & Hp & Hl).
  cbn [app] in Hok, Hnd.
  apply Forall_cons_iff in Hok. destruct Hok as [Hwok Hok].
  apply NoDup_cons_iff in Hnd. destruct Hnd as [Hwnin Hnd].
  pose proof (node_ok_PADD _ _ Hwok Hlo) as Ew.
  assert (Hwok' : node_ok st' w) by (unfold node_ok in *; rewrite Elo; exact Hwok).
  pose proof (node_ok_PADD _ _ Hwok' ltac:(lia)) as Ew'.
  assert (Hx : node_ok st x) by (rewrite Forall_forall in Hok; apply Hok, in_elt).
  assert (Hl2 : forall z, In z l2 -> node_ok st z /\ z <> w /\ z <> x).
  { intros z Hz. split; [|split].
    - rewrite Forall_forall in Hok. apply Hok. apply in_or_app. right. right. exact Hz.
    - intros ->. apply Hwnin. apply in_or_app. right. right. exact Hz.
    - intros ->. apply NoDup_remove_2 in Hnd. apply Hnd. apply in_or_app. right. exact Hz. }
  assert (Hhd : hd (heap_lo st) l2 = heap_lo st \/
                (In (hd (heap_lo st) l2) l2)).
  { destruct l2; cbn; auto. }
  assert (Hhdw : hd (heap_lo st) l2 <> w /\ hd (heap_lo st) l2 <> w + WSIZE).
  { destruct Hhd as [E|Hin]; [rewrite E; node_arith|].
    destruct (Hl2 _ Hin) as (? & ? & ?). split; [assumption|node_arith]. }
  cbn [app free_list]. unfold mem_heap_lo, PREV_FREE, NEXT_FREE, GET in *.
  rewrite Elo, Ew', !Hm. rewrite Ew in Hl.
  split; [exact Hc|]. split; [exact Hw|].
  destruct l1 as [|w1 l1].
  - (* [w] is the node before [x] *)
    cbn [app last] in *. cbn [free_list] in Hl.
    destruct Hl as (Hwx & Hxlo & Hxp & Hl2l).
    unfold mem_heap_lo, PREV_FREE, NEXT_FREE, GET in *.
    pose proof (node_ok_PADD _ _ Hx Hlo) as Ex. rewrite Ex in Hl2l.
    pose proof (free_list_hd _ _ _ _ Hl2l) as Ehd.
    eqb_cases; try node_arith. split; [exact Hp|].
    destruct l2 as [|y l2].
    + cbn in *. unfold mem_heap_lo. rewrite Elo. reflexivity.
    + cbn [hd] in *. cbn [free_list] in Hl2l |- *.
      destruct Hl2l as (_ & Hylo & Hyp & Hr).
      destruct (Hl2 y (or_introl eq_refl)) as (Hyok & Hyw & Hyx).
      pose proof (node_ok_PADD _ _ Hyok Hlo) as Ey.
      assert (Hyok' : node_ok st' y) by (unfold node_ok in *; rewrite Elo; exact Hyok).
      pose proof (node_ok_PADD _ _ Hyok' ltac:(lia)) as Ey'.
      unfold mem_heap_lo, PREV_FREE, NEXT_FREE, GET in *.
      rewrite Elo, Ey', !Hm, Z.eqb_refl. rewrite Ey in Hr.
      split; [reflexivity|]. split; [exact Hylo|]. split; [reflexivity|].
      eqb_cases; try node_arith.
      revert Hr. apply free_list_frame; [exact Elo|].
      intros z Hz.
      assert (Hyz : z <> y).
      { intros ->. apply NoDup_cons_iff in Hnd. destruct Hnd as [_ Hnd].
        apply NoDup_cons_iff in Hnd. destruct Hnd as [Hnd _]. contradiction. }
      destruct (Hl2 z (or_intror Hz)) as (Hzok & Hzw & Hzx).
      rewrite (node_ok_PADD _ _ Hzok Hlo), !Hm.
      eqb_cases; try node_arith; auto.
  - (* [w] stands earlier in the list *)
    change (last (w :: w1 :: l1) NULL) with (last (w1 :: l1) NULL) in *.
    assert (Hlast : In (last (w1 :: l1) NULL) (w1 :: l1)).
    { destruct (exists_last (l := w1 :: l1) ltac:(discriminate)) as (l' & a & E).
      rewrite E, last_last. apply in_or_app. right. left. reflexivity. }
    assert (Hlok : node_ok st (last (w1 :: l1) NULL)).
    { rewrite Forall_forall in Hok. apply Hok. apply in_or_app. left. exact Hlast. }
    assert (Hlw : last (w1 :: l1) NULL <> w).
    { intros E. apply Hwnin. apply in_or_app. left. rewrite <- E. exact Hlast. }
    eqb_cases; try node_arith. split; [exact Hp|].
    apply (IH w (mem st (w + WSIZE))); auto. discriminate.
Qed.

Lemma remove_node_fields (st : state) (x : Z) :
  heap_lo (remove_node st x) = heap_lo st /\
  mem_brk (remove_node st x) = mem_brk st /\
  mem_max (remove_node st x) = mem_max st.
Proof. unfold remove_node. destruct (negb _); repeat split. Qed.

(** The effect of [remove_node] on a well-linked list: the node leaves the
    list, and the only words written are the next-link of the node before
    it (or [heap_start] at the head) and the previous-link of the node after
    it (or the padding word at the low end of the heap). *)
Lemma remove_node_list (st : state) (x : Z) (l1 l2 : list Z) :
  0 < heap_lo st ->
  free_list st NULL (heap_start st) (l1 ++ x :: l2) ->
  Forall (node_ok st) (l1 ++ x :: l2) ->
  free_list (remove_node st x) NULL (heap_start (remove_node st x)) (l1 ++ l2) /\
  (forall c, mem (remove_node st x) c =
             if c =? hd (heap_lo st) l2 then last l1 NULL
             else if negb (last l1 NULL =? NULL) && (c =? last l1 NULL + WSIZE)
                  then hd (heap_lo st) l2
                  else mem st c).
Proof.
  intros Hlo Hl Hok.
  pose proof (free_list_NoDup _ _ _ _ Hl) as Hnd.
  destruct (free_list_split _ _ _ _ _ _ Hl) as (Hp & Hn & Hr).
  assert (Hx : node_ok st x) by (rewrite Forall_forall in Hok; apply Hok, in_elt).
  pose proof (node_ok_PADD _ _ Hx Hlo) as Ex.
  destruct l1 as [|w1 l1].
  - (* [x] is the head *)
    cbn [last app] in *.
    assert (E : remove_node st x =
                PUT (set_heap_start st (hd (heap_lo st) l2)) (hd (heap_lo st) l2) NULL).
    { unfold remove_node. rewrite Hp. change (negb (NULL =? NULL)) with false.
      cbn iota. unfold set_PREV_FREE, NEXT_FREE, PREV_FREE, GET in *.
      cbn [mem set_heap_start]. rewrite Hn, Hp. reflexivity. }
    rewrite E. cbn [heap_start PUT set_mem set_heap_start mem].
    split; [|intros c; reflexivity].
    cbn [free_list] in Hl. destruct Hl as (Hc & Hxlo & _ & Hl).
    destruct l2 as [|y l2]; [reflexivity|].
    cbn [hd] in *. cbn [free_list] in Hr |- *.
    destruct Hr as (_ & Hylo & Hyp & Hr).
    apply Forall_cons_iff in Hok. destruct Hok as [_ Hok].
    apply Forall_cons_iff in Hok. destruct Hok as [Hyok Hok].
    apply NoDup_cons_iff in Hnd. destruct Hnd as [_ Hnd].
    apply NoDup_cons_iff in Hnd. destruct Hnd as [Hynin Hnd].
    pose proof (node_ok_PADD _ _ Hyok Hlo) as Ey.
    split; [reflexivity|]. split; [exact Hylo|].
    unfold PREV_FREE, NEXT_FREE, GET in *.
    cbn [mem PUT set_mem set_heap_start]. rewrite Ey in *. unfold upd at 1 2. rewrite Z.eqb_refl.
    split; [reflexivity|].
    destruct (Z.eqb_spec (y + WSIZE) y); [node_arith|].
    revert Hr. apply free_list_frame; [reflexivity|].
    intros z Hz. rewrite Forall_forall in Hok. pose proof (Hok z Hz) as Hzok.
    rewrite (node_ok_PADD _ _ Hzok Hlo).
    cbn [mem PUT set_mem set_heap_start]. unfold upd.
    assert (z <> y) by (intros ->; contradiction).
    eqb_cases; try node_arith; auto.
  - (* [x] has a node before it *)
    assert (Hlast : In (last (w1 :: l1) NULL) (w1 :: l1)).
    { destruct (exists_last (l := w1 :: l1) ltac:(discriminate)) as (l' & a & E).
      rewrite E, last_last. apply in_or_app. right. left. reflexivity. }
    assert (Hlok : node_ok st (last (w1 :: l1) NULL)).
    { rewrite Forall_forall in Hok. apply Hok. apply in_or_app. left. exact Hlast. }
    assert (Hlx : last (w1 :: l1) NULL <> x).
    { intros E. apply NoDup_remove_2 in Hnd. apply Hnd. apply in_or_app. left.
      rewrite <- E. exact Hlast. }
    assert (Hnz : last (w1 :: l1) NULL <> NULL) by node_arith.
    pose proof (node_ok_PADD _ _ Hlok Hlo) as El.
    assert (E : remove_node st x =
                PUT (PUT st (last (w1 :: l1) NULL + WSIZE) (hd (heap_lo st) l2))
                    (hd (heap_lo st) l2) (last (w1 :: l1) NULL)).
    { assert (Hp' : mem st x = last (w1 :: l1) NULL) by exact Hp.
      assert (Hn' : mem st (x + WSIZE) = hd (heap_lo st) l2).
      { rewrite <- Ex. exact Hn. }
      unfold remove_node. rewrite Hp, Hn.
      destruct (Z.eqb_spec (last (w1 :: l1) NULL) NULL) as [E|_]; [contradiction|].
      cbn [negb]. unfold set_NEXT_FREE, set_PREV_FREE. rewrite El.
      unfold NEXT_FREE, PREV_FREE, GET. rewrite Ex.
      cbn [mem PUT set_mem]. rewrite !upd_neq by node_arith.
      rewrite Hp', Hn'. reflexivity. }
    assert (Em : forall c, mem (remove_node st x) c =
                  if c =? hd (heap_lo st) l2 then last (w1 :: l1) NULL
                  else if c =? last (w1 :: l1) NULL + WSIZE then hd (heap_lo st) l2
                  else mem st c).
    { intros c. rewrite E. reflexivity. }
    split.
    + assert (Ehs : heap_start (remove_node st x) = heap_start st).
      { rewrite E. reflexivity. }
      rewrite Ehs.
      apply (free_list_unlink st (remove_node st x) x l2 Hlo
               (proj1 (remove_node_fields st x)) (w1 :: l1) NULL (heap_start st));
        auto. discriminate.
    + intros c. rewrite Em.
      destruct (Z.eqb_spec (last (w1 :: l1) NULL) NULL) as [E0|_]; [contradiction|].
      reflexivity.
Qed.



(** ** Geometry of a run of blocks *)

Lemma span_app (a b : list block) : span (a ++ b) = span a + span b.
Proof. induction a as [|x a IH]; cbn [app span]; lia. Qed.

Lemma span_bounds (bs : list block) :
  Forall block_ok bs -> 0 <= span bs /\ span bs mod DSIZE = 0.
Proof.
  induction 1 as [|b bs (Hs & Hm & _) _ IH]; cbn [span].
  - split; [lia|reflexivity].
  - unfold MINIMUMSIZE, DSIZE in *. destruct IH. split; [lia|].
    Z.div_mod_to_equations. lia.
Qed.

Lemma span_cons_min (b : block) (bs : list block) :
  Forall block_ok (b :: bs) -> MINIMUMSIZE <= fst b <= span (b :: bs).
Proof.
  intros H. apply Forall_cons_iff in H. destruct H as [(Hs & _) H].
  destruct (span_bounds _ H). cbn [span]. lia.
Qed.

Lemma blocks_at_app (m : Z -> Z) (a b : list block) :
  forall p, blocks_at m p (a ++ b) <->
            blocks_at m p a /\ blocks_at m (p + span a) b.
Proof.
  induction a as [|x a IH]; intros p; cbn [app blocks_at span].
  - rewrite Z.add_0_r. tauto.
  - rewrite IH, Z.add_assoc. tauto.
Qed.

Lemma free_bps_app (a b : list block) :
  forall p, free_bps p (a ++ b) = free_bps p a ++ free_bps (p + span a) b.
Proof.
  induction a as [|x a IH]; intros p; cbn [app free_bps span].
  - rewrite Z.add_0_r. reflexivity.
  - rewrite IH, Z.add_assoc. destruct (snd x =? 0); reflexivity.
Qed.

Lemma free_bps_range (bs : list block) :
  Forall block_ok bs ->
  forall p x, In x (free_bps p bs) ->
              p <= x /\ x + MINIMUMSIZE <= p + span bs /\ (x - p) mod DSIZE = 0.
Proof.
  induction 1 as [|b bs Hb Hbs IH]; intros p x; cbn [free_bps span]; [contradiction|].
  pose proof (span_bounds _ Hbs) as [Hsp _].
  destruct Hb as (Hs & Hm & _). unfold MINIMUMSIZE, DSIZE in *.
  assert (Htl : In x (free_bps (p + fst b) bs) ->
                p <= x /\ x + 32 <= p + (fst b + span bs) /\ (x - p) mod 16 = 0).
  { intros Hin. destruct (IH _ _ Hin) as (? & ? & ?).
    split; [lia|]. split; [lia|]. Z.div_mod_to_equations. lia. }
  destruct (snd b =? 0); [|exact Htl].
  intros [<-|Hin]; [|auto].
  split; [lia|]. split; [lia|]. rewrite Z.sub_diag. reflexivity.
Qed.

(** [blocks_at] reads nothing but the tags of the run. *)
Lemma blocks_at_agree (m m' : Z -> Z) (bs : list block) :
  Forall block_ok bs ->
  forall p,
    (forall c, p - WSIZE <= c <= p + span bs - DSIZE -> m' c = m c) ->
    blocks_at m p bs -> blocks_at m' p bs.
Proof.
  induction 1 as [|b bs Hb Hbs IH]; intros p Hm; cbn [blocks_at span]; auto.
  pose proof (span_bounds _ Hbs) as [Hsp _].
  destruct Hb as (Hs & _). unfold MINIMUMSIZE, WSIZE, DSIZE in *.
  cbn [span] in Hm.
  intros (Hh & Hf & Hr). rewrite !Hm by lia. repeat split; auto.
  apply IH; auto. intros c Hc. apply Hm. lia.
Qed.

(** Writing links of free blocks leaves the tags alone. *)
Lemma blocks_at_frame (m m' : Z -> Z) (bs : list block) :
  Forall block_ok bs ->
  forall p,
    (forall c, m' c <> m c ->
               c < p - WSIZE \/ link_cell p bs c \/ p + span bs - DSIZE < c) ->
    blocks_at m p bs -> blocks_at m' p bs.
Proof.
  induction 1 as [|b bs Hb Hbs IH]; intros p Hm; cbn [blocks_at span]; auto.
  pose proof (span_bounds _ Hbs) as [Hsp _].
  pose proof (free_bps_range _ Hbs) as Hrange.
  destruct Hb as (Hs & _). unfold MINIMUMSIZE, WSIZE, DSIZE in *.
  assert (Hlink : forall c, link_cell p (b :: bs) c ->
            c = p \/ c = p + 8 \/ link_cell (p + fst b) bs c).
  { intros c (x & Hin & Hc). cbn [free_bps] in Hin.
    destruct (snd b =? 0).
    - destruct Hin as [<-|Hin]; [unfold WSIZE in Hc; lia|].
      right. right. exists x. auto.
    - right. right. exists x. auto. }
  assert (Hlow : forall c, link_cell (p + fst b) bs c -> p + fst b <= c).
  { intros c (x & Hin & Hc). destruct (Hrange _ _ Hin) as (? & _).
    unfold WSIZE in Hc. lia. }
  assert (Htag : forall c, c = p - 8 \/ c = p + fst b - 16 -> m' c = m c).
  { intros c Hc. destruct (Z.eq_dec (m' c) (m c)) as [E|N]; [exact E|exfalso].
    cbn [span] in Hm. destruct (Hm c N) as [?|[Hl|?]]; [lia| |lia].
    destruct (Hlink c Hl) as [?|[?|Hl']]; [lia|lia|].
    pose proof (Hlow c Hl'). lia. }
  intros (Hh & Hf & Hr). rewrite !Htag by lia. repeat split; auto.
  apply IH; auto. intros c N. cbn [span] in Hm.
  destruct (Hm c N) as [?|[Hl|?]]; [lia| |lia].
  destruct (Hlink c Hl) as [?|[?|Hl']]; [lia|lia|]. auto.
Qed.

(** Replacing a run of blocks by another one of the same span. *)
Lemma blocks_at_replace (m m' : Z -> Z) (bs1 mid mid' bs2 : list block) (p : Z) :
  Forall block_ok bs1 -> Forall block_ok bs2 ->
  span mid' = span mid -> 0 < span mid' ->
  blocks_at m p (bs1 ++ mid ++ bs2) ->
  blocks_at m' (p + span bs1) mid' ->
  (forall c, c < p + span bs1 - WSIZE \/ p + span bs1 + span mid - DSIZE < c ->
             m' c = m c) ->
  blocks_at m' p (bs1 ++ mid' ++ bs2).
Proof.
  intros H1 H2 Hsp Hpos Hb Hmid Hm.
  pose proof (span_bounds _ H2) as [Hp2 _].
  unfold WSIZE, DSIZE in *.
  apply blocks_at_app in Hb. destruct Hb as [Hb1 Hb].
  apply blocks_at_app in Hb. destruct Hb as [_ Hb2].
  apply blocks_at_app. split; [|apply blocks_at_app; split].
  - revert Hb1. apply blocks_at_agree; auto. intros c Hc. apply Hm.
    unfold WSIZE, DSIZE in *. lia.
  - exact Hmid.
  - rewrite Hsp. revert Hb2. apply blocks_at_agree; auto. intros c Hc. apply Hm.
    unfold WSIZE, DSIZE in *. lia.
Qed.


(** ** Layout of the heap *)

Lemma layout_node_ok (st : state) (bs : list block) (x : Z) :
  layout st bs -> In x (free_bps (first_bp st) bs) -> node_ok st x.
Proof.
  intros [Hlo Hbrk [Hm1 Hm2] Hok _ _ _ _] Hin.
  destruct (free_bps_range _ Hok _ _ Hin) as (H1 & H2 & H3).
  unfold node_ok, first_bp, MINIMUMSIZE, DSIZE in *.
  split; [lia|]. split; [lia|]. Z.div_mod_to_equations. lia.
Qed.

Lemma layout_frame (st st' : state) (bs : list block) :
  layout st bs ->
  heap_lo st' = heap_lo st -> mem_brk st' = mem_brk st -> mem_max st' = mem_max st ->
  (forall c, mem st' c <> mem st c ->
             c = heap_lo st \/ link_cell (first_bp st) bs c) ->
  layout st' bs.
Proof.
  intros [Hlo Hbrk Hmax Hok Hph Hpf Hb He] Elo Ebrk Emax Hm.
  pose proof (free_bps_range _ Hok (first_bp st)) as Hrange.
  pose proof (span_bounds _ Hok) as [Hsp _].
  assert (Hcell : forall c, mem st' c <> mem st c ->
            c = heap_lo st \/
            (first_bp st <= c /\ c + 3 * WSIZE <= first_bp st + span bs)).
  { intros c N. destruct (Hm c N) as [?|(x & Hin & Hc)]; [auto|right].
    destruct (Hrange _ Hin) as (? & ? & _).
    unfold MINIMUMSIZE, WSIZE in *. lia. }
  assert (Hsame : forall c, c <> heap_lo st ->
            c < first_bp st \/ first_bp st + span bs - WSIZE <= c ->
            mem st' c = mem st c).
  { intros c Hc1 Hc2. destruct (Z.eq_dec (mem st' c) (mem st c)) as [E|N]; [exact E|].
    destruct (Hcell c N) as [?|?]; unfold WSIZE in *; lia. }
  unfold first_bp, WSIZE, DSIZE in *.
  constructor; unfold first_bp, WSIZE, DSIZE; rewrite ?Elo, ?Ebrk, ?Emax; auto.
  - rewrite Hsame by (unfold WSIZE, DSIZE, first_bp; lia). exact Hph.
  - rewrite Hsame by (unfold WSIZE, DSIZE, first_bp; lia). exact Hpf.
  - revert Hb. apply blocks_at_frame; auto. intros c N.
    destruct (Hm c N) as [?|?]; [left; unfold WSIZE; lia|auto].
  - rewrite Hsame by (unfold WSIZE, DSIZE, first_bp; lia). exact He.
Qed.

Lemma layout_replace (st st' : state) (bs1 mid mid' bs2 : list block) :
  layout st (bs1 ++ mid ++ bs2) ->
  Forall block_ok mid' -> span mid' = span mid -> mid' <> [] ->
  heap_lo st' = heap_lo st -> mem_brk st' = mem_brk st -> mem_max st' = mem_max st ->
  blocks_at (mem st') (first_bp st + span bs1) mid' ->
  (forall c, c < first_bp st + span bs1 - WSIZE \/
             first_bp st + span bs1 + span mid - DSIZE < c ->
             mem st' c = mem st c) ->
  layout st' (bs1 ++ mid' ++ bs2).
Proof.
  intros [Hlo Hbrk Hmax Hok Hph Hpf Hb He] Hok' Hsp Hne Elo Ebrk Emax Hmid Hm.
  apply Forall_app in Hok. destruct Hok as [Hok1 Hok].
  apply Forall_app in Hok. destruct Hok as [_ Hok2].
  pose proof (span_bounds _ Hok1) as [Hsp1 _].
  pose proof (span_bounds _ Hok2) as [Hsp2 _].
  assert (Hpos : MINIMUMSIZE <= span mid').
  { destruct mid' as [|b mid']; [contradiction|].
    pose proof (span_cons_min b mid' Hok'). lia. }
  rewrite !span_app in *.
  unfold first_bp, MINIMUMSIZE, WSIZE, DSIZE in *.
  constructor; unfold first_bp, WSIZE, DSIZE; rewrite ?Elo, ?Ebrk, ?Emax, ?span_app; auto.
  - lia.
  - apply Forall_app. split; [auto|]. apply Forall_app. split; auto.
  - rewrite Hm by lia. exact Hph.
  - rewrite Hm by lia. exact Hpf.
  - revert Hb. intros Hb.
    apply (blocks_at_replace (mem st) (mem st') bs1 mid mid' bs2); auto.
    unfold MINIMUMSIZE in *; lia.
  - rewrite Hm by lia. exact He.
Qed.

(** The words around the block that follows [bs1]. *)
Lemma layout_at (st : state) (bs1 : list block) (b : block) (bs2 : list block) :
  layout st (bs1 ++ b :: bs2) ->
  let bp := first_bp st + span bs1 in
  block_ok b /\
  heap_lo st + 2 * DSIZE <= bp /\ bp + fst b + span bs2 = mem_brk st /\
  0 <= span bs2 /\ mem_brk st < 2 ^ 64 /\
  mem st (bp - WSIZE) = PACK (fst b) (snd b) /\
  mem st (bp + fst b - DSIZE) = PACK (fst b) (snd b) /\
  mem st (bp - DSIZE) = PACK (fst (last bs1 (OVERHEAD, 1))) (snd (last bs1 (OVERHEAD, 1))) /\
  mem st (bp + fst b - WSIZE) = PACK (fst (hd (0, 1) bs2)) (snd (hd (0, 1) bs2)).
Proof.
  intros [Hlo Hbrk Hmax Hok Hph Hpf Hb He] bp.
  apply Forall_app in Hok. destruct Hok as [Hok1 Hok].
  apply Forall_cons_iff in Hok. destruct Hok as [Hbok Hok2].
  pose proof (span_bounds _ Hok1) as [Hsp1 _].
  pose proof (span_bounds _ Hok2) as [Hsp2 _].
  rewrite span_app in Hbrk. cbn [span] in Hbrk.
  apply blocks_at_app in Hb. destruct Hb as [Hb1 Hb]. cbn [blocks_at] in Hb.
  destruct Hb as (Hh & Hf & Hb2). fold bp in Hh, Hf, Hb2.
  unfold first_bp, WSIZE, DSIZE in *.
  split; [exact Hbok|].
  do 4 (split; [unfold bp, first_bp, DSIZE; lia|]).
  split; [exact Hh|]. split; [exact Hf|]. split.
  - (* footer of the block before *)
    assert (Hcase : bs1 = [] \/ exists bs1' a, bs1 = bs1' ++ [a]).
    { destruct bs1 as [|b0 bs1]; [left; reflexivity|right].
      destruct (exists_last (l := b0 :: bs1) ltac:(discriminate)) as (l' & a & E).
      eauto. }
    destruct Hcase as [E|(bs1' & a & E)].
    + subst bs1. cbn [last span] in *. unfold bp, first_bp, DSIZE, OVERHEAD.
      replace (heap_lo st + 2 * 16 + 0 - 16) with (heap_lo st + 16) by lia.
      exact Hpf.
    + subst bs1. rewrite last_last.
      apply blocks_at_app in Hb1. destruct Hb1 as [_ Hb1]. cbn [blocks_at] in Hb1.
      destruct Hb1 as (_ & Hf' & _). rewrite span_app in *. cbn [span] in *.
      unfold bp, first_bp, DSIZE in *. rewrite span_app. cbn [span].
      replace (heap_lo st + 2 * 16 + (span bs1' + (fst a + 0)) - 16)
        with (heap_lo st + 2 * 16 + span bs1' + fst a - 16) by lia.
      exact Hf'.
  - (* header of the block after *)
    destruct bs2 as [|n bs2]; cbn [hd blocks_at span] in *.
    + replace (bp + fst b - 8) with (mem_brk st - 8) by (unfold bp, first_bp, DSIZE; lia).
      exact He.
    + destruct Hb2 as (Hh' & _). exact Hh'.
Qed.


(** ** List operations on a laid-out heap *)

Lemma free_list_nodes_ok (st : state) (bs : list block) (l : list Z) :
  layout st bs ->
  (forall x, In x l -> In x (free_bps (first_bp st) bs)) ->
  Forall (node_ok st) l.
Proof.
  intros Hlay Hsub. apply Forall_forall. intros x Hx.
  apply (layout_node_ok st bs); auto.
Qed.

Lemma insert_head_ok (st : state) (bs : list block) (l : list Z) (bp : Z) :
  heap_ok st bs l ->
  (forall x, In x l -> In x (free_bps (first_bp st) bs)) ->
  In bp (free_bps (first_bp st) bs) -> ~ In bp l ->
  heap_ok (insert_head st bp) bs (bp :: l).
Proof.
  intros [Hlay Hl] Hsub Hbp Hnin.
  pose proof (lay_lo _ _ Hlay) as Hlo.
  pose proof (layout_node_ok _ _ _ Hlay Hbp) as Hbpok.
  split.
  - apply (layout_frame st (insert_head st bp) bs Hlay); try reflexivity.
    intros c. rewrite insert_head_mem, (node_ok_PADD _ _ Hbpok Hlo).
    destruct (Z.eqb_spec c bp) as [E|_].
    { intros _. right. exists bp. auto. }
    destruct (Z.eqb_spec c (heap_start st)) as [E|_].
    { intros _. rewrite E, (free_list_hd _ _ _ _ Hl).
      destruct l as [|y l]; cbn [hd]; [left; reflexivity|].
      right. exists y. split; [apply Hsub; left; reflexivity|auto]. }
    destruct (Z.eqb_spec c (bp + WSIZE)) as [E|_].
    { intros _. right. exists bp. auto. }
    intros N. contradiction.
  - apply insert_head_list; auto. apply (free_list_nodes_ok st bs); auto.
Qed.

Lemma remove_node_ok (st : state) (bs : list block) (l1 l2 : list Z) (x : Z) :
  heap_ok st bs (l1 ++ x :: l2) ->
  (forall y, In y (l1 ++ x :: l2) -> In y (free_bps (first_bp st) bs)) ->
  heap_ok (remove_node st x) bs (l1 ++ l2).
Proof.
  intros [Hlay Hl] Hsub.
  pose proof (lay_lo _ _ Hlay) as Hlo.
  pose proof (free_list_nodes_ok _ _ _ Hlay Hsub) as Hok.
  destruct (remove_node_list st x l1 l2 Hlo Hl Hok) as [Hl' Hm].
  destruct (remove_node_fields st x) as (Elo & Ebrk & Emax).
  split; [|exact Hl'].
  apply (layout_frame st (remove_node st x) bs Hlay); auto.
  intros c. rewrite Hm.
  destruct (Z.eqb_spec c (hd (heap_lo st) l2)) as [E|_].
  { intros _. rewrite E. destruct l2 as [|y l2]; cbn [hd]; [left; reflexivity|].
    right. exists y. split; [|auto]. apply Hsub. apply in_or_app. right. right. left.
    reflexivity. }
  destruct (Z.eqb_spec (last l1 NULL) NULL) as [E|Hnz]; cbn [negb andb];
    [intros N; contradiction|].
  destruct (Z.eqb_spec c (last l1 NULL + WSIZE)) as [E|_]; [|intros N; contradiction].
  intros _. right. exists (last l1 NULL). split; [|auto]. apply Hsub. apply in_or_app. left.
  destruct l1 as [|w l1]; [contradiction|].
  destruct (exists_last (l := w :: l1) ltac:(discriminate)) as (l' & a & E').
  rewrite E', last_last. apply in_or_app. right. left. reflexivity.
Qed.

Lemma free_list_PUT (st : state) (l : list Z) (a v : Z) :
  0 < heap_lo st -> Forall (node_ok st) l ->
  (forall x, In x l -> a <> x /\ a <> x + WSIZE) ->
  forall prev cur,
    free_list st prev cur l -> free_list (PUT st a v) prev cur l.
Proof.
  intros Hlo Hok Ha. apply free_list_frame; [reflexivity|].
  intros x Hx. destruct (Ha x Hx) as [H1 H2].
  rewrite Forall_forall in Hok.
  rewrite (node_ok_PADD st x) by auto.
  cbn [mem PUT set_mem]. rewrite !upd_neq by auto. auto.
Qed.

(** ** Reading the tags of a laid-out heap *)

Lemma layout_reads (st : state) (bs1 : list block) (b : block) (bs2 : list block) :
  layout st (bs1 ++ b :: bs2) ->
  let bp := first_bp st + span bs1 in
  let prev := last bs1 (OVERHEAD, 1) in
  let next := hd (0, 1) bs2 in
  HDRP bp = bp - WSIZE /\ PSUB bp DSIZE = bp - DSIZE /\
  GET_SIZE st (HDRP bp) = fst b /\ GET_ALLOC st (HDRP bp) = snd b /\
  NEXT_BLKP st bp = bp + fst b /\ FTRP st bp = bp + fst b - DSIZE /\
  GET_SIZE st (PSUB bp DSIZE) = fst prev /\ GET_ALLOC st (PSUB bp DSIZE) = snd prev /\
  PREV_BLKP st bp = bp - fst prev /\
  HDRP (NEXT_BLKP st bp) = bp + fst b - WSIZE /\
  GET_SIZE st (HDRP (NEXT_BLKP st bp)) = fst next /\
  GET_ALLOC st (HDRP (NEXT_BLKP st bp)) = snd next.
Proof.
  intros Hlay bp prev next.
  pose proof (lay_lo _ _ Hlay) as Hlo.
  pose proof (lay_ok _ _ Hlay) as Hok.
  destruct (layout_at _ _ _ _ Hlay) as
    ((Hs & Hsm & Hsa) & Hbp & Hend & Hsp2 & Hbrk & Hh & Hf & Hpf & Hnh).
  fold bp in Hbp, Hend, Hh, Hf, Hpf, Hnh. fold prev in Hpf. fold next in Hnh.
  apply Forall_app in Hok. destruct Hok as [Hok1 Hok2].
  apply Forall_cons_iff in Hok2. destruct Hok2 as [_ Hok2].
  assert (Hprev : MINIMUMSIZE / 2 <= fst prev <= bp - first_bp st + DSIZE /\
                  fst prev mod DSIZE = 0 /\ 0 <= snd prev <= 1).
  { subst prev.
    assert (Hcase : bs1 = [] \/ exists bs1' a, bs1 = bs1' ++ [a]).
    { destruct bs1 as [|b0 bs1]; [left; reflexivity|right].
      destruct (exists_last (l := b0 :: bs1) ltac:(discriminate)) as (l' & a & E).
      eauto. }
    destruct Hcase as [->|(bs1' & a & ->)].
    - unfold bp, first_bp, MINIMUMSIZE, DSIZE, OVERHEAD. cbn [last fst snd span].
      change (32 / 2) with 16. change (16 mod 16) with 0. lia.
    - rewrite last_last. apply Forall_app in Hok1. destruct Hok1 as [Hok1' Ha].
      apply Forall_cons_iff in Ha. destruct Ha as [(Ha1 & Ha2 & Ha3) _].
      pose proof (span_bounds _ Hok1') as [? _].
      unfold bp. rewrite span_app. cbn [span].
      unfold MINIMUMSIZE, DSIZE in *. change (32 / 2) with 16. lia. }
  assert (Hnext : 0 <= fst next <= span bs2 /\
                  fst next mod DSIZE = 0 /\ 0 <= snd next <= 1).
  { subst next. destruct bs2 as [|n bs2]; cbn [hd].
    - cbn [fst snd span]. change (0 mod DSIZE) with 0. lia.
    - pose proof (span_cons_min n bs2 Hok2).
      apply Forall_cons_iff in Hok2. destruct Hok2 as [(Ha1 & Ha2 & Ha3) _].
      unfold MINIMUMSIZE in *. lia. }
  destruct Hprev as (Hp1 & Hp2 & Hp3). destruct Hnext as (Hn1 & Hn2 & Hn3).
  unfold first_bp, MINIMUMSIZE, DSIZE, WSIZE in *.
  change (32 / 2) with 16 in Hp1.
  assert (E1 : HDRP bp = bp - 8).
  { unfold HDRP, PSUB, WSIZE. apply wrap64_small. lia. }
  assert (E2 : PSUB bp 16 = bp - 16).
  { unfold PSUB. apply wrap64_small. lia. }
  assert (E3 : GET_SIZE st (bp - 8) = fst b).
  { apply (GET_SIZE_PACK st _ _ (snd b)); auto; lia. }
  assert (E4 : GET_SIZE st (bp - 16) = fst prev).
  { apply (GET_SIZE_PACK st _ _ (snd prev)); auto; lia. }
  assert (E5 : GET_SIZE st (bp + fst b - 8) = fst next).
  { apply (GET_SIZE_PACK st _ _ (snd next)); auto; lia. }
  assert (E6 : NEXT_BLKP st bp = bp + fst b).
  { unfold NEXT_BLKP. rewrite E1, E3. unfold PADD. apply wrap64_small. lia. }
  assert (E7 : HDRP (bp + fst b) = bp + fst b - 8).
  { unfold HDRP, PSUB, WSIZE. apply wrap64_small. lia. }
  unfold DSIZE, WSIZE. rewrite E6, E7, E1, E2, E3, E4, E5.
  repeat split.
  - apply (GET_ALLOC_PACK st _ (fst b)); auto; lia.
  - unfold FTRP. rewrite E1, E3. unfold PADD, DSIZE.
    rewrite (wrap64_small (fst b - 16)) by lia.
    rewrite wrap64_small by lia. lia.
  - apply (GET_ALLOC_PACK st _ (fst prev)); auto; lia.
  - unfold PREV_BLKP. fold DSIZE. change DSIZE with 16. rewrite E2, E4.
    unfold PSUB. apply wrap64_small. lia.
  - apply (GET_ALLOC_PACK st _ (fst next)); auto; lia.
Qed.


(** ** Merging a run of blocks into one free block *)

Lemma merge_insert (st : state) (bs1 mid bs2 : list block) (l : list Z) :
  let q := first_bp st + span bs1 in
  let S := span mid in
  heap_ok st (bs1 ++ mid ++ bs2) l ->
  mid <> [] ->
  Permutation l (free_bps (first_bp st) bs1 ++ free_bps (q + S) bs2) ->
  let st1 := PUT st (HDRP q) (PACK S 0) in
  let st2 := PUT st1 (FTRP st1 q) (PACK S 0) in
  wf (insert_head st2 q) (bs1 ++ (S, 0) :: bs2) (q :: l).
Proof.
  intros q S [Hlay Hl] Hne Hperm st1 st2.
  pose proof (lay_lo _ _ Hlay) as Hlo.
  pose proof (lay_ok _ _ Hlay) as Hok.
  apply Forall_app in Hok. destruct Hok as [Hok1 Hok].
  apply Forall_app in Hok. destruct Hok as [Hokm Hok2].
  pose proof (span_bounds _ Hok1) as [Hsp1 _].
  pose proof (span_bounds _ Hok2) as [Hsp2 _].
  pose proof (span_bounds _ Hokm) as [_ HSm]. fold S in HSm.
  assert (HS : MINIMUMSIZE <= S).
  { unfold S. destruct mid as [|b mid]; [contradiction|].
    pose proof (span_cons_min b mid Hokm). lia. }
  pose proof (lay_brk _ _ Hlay) as Hbrk. rewrite !span_app in Hbrk. fold S in Hbrk.
  pose proof (lay_max _ _ Hlay) as [Hmax1 Hmax2].
  assert (Hq : heap_lo st + 2 * DSIZE <= q /\ q + S <= mem_brk st).
  { unfold q, first_bp in *. lia. }
  unfold MINIMUMSIZE, DSIZE, WSIZE in *.
  assert (E1 : HDRP q = q - 8).
  { unfold HDRP, PSUB, WSIZE. apply wrap64_small. lia. }
  assert (E2 : FTRP st1 q = q + S - 16).
  { unfold FTRP. rewrite E1.
    rewrite (GET_SIZE_PACK st1 (q - 8) S 0); try lia.
    - unfold PADD, DSIZE. rewrite (wrap64_small (S - 16)) by lia.
      rewrite wrap64_small by lia. lia.
    - unfold st1. rewrite E1. cbn [mem PUT set_mem]. apply upd_eq. }
  assert (Em : forall c, mem st2 c =
                 if c =? q + S - 16 then PACK S 0
                 else if c =? q - 8 then PACK S 0 else mem st c).
  { intros c. unfold st2. rewrite E2. unfold st1. rewrite E1. reflexivity. }
  assert (Hsub : forall x, In x l ->
            In x (free_bps (first_bp st) bs1) \/ In x (free_bps (q + S) bs2)).
  { intros x Hx. apply in_app_or. apply (Permutation_in _ Hperm Hx). }
  assert (Hrange : forall x, In x l -> x + 32 <= q \/ q + S <= x).
  { intros x Hx. destruct (Hsub x Hx) as [Hin|Hin].
    - destruct (free_bps_range _ Hok1 _ _ Hin) as (_ & H & _).
      unfold MINIMUMSIZE in H. left. unfold q. lia.
    - destruct (free_bps_range _ Hok2 _ _ Hin) as (H & _). right. lia. }
  set (bs' := bs1 ++ (S, 0) :: bs2).
  assert (Hfree' : free_bps (first_bp st) bs' =
                   free_bps (first_bp st) bs1 ++ q :: free_bps (q + S) bs2).
  { unfold bs'. rewrite free_bps_app. cbn [free_bps fst snd]. reflexivity. }
  assert (Hsub' : forall x, In x l -> In x (free_bps (first_bp st) bs')).
  { intros x Hx. rewrite Hfree'. apply in_or_app.
    destruct (Hsub x Hx); [left|right; right]; assumption. }
  assert (Hlay2 : layout st2 bs').
  { apply (layout_replace st st2 bs1 mid [(S, 0)] bs2 Hlay); try reflexivity.
    - constructor; [|constructor]. unfold block_ok, MINIMUMSIZE, DSIZE. cbn [fst snd].
      auto.
    - cbn [span fst]. unfold S. lia.
    - discriminate.
    - cbn [blocks_at fst snd]. fold q. unfold WSIZE, DSIZE. rewrite !Em.
      rewrite Z.eqb_refl.
      destruct (Z.eqb_spec (q - 8) (q + S - 16)); [lia|]. rewrite Z.eqb_refl. auto.
    - fold q. fold S. unfold WSIZE, DSIZE. intros c Hc. rewrite Em.
      destruct (Z.eqb_spec c (q + S - 16)); [lia|].
      destruct (Z.eqb_spec c (q - 8)); [lia|]. reflexivity. }
  assert (Hnodes : Forall (node_ok st) l).
  { apply Forall_forall. intros x Hx. apply (layout_node_ok st2 bs' x Hlay2).
    apply (Hsub' x Hx). }
  assert (Hl2 : free_list st2 NULL (heap_start st2) l).
  { unfold st2. rewrite E2. apply free_list_PUT; auto.
    - intros x Hx. destruct (Hrange x Hx); unfold WSIZE; lia.
    - unfold st1. rewrite E1. apply free_list_PUT; auto.
      intros x Hx. destruct (Hrange x Hx); unfold WSIZE; lia. }
  split.
  - apply insert_head_ok.
    + split; assumption.
    + exact Hsub'.
    + change (first_bp st2) with (first_bp st). rewrite Hfree'.
      apply in_or_app. right. left. reflexivity.
    + intros Hin. destruct (Hrange q Hin); lia.
  - change (first_bp (insert_head st2 q)) with (first_bp st). rewrite Hfree'.
    apply Permutation_cons_app. exact Hperm.
Qed.


(** ** The four cases of [coalesce] *)

Lemma pending_sub (st : state) (bs1 : list block) (s : Z) (bs2 : list block)
    (l : list Z) :
  pending st bs1 s bs2 l ->
  let bp := first_bp st + span bs1 in
  (forall x, In x l -> In x (free_bps (first_bp st) (bs1 ++ (s, 0) :: bs2))) /\
  In bp (free_bps (first_bp st) (bs1 ++ (s, 0) :: bs2)) /\
  ~ In bp l /\
  Permutation (bp :: l) (free_bps (first_bp st) (bs1 ++ (s, 0) :: bs2)).
Proof.
  intros [[Hlay Hl] Hperm] bp.
  pose proof (lay_ok _ _ Hlay) as Hok.
  apply Forall_app in Hok. destruct Hok as [Hok1 Hok].
  apply Forall_cons_iff in Hok. destruct Hok as [(Hs & _) Hok2].
  rewrite free_bps_app. cbn [free_bps fst snd Z.eqb]. fold bp.
  split; [|split; [|split]].
  - intros x Hx. apply (Permutation_in _ Hperm) in Hx.
    apply in_app_or in Hx. apply in_or_app. destruct Hx; [left|right; right]; auto.
  - apply in_or_app. right. left. reflexivity.
  - intros Hin. apply (Permutation_in _ Hperm) in Hin.
    apply in_app_or in Hin. destruct Hin as [Hin|Hin].
    + destruct (free_bps_range _ Hok1 _ _ Hin) as (_ & H & _).
      unfold bp, MINIMUMSIZE in *. lia.
    + destruct (free_bps_range _ Hok2 _ _ Hin) as (H & _).
      unfold bp, MINIMUMSIZE in *. cbn [fst] in *. lia.
  - apply Permutation_cons_app. exact Hperm.
Qed.

Lemma coalesce_none_free (st : state) (bs1 : list block) (s : Z)
    (bs2 : list block) (l : list Z) :
  pending st bs1 s bs2 l ->
  snd (last bs1 (OVERHEAD, 1)) = 1 -> snd (hd (0, 1) bs2) = 1 ->
  let bp := first_bp st + span bs1 in
  fst (coalesce st bp) = bp /\
  wf (snd (coalesce st bp)) (bs1 ++ (s, 0) :: bs2) (bp :: l).
Proof.
  intros Hpend Hprev Hnext bp.
  destruct (pending_sub _ _ _ _ _ Hpend) as (Hsub & Hbp & Hnin & Hperm).
  destruct Hpend as [[Hlay Hl] _].
  destruct (layout_reads _ _ _ _ Hlay) as
    (_ & _ & _ & _ & _ & _ & _ & Epa & _ & _ & _ & Ena).
  fold bp in Epa, Ena, Hbp, Hnin, Hperm.
  unfold coalesce. rewrite Epa, Ena, Hprev, Hnext. cbn [Z.eqb negb andb fst snd].
  split; [reflexivity|]. split.
  - apply insert_head_ok; auto. split; auto.
  - exact Hperm.
Qed.

Lemma coalesce_next_free (st : state) (bs1 : list block) (s sn : Z)
    (bs2 : list block) (l : list Z) :
  pending st bs1 s ((sn, 0) :: bs2) l ->
  snd (last bs1 (OVERHEAD, 1)) = 1 ->
  let bp := first_bp st + span bs1 in
  exists l1 l2,
    l = l1 ++ (bp + s) :: l2 /\
    fst (coalesce st bp) = bp /\
    wf (snd (coalesce st bp)) (bs1 ++ (s + sn, 0) :: bs2) (bp :: l1 ++ l2).
Proof.
  intros Hpend Hprev bp.
  destruct (pending_sub _ _ _ _ _ Hpend) as (Hsub & _).
  destruct Hpend as [[Hlay Hl] Hperm].
  destruct (layout_reads _ _ _ _ Hlay) as
    (_ & _ & Es & _ & En & _ & _ & Epa & _ & _ & Ens & Ena).
  destruct (layout_at _ _ _ _ Hlay) as (_ & Hlo & Hend & Hsp2 & Hbrk & _).
  pose proof (lay_ok _ _ Hlay) as Hok.
  apply Forall_app in Hok. destruct Hok as [Hok1 Hok].
  apply Forall_cons_iff in Hok. destruct Hok as [(Hs & _) Hok].
  apply Forall_cons_iff in Hok. destruct Hok as [(Hsn & _) Hok2].
  pose proof (span_bounds _ Hok2) as [Hsp2' _].
  fold bp in Es, En, Epa, Ens, Ena, Hlo, Hend. cbn [fst snd hd span] in *.
  fold bp in Hperm. cbn [free_bps fst snd Z.eqb] in Hperm.
  assert (Hin : In (bp + s) l).
  { apply (Permutation_in _ (Permutation_sym Hperm)). apply in_or_app. right. left.
    reflexivity. }
  apply in_split in Hin. destruct Hin as (l1 & l2 & ->).
  exists l1, l2. split; [reflexivity|].
  assert (Hok1' : heap_ok (remove_node st (bp + s)) (bs1 ++ (s, 0) :: (sn, 0) :: bs2)
                    (l1 ++ l2)).
  { apply remove_node_ok; [split; assumption|exact Hsub]. }
  destruct (remove_node_fields st (bp + s)) as (Elo & _).
  assert (Efb : first_bp (remove_node st (bp + s)) = first_bp st).
  { unfold first_bp. rewrite Elo. reflexivity. }
  pose proof (merge_insert (remove_node st (bp + s)) bs1 [(s, 0); (sn, 0)] bs2
                (l1 ++ l2)) as Hmerge.
  cbn zeta in Hmerge. rewrite Efb in Hmerge. fold bp in Hmerge.
  cbn [span fst app] in Hmerge. rewrite Z.add_0_r in Hmerge.
  pose proof (lay_lo _ _ Hlay) as Hlo0.
  unfold coalesce. rewrite Epa, Ena, Hprev, Ens, En, Es.
  cbn [Z.eqb negb andb fst snd].
  unfold MINIMUMSIZE, DSIZE in *.
  rewrite (wrap64_small (s + sn)) by lia.
  split; [reflexivity|].
  apply Hmerge; [exact Hok1'|discriminate|].
  apply (Permutation_app_inv l1 l2 _ _ (bp + s)).
  rewrite Z.add_assoc. exact Hperm.
Qed.


Lemma coalesce_prev_free (st : state) (bs1 : list block) (sp s : Z)
    (bs2 : list block) (l : list Z) :
  pending st (bs1 ++ [(sp, 0)]) s bs2 l ->
  snd (hd (0, 1) bs2) = 1 ->
  let q := first_bp st + span bs1 in
  exists l1 l2,
    l = l1 ++ q :: l2 /\
    fst (coalesce st (q + sp)) = q /\
    wf (snd (coalesce st (q + sp))) (bs1 ++ (sp + s, 0) :: bs2) (q :: l1 ++ l2).
Proof.
  intros Hpend Hnext q.
  destruct (pending_sub _ _ _ _ _ Hpend) as (Hsub & _).
  destruct Hpend as [[Hlay Hl] Hperm].
  assert (Ebp : first_bp st + span (bs1 ++ [(sp, 0)]) = q + sp).
  { rewrite span_app. cbn [span fst]. unfold q. lia. }
  destruct (layout_reads _ _ _ _ Hlay) as
    (_ & _ & Es & _ & _ & _ & _ & Epa & Ep & _ & _ & Ena).
  rewrite Ebp, ?last_last in *. cbn [fst snd] in *.
  replace (q + sp - sp) with q in Ep by lia.
  rewrite <- app_assoc in Hlay, Hsub. cbn [app] in Hlay, Hsub.
  destruct (layout_reads _ _ _ _ Hlay) as (_ & _ & Esp & _).
  destruct (layout_at _ _ _ _ Hlay) as (_ & Hlo & Hend & Hsp2 & Hbrk & _).
  pose proof (lay_lo _ _ Hlay) as Hlo0.
  pose proof (lay_ok _ _ Hlay) as Hok.
  apply Forall_app in Hok. destruct Hok as [Hok1 Hok].
  apply Forall_cons_iff in Hok. destruct Hok as [(Hsp & _) Hok].
  apply Forall_cons_iff in Hok. destruct Hok as [(Hs & _) Hok2].
  pose proof (span_bounds _ Hok2) as [Hsp2' _].
  fold q in Esp, Hlo, Hend. cbn [fst snd hd span] in *.
  rewrite free_bps_app in Hperm. cbn [free_bps fst snd Z.eqb] in Hperm.
  fold q in Hperm. rewrite <- app_assoc in Hperm. cbn [app] in Hperm.
  assert (Hin : In q l).
  { apply (Permutation_in _ (Permutation_sym Hperm)). apply in_or_app. right. left.
    reflexivity. }
  apply in_split in Hin. destruct Hin as (l1 & l2 & ->).
  exists l1, l2. split; [reflexivity|].
  assert (Hok1' : heap_ok (remove_node st q) (bs1 ++ (sp, 0) :: (s, 0) :: bs2)
                    (l1 ++ l2)).
  { apply remove_node_ok; [split; assumption|exact Hsub]. }
  destruct (remove_node_fields st q) as (Elo & _).
  assert (Efb : first_bp (remove_node st q) = first_bp st).
  { unfold first_bp. rewrite Elo. reflexivity. }
  pose proof (merge_insert (remove_node st q) bs1 [(sp, 0); (s, 0)] bs2
                (l1 ++ l2)) as Hmerge.
  cbn zeta in Hmerge. rewrite Efb in Hmerge. fold q in Hmerge.
  cbn [span fst app] in Hmerge. rewrite Z.add_0_r in Hmerge.
  unfold coalesce. rewrite Epa, Ena, Hnext, Ep, Esp, Es.
  cbn [Z.eqb negb andb fst snd].
  unfold MINIMUMSIZE, DSIZE in *.
  rewrite (wrap64_small (s + sp)) by lia. rewrite (Z.add_comm s sp).
  split; [reflexivity|].
  apply Hmerge; [exact Hok1'|discriminate|].
  apply (Permutation_app_inv l1 l2 _ _ q).
  replace (q + (sp + s)) with (q + sp + s) by lia. exact Hperm.
Qed.

Lemma coalesce_both_free (st : state) (bs1 : list block) (sp s sn : Z)
    (bs2 : list block) (l : list Z) :
  pending st (bs1 ++ [(sp, 0)]) s ((sn, 0) :: bs2) l ->
  let q := first_bp st + span bs1 in
  exists l1 l2 l3,
    Permutation l (q :: (q + sp + s) :: l3) /\
    l = l1 ++ q :: l2 /\
    (exists l4 l5, l1 ++ l2 = l4 ++ (q + sp + s) :: l5 /\ l3 = l4 ++ l5) /\
    fst (coalesce st (q + sp)) = q /\
    wf (snd (coalesce st (q + sp))) (bs1 ++ (sp + s + sn, 0) :: bs2) (q :: l3).
Proof.
  intros Hpend q.
  destruct (pending_sub _ _ _ _ _ Hpend) as (Hsub & _).
  destruct Hpend as [[Hlay Hl] Hperm].
  assert (Ebp : first_bp st + span (bs1 ++ [(sp, 0)]) = q + sp).
  { rewrite span_app. cbn [span fst]. unfold q. lia. }
  destruct (layout_reads _ _ _ _ Hlay) as
    (_ & _ & Es & _ & En & _ & Eps & Epa & Ep & _ & Ens & Ena).
  rewrite Ebp, ?last_last in *. cbn [fst snd hd] in *.
  replace (q + sp - sp) with q in Ep by lia.
  rewrite <- app_assoc in Hlay, Hsub. cbn [app] in Hlay, Hsub.
  destruct (layout_reads _ _ _ _ Hlay) as (_ & _ & Esp & _).
  destruct (layout_at _ _ _ _ Hlay) as (_ & Hlo & Hend & Hsp2 & Hbrk & _).
  pose proof (lay_lo _ _ Hlay) as Hlo0.
  pose proof (lay_ok _ _ Hlay) as Hok.
  apply Forall_app in Hok. destruct Hok as [Hok1 Hok].
  apply Forall_cons_iff in Hok. destruct Hok as [(Hsp & _) Hok].
  apply Forall_cons_iff in Hok. destruct Hok as [(Hs & _) Hok].
  apply Forall_cons_iff in Hok. destruct Hok as [(Hsn & _) Hok2].
  pose proof (span_bounds _ Hok2) as [Hsp2' _].
  fold q in Esp, Hlo, Hend. cbn [fst snd hd span] in *.
  rewrite free_bps_app in Hperm. cbn [free_bps fst snd Z.eqb] in Hperm.
  fold q in Hperm. rewrite <- app_assoc in Hperm. cbn [app] in Hperm.
  assert (Hin : In q l).
  { apply (Permutation_in _ (Permutation_sym Hperm)). apply in_or_app. right. left.
    reflexivity. }
  apply in_split in Hin. destruct Hin as (l1 & l2 & ->).
  assert (Hperm1 : Permutation (l1 ++ l2)
                     (free_bps (first_bp st) bs1 ++
                      (q + sp + s) :: free_bps (q + sp + s + sn) bs2)).
  { apply (Permutation_app_inv l1 l2 _ _ q). exact Hperm. }
  assert (Hin : In (q + sp + s) (l1 ++ l2)).
  { apply (Permutation_in _ (Permutation_sym Hperm1)). apply in_or_app. right. left.
    reflexivity. }
  apply in_split in Hin. destruct Hin as (l4 & l5 & E45).
  exists l1, l2, (l4 ++ l5).
  split.
  { apply Permutation_sym. apply Permutation_cons_app. rewrite E45.
    apply Permutation_cons_app. reflexivity. }
  split; [reflexivity|]. split; [exists l4, l5; auto|].
  assert (Hok1' : heap_ok (remove_node st q)
                    (bs1 ++ (sp, 0) :: (s, 0) :: (sn, 0) :: bs2) (l1 ++ l2)).
  { apply remove_node_ok; [split; assumption|exact Hsub]. }
  destruct (remove_node_fields st q) as (Elo & _).
  assert (Efb : first_bp (remove_node st q) = first_bp st).
  { unfold first_bp. rewrite Elo. reflexivity. }
  (* the reads of the second removal happen in the state after the first *)
  destruct Hok1' as [Hlay1 Hl1].
  assert (Hlay1' : layout (remove_node st q)
                     ((bs1 ++ [(sp, 0)]) ++ (s, 0) :: (sn, 0) :: bs2)).
  { rewrite <- app_assoc. exact Hlay1. }
  destruct (layout_reads _ _ _ _ Hlay1') as (_ & _ & _ & _ & En1 & _).
  rewrite Efb, Ebp in En1. cbn [fst] in En1.
  rewrite E45 in Hl1.
  assert (Hok2' : heap_ok (remove_node (remove_node st q) (q + sp + s))
                    (bs1 ++ (sp, 0) :: (s, 0) :: (sn, 0) :: bs2) (l4 ++ l5)).
  { apply remove_node_ok; [split; assumption|].
    intros y Hy. rewrite Efb. apply Hsub. rewrite <- E45 in Hy.
    apply in_app_or in Hy. apply in_or_app. destruct Hy; [left|right; right]; auto. }
  destruct (remove_node_fields (remove_node st q) (q + sp + s)) as (Elo2 & _).
  assert (Efb2 : first_bp (remove_node (remove_node st q) (q + sp + s)) = first_bp st).
  { unfold first_bp. rewrite Elo2, Elo. reflexivity. }
  destruct Hok2' as [Hlay2 Hl2].
  assert (Hlay2' : layout (remove_node (remove_node st q) (q + sp + s))
                     ((bs1 ++ [(sp, 0)]) ++ (s, 0) :: (sn, 0) :: bs2)).
  { rewrite <- app_assoc. exact Hlay2. }
  destruct (layout_reads _ _ _ _ Hlay2') as (_ & _ & _ & _ & _ & _ & _ & _ & Ep2 & _).
  rewrite Efb2, Ebp, last_last in Ep2. cbn [fst] in Ep2.
  replace (q + sp - sp) with q in Ep2 by lia.
  pose proof (merge_insert (remove_node (remove_node st q) (q + sp + s)) bs1
                [(sp, 0); (s, 0); (sn, 0)] bs2 (l4 ++ l5)) as Hmerge.
  cbn zeta in Hmerge. rewrite Efb2 in Hmerge. fold q in Hmerge.
  cbn [span fst app] in Hmerge. rewrite Z.add_0_r in Hmerge.
  unfold coalesce. rewrite Epa, Ena, Ep, Esp, Ens, Es, En, En1, Ep2.
  cbn [Z.eqb negb andb fst snd].
  unfold MINIMUMSIZE, DSIZE in *.
  rewrite (wrap64_small (sp + sn)) by lia.
  rewrite (wrap64_small (s + (sp + sn))) by lia.
  replace (s + (sp + sn)) with (sp + (s + sn)) by lia.
  replace (sp + s + sn) with (sp + (s + sn)) by lia.
  split; [reflexivity|].
  apply Hmerge; [split; assumption|discriminate|].
  apply (Permutation_app_inv l4 l5 _ _ (q + sp + s)).
  rewrite <- E45.
  replace (q + (sp + (s + sn))) with (q + sp + s + sn) by lia. exact Hperm1.
Qed.


(** ** Extending the heap *)

Lemma extend_heap_size (words : Z) :
  0 <= words -> extend_size words < 2 ^ 64 ->
  (if words mod 2 =? 1 then wrap64 (wrap64 (words * WSIZE) + WSIZE)
   else wrap64 (words * WSIZE)) = extend_size words.
Proof.
  intros Hw Hs. unfold extend_size, WSIZE in *.
  destruct (words mod 2 =? 1).
  - rewrite (wrap64_small (words * 8)) by lia. apply wrap64_small. lia.
  - apply wrap64_small. lia.
Qed.

Lemma extend_size_even (words : Z) :
  0 <= words -> extend_size words mod DSIZE = 0 /\ words * WSIZE <= extend_size words.
Proof.
  intros Hw. unfold extend_size, WSIZE, DSIZE.
  destruct (Z.eqb_spec (words mod 2) 1); Z.div_mod_to_equations; lia.
Qed.

(** The state handed to [coalesce] by [extend_heap]. *)
Lemma extend_heap_pending (st : state) (bs : list block) (l : list Z) (size : Z) :
  heap_ok st bs l -> Permutation l (free_bps (first_bp st) bs) ->
  MINIMUMSIZE <= size -> size mod DSIZE = 0 ->
  mem_brk st + size <= mem_max st ->
  let bp := mem_brk st in
  let st1 := mkState (mem st) (heap_start st) (heap_lo st) (mem_brk st + size)
                     (mem_max st) in
  let st2 := PUT st1 (HDRP bp) (PACK size 0) in
  let st3 := PUT st2 (FTRP st2 bp) (PACK size 0) in
  let st4 := PUT st3 (HDRP (NEXT_BLKP st3 bp)) (PACK 0 1) in
  bp = first_bp st4 + span bs /\ pending st4 bs size [] l.
Proof.
  intros [Hlay Hl] Hperm Hsz Hsm Hfit bp st1 st2 st3 st4.
  destruct Hlay as [Hlo Hbrk [Hmax1 Hmax2] Hok Hph Hpf Hb He].
  pose proof (span_bounds _ Hok) as [Hsp _].
  unfold first_bp, MINIMUMSIZE, DSIZE, WSIZE in *.
  assert (E1 : HDRP bp = bp - 8).
  { unfold HDRP, PSUB, WSIZE. apply wrap64_small. unfold bp. lia. }
  assert (E2 : FTRP st2 bp = bp + size - 16).
  { unfold FTRP. rewrite E1. rewrite (GET_SIZE_PACK st2 (bp - 8) size 0); try lia.
    - unfold PADD, DSIZE. rewrite (wrap64_small (size - 16)) by lia.
      rewrite wrap64_small by (unfold bp; lia). lia.
    - unfold st2. rewrite E1. cbn [mem PUT set_mem]. apply upd_eq. }
  assert (E3 : HDRP (NEXT_BLKP st3 bp) = bp + size - 8).
  { unfold NEXT_BLKP. rewrite E1. rewrite (GET_SIZE_PACK st3 (bp - 8) size 0); try lia.
    - unfold HDRP, PSUB, PADD, WSIZE. rewrite (wrap64_small (bp + size)) by (unfold bp; lia).
      apply wrap64_small. unfold bp. lia.
    - unfold st3. rewrite E2. unfold st2. rewrite E1. cbn [mem PUT set_mem].
      rewrite upd_neq by lia. apply upd_eq. }
  assert (Em : forall c, mem st4 c =
                 if c =? bp + size - 8 then PACK 0 1
                 else if c =? bp + size - 16 then PACK size 0
                 else if c =? bp - 8 then PACK size 0 else mem st c).
  { intros c. unfold st4. rewrite E3. unfold st3. rewrite E2. unfold st2. rewrite E1.
    reflexivity. }
  assert (Hnodes : Forall (node_ok st) l).
  { apply Forall_forall. intros x Hx.
    apply (layout_node_ok st bs); [constructor; auto|].
    apply (Permutation_in _ Hperm Hx). }
  assert (Hrange : forall x, In x l -> x + 32 <= bp).
  { intros x Hx. apply (Permutation_in _ Hperm) in Hx.
    destruct (free_bps_range _ Hok _ _ Hx) as (_ & H & _).
    unfold bp, first_bp, MINIMUMSIZE, DSIZE in *. lia. }
  split.
  { unfold first_bp. change (heap_lo st4) with (heap_lo st). unfold bp, DSIZE. lia. }
  split; [split|].
  - constructor; unfold first_bp;
      change (heap_lo st4) with (heap_lo st);
      change (mem_brk st4) with (mem_brk st + size);
      change (mem_max st4) with (mem_max st);
      unfold WSIZE, DSIZE, OVERHEAD; auto.
    + rewrite span_app. cbn [span fst]. lia.
    + apply Forall_app. split; [auto|]. constructor; [|constructor].
      unfold block_ok, MINIMUMSIZE, DSIZE. cbn [fst snd]. auto.
    + rewrite Em.
      destruct (Z.eqb_spec (heap_lo st + 8) (bp + size - 8)); [unfold bp in *; lia|].
      destruct (Z.eqb_spec (heap_lo st + 8) (bp + size - 16)); [unfold bp in *; lia|].
      destruct (Z.eqb_spec (heap_lo st + 8) (bp - 8)); [unfold bp in *; lia|]. auto.
    + rewrite Em.
      destruct (Z.eqb_spec (heap_lo st + 16) (bp + size - 8)); [unfold bp in *; lia|].
      destruct (Z.eqb_spec (heap_lo st + 16) (bp + size - 16)); [unfold bp in *; lia|].
      destruct (Z.eqb_spec (heap_lo st + 16) (bp - 8)); [unfold bp in *; lia|]. auto.
    + apply blocks_at_app. split.
      * revert Hb. apply blocks_at_agree; auto. intros c Hc. rewrite Em.
        unfold WSIZE, DSIZE in Hc.
        destruct (Z.eqb_spec c (bp + size - 8)); [unfold bp in *; lia|].
        destruct (Z.eqb_spec c (bp + size - 16)); [unfold bp in *; lia|].
        destruct (Z.eqb_spec c (bp - 8)); [unfold bp in *; lia|]. auto.
      * cbn [blocks_at fst snd]. unfold WSIZE, DSIZE. rewrite !Em.
        replace (heap_lo st + 2 * 16 + span bs) with bp by (unfold bp; lia).
        destruct (Z.eqb_spec (bp - 8) (bp + size - 8)); [lia|].
        destruct (Z.eqb_spec (bp - 8) (bp + size - 16)); [lia|].
        destruct (Z.eqb_spec (bp + size - 16) (bp + size - 8)); [lia|].
        rewrite !Z.eqb_refl. auto.
    + rewrite Em.
      replace (mem_brk st + size - 8) with (bp + size - 8) by (unfold bp; lia).
      rewrite Z.eqb_refl. reflexivity.
  - change (heap_start st4) with (heap_start st).
    unfold st4. rewrite E3. apply free_list_PUT; auto.
    { intros x Hx. pose proof (Hrange x Hx). unfold WSIZE. lia. }
    unfold st3. rewrite E2. apply free_list_PUT; auto.
    { intros x Hx. pose proof (Hrange x Hx). unfold WSIZE. lia. }
    unfold st2. rewrite E1. apply free_list_PUT; auto.
    { intros x Hx. pose proof (Hrange x Hx). unfold WSIZE. lia. }
    revert Hl. apply free_list_frame; [reflexivity|]. auto.
  - cbn [free_bps]. rewrite app_nil_r. exact Hperm.
Qed.


Lemma coalesce_fields (st : state) (bp : Z) :
  heap_lo (snd (coalesce st bp)) = heap_lo st /\
  mem_brk (snd (coalesce st bp)) = mem_brk st /\
  mem_max (snd (coalesce st bp)) = mem_max st.
Proof.
  unfold coalesce.
  repeat match goal with
         | |- context [if ?c then _ else _] => destruct c
         end;
    cbn [snd insert_head set_heap_start set_PREV_FREE set_NEXT_FREE PUT set_mem
         heap_lo mem_brk mem_max];
    repeat match goal with
           | |- context [remove_node ?s ?x] =>
               let H := fresh in
               pose proof (remove_node_fields s x) as H;
               destruct H as (-> & -> & ->)
           end;
    auto.
Qed.

Lemma flag_cases (bs : list block) (d : block) (b : block) :
  Forall block_ok bs -> snd d = 1 -> (b = d \/ In b bs) -> snd b = 0 \/ snd b = 1.
Proof.
  intros Hok Hd [->|Hin]; [auto|].
  rewrite Forall_forall in Hok. destruct (Hok b Hin) as (_ & _ & H). exact H.
Qed.

Lemma last_default_or_in {A : Type} (l : list A) (d : A) :
  last l d = d \/ In (last l d) l.
Proof.
  destruct l as [|a l]; [left; reflexivity|right].
  destruct (exists_last (l := a :: l) ltac:(discriminate)) as (l' & x & E).
  rewrite E, last_last. apply in_or_app. right. left. reflexivity.
Qed.

Lemma hd_default_or_in {A : Type} (l : list A) (d : A) :
  hd d l = d \/ In (hd d l) l.
Proof. destruct l; [left|right; left]; reflexivity. Qed.

Lemma prev_free_split (bs1 : list block) :
  snd (last bs1 (OVERHEAD, 1)) = 0 ->
  bs1 = removelast bs1 ++ [(fst (last bs1 (OVERHEAD, 1)), 0)].
Proof.
  intros H. destruct bs1 as [|a bs1]; [discriminate|].
  assert (E : last (a :: bs1) (OVERHEAD, 1) =
              (fst (last (a :: bs1) (OVERHEAD, 1)), 0)).
  { destruct (last (a :: bs1) (OVERHEAD, 1)) as [x y].
    cbn [fst snd] in *. subst y. reflexivity. }
  rewrite <- E. apply app_removelast_last. discriminate.
Qed.

Lemma next_free_split (bs2 : list block) :
  snd (hd (0, 1) bs2) = 0 -> bs2 = (fst (hd (0, 1) bs2), 0) :: tl bs2.
Proof.
  intros H. destruct bs2 as [|[x y] bs2]; [discriminate|].
  cbn [hd fst snd tl] in *. subst y. reflexivity.
Qed.

Lemma head_once (st : state) (bs : list block) (l : list Z) (x : Z) :
  wf st bs (x :: l) -> count_occ Z.eq_dec (x :: l) x = 1%nat.
Proof.
  intros [[_ Hl] _]. apply free_list_NoDup in Hl.
  rewrite NoDup_count_occ' with (decA := Z.eq_dec) in Hl.
  apply Hl. left. reflexivity.
Qed.



(** ** Adjacent free blocks *)

Lemma naf_app (a : list block) (b : block) (c : list block) :
  no_adjacent_free (a ++ b :: c) <->
  no_adjacent_free a /\ no_adjacent_free (b :: c) /\
  (snd (last a (OVERHEAD, 1)) = 0 -> snd b <> 0).
Proof.
  induction a as [|x a IH].
  - cbn [app no_adjacent_free last snd]. intuition discriminate.
  - cbn [app no_adjacent_free]. rewrite IH.
    destruct a as [|y a].
    + cbn [app hd last no_adjacent_free snd]. intuition discriminate.
    + change (last (x :: y :: a) (OVERHEAD, 1)) with (last (y :: a) (OVERHEAD, 1)).
      cbn [app hd no_adjacent_free]. tauto.
Qed.

(** What the invariants need to know about [coalesce]. *)
Lemma coalesce_summary (st : state) (bs1 : list block) (s : Z)
    (bs2 : list block) (l : list Z) :
  pending st bs1 s bs2 l ->
  let bp' := fst (coalesce st (first_bp st + span bs1)) in
  let st' := snd (coalesce st (first_bp st + span bs1)) in
  exists bs1' S bs2' l',
    wf st' (bs1' ++ (S, 0) :: bs2') (bp' :: l') /\
    bp' = first_bp st + span bs1' /\ s <= S /\
    (bs2 = [] -> bs2' = []) /\
    (no_adjacent_free bs1 -> no_adjacent_free bs2 ->
     no_adjacent_free (bs1' ++ (S, 0) :: bs2')).
Proof.
  intros Hpend bp' st'.
  pose proof Hpend as [[Hlay _] _].
  pose proof (lay_ok _ _ Hlay) as Hok.
  apply Forall_app in Hok. destruct Hok as [Hok1 Hok2].
  apply Forall_cons_iff in Hok2. destruct Hok2 as [_ Hok2].
  assert (Hpf : snd (last bs1 (OVERHEAD, 1)) = 0 \/ snd (last bs1 (OVERHEAD, 1)) = 1).
  { apply (flag_cases bs1 (OVERHEAD, 1)); auto. apply last_default_or_in. }
  assert (Hnf : snd (hd (0, 1) bs2) = 0 \/ snd (hd (0, 1) bs2) = 1).
  { apply (flag_cases bs2 (0, 1)); auto. apply hd_default_or_in. }
  destruct Hpf as [Hp|Hp]; destruct Hnf as [Hn|Hn].
  - pose proof (prev_free_split bs1 Hp) as E1.
    pose proof (next_free_split bs2 Hn) as E2.
    set (sp := fst (last bs1 (OVERHEAD, 1))) in *.
    set (sn := fst (hd (0, 1) bs2)) in *.
    assert (Hsp : MINIMUMSIZE <= sp /\ MINIMUMSIZE <= sn).
    { rewrite E1 in Hok1. apply Forall_app in Hok1. destruct Hok1 as [_ H1].
      apply Forall_cons_iff in H1. destruct H1 as [(H1 & _) _].
      rewrite E2 in Hok2. apply Forall_cons_iff in Hok2. destruct Hok2 as [(H2 & _) _].
      auto. }
    assert (Ebp : first_bp st + span bs1 = first_bp st + span (removelast bs1) + sp).
    { rewrite E1 at 1. rewrite span_app. cbn [span fst]. lia. }
    rewrite E1, E2 in Hpend.
    destruct (coalesce_both_free _ _ _ _ _ _ _ Hpend)
      as (l1 & l2 & l3 & _ & _ & _ & Hfst & Hwf).
    rewrite <- Ebp in Hfst, Hwf. fold bp' in Hfst. fold st' in Hwf.
    exists (removelast bs1), (sp + s + sn), (tl bs2), l3.
    rewrite Hfst. split; [exact Hwf|]. split; [reflexivity|].
    unfold MINIMUMSIZE in *. split; [lia|]. split; [intros ->; discriminate|].
    intros N1 N2. rewrite E1 in N1. rewrite E2 in N2.
    apply naf_app in N1. destruct N1 as (N1 & _ & N1').
    cbn [no_adjacent_free hd snd] in N2. destruct N2 as [N2 N2'].
    apply naf_app. split; [exact N1|]. cbn [no_adjacent_free snd].
    split; [auto|]. intros H _. apply N1'; auto.
  - pose proof (prev_free_split bs1 Hp) as E1.
    set (sp := fst (last bs1 (OVERHEAD, 1))) in *.
    assert (Hsp : MINIMUMSIZE <= sp).
    { rewrite E1 in Hok1. apply Forall_app in Hok1. destruct Hok1 as [_ H1].
      apply Forall_cons_iff in H1. destruct H1 as [(H1 & _) _]. auto. }
    assert (Ebp : first_bp st + span bs1 = first_bp st + span (removelast bs1) + sp).
    { rewrite E1 at 1. rewrite span_app. cbn [span fst]. lia. }
    rewrite E1 in Hpend.
    destruct (coalesce_prev_free _ _ _ _ _ _ Hpend Hn) as (l1 & l2 & El & Hfst & Hwf).
    rewrite <- Ebp in Hfst, Hwf. fold bp' in Hfst. fold st' in Hwf.
    exists (removelast bs1), (sp + s), bs2, (l1 ++ l2).
    rewrite Hfst. split; [exact Hwf|]. split; [reflexivity|].
    unfold MINIMUMSIZE in *. split; [lia|]. split; [auto|].
    intros N1 N2. rewrite E1 in N1.
    apply naf_app in N1. destruct N1 as (N1 & _ & N1').
    apply naf_app. split; [exact N1|]. cbn [no_adjacent_free snd].
    split; [split; [intros _; lia|exact N2]|]. intros H _. apply N1'; auto.
  - pose proof (next_free_split bs2 Hn) as E2.
    set (sn := fst (hd (0, 1) bs2)) in *.
    assert (Hsn : MINIMUMSIZE <= sn).
    { rewrite E2 in Hok2. apply Forall_cons_iff in Hok2. destruct Hok2 as [(H2 & _) _].
      auto. }
    rewrite E2 in Hpend.
    destruct (coalesce_next_free _ _ _ _ _ _ Hpend Hp) as (l1 & l2 & El & Hfst & Hwf).
    fold bp' in Hfst. fold st' in Hwf.
    exists bs1, (s + sn), (tl bs2), (l1 ++ l2).
    rewrite Hfst. split; [exact Hwf|]. split; [reflexivity|].
    unfold MINIMUMSIZE in *. split; [lia|]. split; [intros ->; discriminate|].
    intros N1 N2. rewrite E2 in N2.
    cbn [no_adjacent_free hd snd] in N2. destruct N2 as [N2 N2'].
    apply naf_app. split; [exact N1|]. cbn [no_adjacent_free snd].
    split; [auto|]. intros H. lia.
  - destruct (coalesce_none_free _ _ _ _ _ Hpend Hp Hn) as (Hfst & Hwf).
    fold bp' in Hfst. fold st' in Hwf.
    exists bs1, s, bs2, l.
    rewrite Hfst. split; [exact Hwf|]. split; [reflexivity|].
    split; [lia|]. split; [auto|].
    intros N1 N2. apply naf_app. split; [exact N1|]. cbn [no_adjacent_free snd].
    split; [split; [intros _; lia|exact N2]|]. intros H. lia.
Qed.


Lemma extend_heap_fail (st : state) (words : Z) :
  0 <= words -> extend_size words < 2 ^ 64 ->
  mem_max st < mem_brk st + extend_size words ->
  extend_heap st words = (NULL, st).
Proof.
  intros Hw Hs Hmax. unfold extend_heap. rewrite (extend_heap_size words Hw Hs).
  unfold mem_sbrk. destruct (Z.leb_spec (mem_brk st + extend_size words) (mem_max st));
    [lia|reflexivity].
Qed.

Lemma extend_heap_coalesce (st : state) (words : Z) :
  0 <= words -> extend_size words < 2 ^ 64 ->
  mem_brk st + extend_size words <= mem_max st ->
  let size := extend_size words in
  let bp := mem_brk st in
  let st1 := mkState (mem st) (heap_start st) (heap_lo st) (mem_brk st + size)
                     (mem_max st) in
  let st2 := PUT st1 (HDRP bp) (PACK size 0) in
  let st3 := PUT st2 (FTRP st2 bp) (PACK size 0) in
  let st4 := PUT st3 (HDRP (NEXT_BLKP st3 bp)) (PACK 0 1) in
  extend_heap st words = coalesce st4 bp.
Proof.
  intros Hw Hs Hmax. cbn zeta. unfold extend_heap.
  rewrite (extend_heap_size words Hw Hs).
  unfold mem_sbrk. destruct (Z.leb_spec (mem_brk st + extend_size words) (mem_max st));
    [reflexivity|lia].
Qed.

Lemma extend_heap_ok (st : state) (bs : list block) (l : list Z) (words : Z) :
  wf st bs l ->
  0 <= words -> MINIMUMSIZE <= extend_size words ->
  mem_brk st + extend_size words <= mem_max st ->
  let bp' := fst (extend_heap st words) in
  let st' := snd (extend_heap st words) in
  exists bs1' S l',
    wf st' (bs1' ++ [(S, 0)]) (bp' :: l') /\
    bp' = first_bp st + span bs1' /\ extend_size words <= S /\
    heap_lo st' = heap_lo st /\ mem_max st' = mem_max st /\
    (no_adjacent_free bs -> no_adjacent_free (bs1' ++ [(S, 0)])).
Proof.
  intros [Hok Hperm] Hw Hsz Hmax bp' st'.
  assert (Hs64 : extend_size words < 2 ^ 64).
  { pose proof (lay_max _ _ (proj1 Hok)) as [_ H]. pose proof (lay_lo _ _ (proj1 Hok)).
    pose proof (lay_brk _ _ (proj1 Hok)) as B.
    pose proof (span_bounds _ (lay_ok _ _ (proj1 Hok))) as [? _].
    unfold first_bp, DSIZE in B. lia. }
  pose proof (extend_heap_coalesce st words Hw Hs64 Hmax) as E. cbn zeta in E.
  destruct (extend_size_even words Hw) as [Hev _].
  destruct (extend_heap_pending st bs l (extend_size words) Hok Hperm Hsz Hev Hmax)
    as [Ebp Hpend].
  cbn zeta in Ebp, Hpend. unfold bp', st'. rewrite E.
  set (st4 := PUT _ _ (PACK 0 1)) in *.
  rewrite Ebp.
  destruct (coalesce_summary st4 bs (extend_size words) [] l Hpend)
    as (bs1' & S & bs2' & l' & Hwf & Hfst & HS & Hnil & Hnaf).
  rewrite (Hnil eq_refl) in *.
  exists bs1', S, l'.
  split; [exact Hwf|]. split; [exact Hfst|]. split; [exact HS|].
  destruct (coalesce_fields st4 (first_bp st4 + span bs)) as (-> & _ & ->).
  split; [reflexivity|]. split; [reflexivity|].
  intros N. apply Hnaf; [exact N|exact I].
Qed.

(** ** Initialisation *)

Lemma mm_init_fail_first (st : state) :
  mem_max st < mem_brk st + 4 * WSIZE ->
  mm_init st = (-1, set_heap_start st NULL).
Proof.
  intros H. unfold mm_init, mem_sbrk.
  destruct (Z.leb_spec (mem_brk st + 4 * WSIZE) (mem_max st)); [lia|reflexivity].
Qed.

(** The state in which [mm_init] calls [extend_heap]. *)
Lemma mm_init_extend (st : state) :
  mem_brk st + 4 * WSIZE <= mem_max st ->
  exists st1,
    mm_init st =
      (let (bp, st2) := extend_heap st1 (CHUNKSIZE / WSIZE) in
       if bp =? NULL then (-1, st2) else (0, st2)) /\
    mem_brk st1 = mem_brk st + 4 * WSIZE /\ mem_max st1 = mem_max st /\
    (fresh_source st -> wf st1 [] []).
Proof.
  intros H. unfold mm_init, mem_sbrk.
  destruct (Z.leb_spec (mem_brk st + 4 * WSIZE) (mem_max st)); [|lia].
  eexists. split; [reflexivity|]. split; [reflexivity|]. split; [reflexivity|].
  intros (Hlo & Hbrk & Hmax).
  cbn [heap_start set_heap_start PUT set_mem mem heap_lo mem_brk mem_max].
  unfold PADD, WSIZE, DSIZE in *.
  rewrite !wrap64_small by lia. rewrite Hbrk.
  split; [split|].
  - constructor; unfold first_bp;
      cbn [heap_start mem heap_lo mem_brk mem_max span PUT set_mem set_heap_start];
      unfold WSIZE, DSIZE; try lia.
    + constructor.
    + rewrite upd_neq by lia. rewrite upd_neq by lia. apply upd_eq.
    + rewrite upd_neq by lia. apply upd_eq.
    + exact I.
    + replace (heap_lo st + 4 * 8 - 8) with (heap_lo st + (8 + 16)) by lia. apply upd_eq.
  - reflexivity.
  - reflexivity.
Qed.

Lemma mm_init_ok (st : state) :
  fresh_source st ->
  heap_lo st + 4 * WSIZE + CHUNKSIZE <= mem_max st ->
  fst (mm_init st) = 0 /\
  wf (snd (mm_init st)) [(CHUNKSIZE, 0)] [heap_lo st + 2 * DSIZE] /\
  heap_lo (snd (mm_init st)) = heap_lo st /\
  mem_max (snd (mm_init st)) = mem_max st.
Proof.
  intros Hfresh Hmax. pose proof Hfresh as (Hlo & Hbrk & Hmax2).
  change CHUNKSIZE with 4096 in *. unfold WSIZE in Hmax.
  destruct (mm_init_extend st) as (st1 & E & Hbrk1 & Hmax1 & Hwf);
    [unfold WSIZE; lia|].
  specialize (Hwf Hfresh). destruct Hwf as [Hok Hperm].
  rewrite E. change (CHUNKSIZE / WSIZE) with 512.
  assert (Hw : 0 <= 512) by lia.
  assert (Hfit : mem_brk st1 + extend_size 512 <= mem_max st1).
  { change (extend_size 512) with 4096. unfold WSIZE in *. lia. }
  rewrite (extend_heap_coalesce st1 512 Hw eq_refl Hfit). cbn zeta.
  change (extend_size 512) with 4096.
  destruct (extend_heap_pending st1 [] [] 4096 Hok Hperm) as [Ebp Hpend];
    try (unfold MINIMUMSIZE; lia); try reflexivity.
  { change (extend_size 512) with 4096 in Hfit. exact Hfit. }
  cbn zeta in Ebp, Hpend.
  set (st4 := PUT _ _ (PACK 0 1)) in *.
  assert (Elo : heap_lo st4 = heap_lo st).
  { pose proof (lay_brk _ _ (proj1 Hok)) as B. unfold first_bp in B. cbn [span] in B.
    change (heap_lo st4) with (heap_lo st1). unfold WSIZE, DSIZE in *. lia. }
  destruct (coalesce_none_free st4 [] 4096 [] [] Hpend eq_refl eq_refl) as [Hfst Hwf].
  cbn [span app] in Hfst, Hwf, Ebp. rewrite <- Ebp in Hfst, Hwf.
  destruct (coalesce_fields st4 (mem_brk st1)) as (Elo' & _ & Emax').
  destruct (coalesce st4 (mem_brk st1)) as [bp st5]. cbn [fst snd] in *.
  assert (Hbp : bp = heap_lo st + 2 * DSIZE).
  { rewrite Hfst, Hbrk1, Hbrk. unfold WSIZE, DSIZE. lia. }
  destruct (Z.eqb_spec bp NULL) as [E0|_].
  { unfold NULL, DSIZE in *. lia. }
  cbn [fst snd]. split; [reflexivity|]. split.
  - rewrite <- Hbp, Hfst. exact Hwf.
  - split; [congruence|]. rewrite Emax'. change (mem_max st4) with (mem_max st1).
    exact Hmax1.
Qed.

(** ** First fit *)

Lemma find_fit_from_first_fit (st : state) (asize : Z) (l : list Z) :
  forall cur fuel,
    next_chain st cur l -> (length l < fuel)%nat ->
    exists r,
      find_fit_from fuel st asize cur = Some r /\
      ((exists l1 l2,
           l = l1 ++ r :: l2 /\ asize <= GET_SIZE st (HDRP r) /\
           Forall (fun y => GET_SIZE st (HDRP y) < asize) l1)
       \/ (r = NULL /\ Forall (fun y => GET_SIZE st (HDRP y) < asize) l)).
Proof.
  induction l as [|x l IH]; intros cur fuel Hc Hf.
  - cbn in Hc. destruct fuel as [|fuel]; [cbn in Hf; lia|].
    cbn [find_fit_from]. rewrite Hc, Z.eqb_refl.
    exists NULL. split; [reflexivity|]. right. split; [reflexivity|constructor].
  - cbn [next_chain] in Hc. destruct Hc as (-> & Hx & Hc).
    destruct fuel as [|fuel]; [cbn in Hf; lia|].
    cbn [find_fit_from].
    destruct (Z.eqb_spec x (mem_heap_lo st)) as [E|_]; [contradiction|].
    destruct (Z.leb_spec asize (GET_SIZE st (HDRP x))) as [Hfit|Hsmall].
    + exists x. split; [reflexivity|]. left. exists [], l. repeat split; auto.
    + cbn [length] in Hf.
      destruct (IH _ fuel Hc ltac:(lia)) as (r & Hr & Hcases).
      exists r. split; [exact Hr|].
      destruct Hcases as [(l1 & l2 & -> & Hfit & Hall)|(-> & Hall)].
      * left. exists (x :: l1), l2. repeat split; auto.
      * right. split; [reflexivity|]. constructor; auto.
Qed.

(** ** The adjusted size *)

(** Below the overflow the adjusted size is as the source comments say. *)
Lemma adjusted_size_in_range (size : Z) :
  0 < size -> size + OVERHEAD + (DSIZE - 1) < 2 ^ 64 ->
  adjusted_size size =
    (if size <=? DSIZE then DSIZE + OVERHEAD
     else DSIZE * ((size + OVERHEAD + (DSIZE - 1)) / DSIZE)) /\
  adjusted_size size mod DSIZE = 0 /\
  MINIMUMSIZE <= adjusted_size size /\
  size + OVERHEAD <= adjusted_size size <= size + OVERHEAD + (DSIZE - 1).
Proof.
  unfold adjusted_size, OVERHEAD, DSIZE, MINIMUMSIZE. intros Hs Hb.
  destruct (Z.leb_spec size 16).
  - split; [reflexivity|]. split; [reflexivity|]. lia.
  - rewrite (wrap64_small (size + 16)) by lia.
    rewrite (wrap64_small (size + 16 + (16 - 1))) by lia.
    assert (H16 : 0 <= 16 * ((size + 16 + (16 - 1)) / 16) <= size + 16 + (16 - 1)).
    { Z.div_mod_to_equations. lia. }
    rewrite wrap64_small by lia.
    split; [reflexivity|]. Z.div_mod_to_equations. lia.
Qed.

(** ** Free-list states *)

Lemma list_state_inv (st : state) (l : list Z) :
  list_state st l ->
  0 < heap_lo st /\ Forall (node_ok st) l /\ free_list st NULL (heap_start st) l.
Proof.
  induction 1 as [st Hlo Hhd|st l bp _ (Hlo & Hok & Hl) Hbp Hnin
                 |st l1 x l2 _ (Hlo & Hok & Hl)|st l a v _ (Hlo & Hok & Hl) Ha].
  - split; [exact Hlo|]. split; [constructor|exact Hhd].
  - split; [exact Hlo|]. split.
    + constructor; [exact Hbp|exact Hok].
    + apply insert_head_list; assumption.
  - destruct (remove_node_fields st x) as (Elo & _).
    split; [rewrite Elo; exact Hlo|]. split.
    + apply Forall_app in Hok. destruct Hok as [H1 H2].
      apply Forall_cons_iff in H2. destruct H2 as [_ H2].
      apply Forall_app. split; [revert H1|revert H2]; apply Forall_impl;
        intros y Hy; unfold node_ok; rewrite Elo; exact Hy.
    + apply (remove_node_list st x l1 l2 Hlo Hl Hok).
  - split; [exact Hlo|]. split; [exact Hok|].
    apply free_list_PUT; assumption.
Qed.

Lemma free_list_next_not_null (st : state) (l : list Z) :
  0 < heap_lo st -> Forall (node_ok st) l ->
  forall prev cur, free_list st prev cur l ->
                   forall x, In x l -> NEXT_FREE st x <> NULL.
Proof.
  intros Hlo. induction 1 as [|y l Hy Hok IH]; intros prev cur Hl x Hx;
    [contradiction|].
  cbn [free_list] in Hl. destruct Hl as (_ & _ & _ & Hl).
  destruct Hx as [<-|Hx]; [|eapply IH; eauto].
  rewrite (free_list_hd _ _ _ _ Hl). unfold NULL.
  destruct l as [|z l]; cbn [hd]; [lia|].
  apply Forall_cons_iff in Hok. destruct Hok as [(Hz & _) _]. lia.
Qed.

(** ** The memory source *)

Lemma mem_sbrk_fits (st : state) (n : Z) :
  mem_brk st + n <= mem_max st ->
  mem_sbrk st n =
    Some (mem_brk st,
          mkState (mem st) (heap_start st) (heap_lo st) (mem_brk st + n) (mem_max st)).
Proof.
  intros H. unfold mem_sbrk.
  destruct (Z.leb_spec (mem_brk st + n) (mem_max st)); [reflexivity|lia].
Qed.

Lemma mem_sbrk_none (st : state) (n : Z) :
  mem_sbrk st n = None <-> mem_max st < mem_brk st + n.
Proof.
  unfold mem_sbrk.
  destruct (Z.leb_spec (mem_brk st + n) (mem_max st)); split;
    try discriminate; try lia; reflexivity.
Qed.


(** ** Freeing a block *)

Lemma free_bps_split (bs : list block) :
  forall p x, In x (free_bps p bs) ->
              exists bs1 s bs2, bs = bs1 ++ (s, 0) :: bs2 /\ x = p + span bs1.
Proof.
  induction bs as [|[s a] bs IH]; intros p x; cbn [free_bps fst snd]; [contradiction|].
  assert (Htl : In x (free_bps (p + s) bs) ->
                exists bs1 s' bs2, (s, a) :: bs = bs1 ++ (s', 0) :: bs2 /\
                                   x = p + span bs1).
  { intros Hin. destruct (IH _ _ Hin) as (bs1 & s' & bs2 & -> & ->).
    exists ((s, a) :: bs1), s', bs2. cbn [app span fst]. split; [reflexivity|lia]. }
  destruct (Z.eqb_spec a 0) as [->|_]; [|exact Htl].
  intros [<-|Hin]; [|auto].
  exists [], s, bs. cbn [app span]. split; [reflexivity|lia].
Qed.

(** The state in which [mm_free] calls [coalesce]. *)
Lemma mm_free_pending (st : state) (bs1 : list block) (s : Z) (bs2 : list block)
    (l : list Z) :
  wf st (bs1 ++ (s, 1) :: bs2) l ->
  let bp := first_bp st + span bs1 in
  let st1 := PUT st (HDRP bp) (PACK (GET_SIZE st (HDRP bp)) 0) in
  let st2 := PUT st1 (FTRP st1 bp) (PACK (GET_SIZE st (HDRP bp)) 0) in
  pending st2 bs1 s bs2 l.
Proof.
  intros [[Hlay Hl] Hperm] bp st1 st2.
  destruct (layout_reads _ _ _ _ Hlay) as (E1 & _ & Es & _).
  destruct (layout_at _ _ _ _ Hlay) as ((Hs & Hsm & _) & Hlo & Hend & Hsp2 & Hbrk & _).
  pose proof (lay_lo _ _ Hlay) as Hlo0.
  pose proof (lay_ok _ _ Hlay) as Hok.
  apply Forall_app in Hok. destruct Hok as [Hok1 Hok2].
  apply Forall_cons_iff in Hok2. destruct Hok2 as [_ Hok2].
  fold bp in E1, Es, Hlo, Hend. cbn [fst snd] in *. rewrite E1 in Es.
  unfold MINIMUMSIZE, DSIZE, WSIZE in *.
  assert (E2 : FTRP st1 bp = bp + s - 16).
  { unfold FTRP. rewrite E1. rewrite (GET_SIZE_PACK st1 (bp - 8) s 0); try lia.
    - unfold PADD, DSIZE. rewrite (wrap64_small (s - 16)) by lia.
      rewrite wrap64_small by lia. lia.
    - unfold st1. rewrite E1, Es. cbn [mem PUT set_mem]. apply upd_eq. }
  assert (Em : forall c, mem st2 c =
                 if c =? bp + s - 16 then PACK s 0
                 else if c =? bp - 8 then PACK s 0 else mem st c).
  { intros c. unfold st2. rewrite E2. unfold st1. rewrite E1, Es. reflexivity. }
  rewrite free_bps_app in Hperm. cbn [free_bps fst snd Z.eqb] in Hperm.
  fold bp in Hperm.
  assert (Hrange : forall x, In x l -> x + 32 <= bp \/ bp + s <= x).
  { intros x Hx. apply (Permutation_in _ Hperm) in Hx. apply in_app_or in Hx.
    destruct Hx as [Hin|Hin].
    - destruct (free_bps_range _ Hok1 _ _ Hin) as (_ & H & _).
      unfold MINIMUMSIZE in H. left. unfold bp. lia.
    - destruct (free_bps_range _ Hok2 _ _ Hin) as (H & _). right. lia. }
  assert (Hnodes : Forall (node_ok st) l).
  { apply Forall_forall. intros x Hx. apply (layout_node_ok st _ x Hlay).
    rewrite free_bps_app. cbn [free_bps fst snd Z.eqb]. fold bp.
    apply (Permutation_in _ Hperm Hx). }
  split; [split|].
  - change (bs1 ++ (s, 0) :: bs2) with (bs1 ++ [(s, 0)] ++ bs2).
    apply (layout_replace st st2 bs1 [(s, 1)] [(s, 0)] bs2 Hlay); try reflexivity.
    + constructor; [|constructor]. unfold block_ok, MINIMUMSIZE, DSIZE. cbn [fst snd].
      auto.
    + discriminate.
    + cbn [blocks_at fst snd]. fold bp. unfold WSIZE, DSIZE. rewrite !Em.
      rewrite Z.eqb_refl.
      destruct (Z.eqb_spec (bp - 8) (bp + s - 16)); [lia|]. rewrite Z.eqb_refl. auto.
    + fold bp. cbn [span fst]. unfold WSIZE, DSIZE. intros c Hc. rewrite Em.
      destruct (Z.eqb_spec c (bp + s - 16)); [lia|].
      destruct (Z.eqb_spec c (bp - 8)); [lia|]. reflexivity.
  - change (heap_start st2) with (heap_start st).
    unfold st2. rewrite E2. apply free_list_PUT; auto.
    { intros x Hx. destruct (Hrange x Hx); unfold WSIZE; lia. }
    unfold st1. rewrite E1. apply free_list_PUT; auto.
    intros x Hx. destruct (Hrange x Hx); unfold WSIZE; lia.
  - change (first_bp st2) with (first_bp st). fold bp. exact Hperm.
Qed.

(** [mm_free] of an allocated block keeps the invariant. *)
Lemma mm_free_inv (st : state) (bs1 : list block) (s : Z) (bs2 : list block)
    (l : list Z) :
  wf st (bs1 ++ (s, 1) :: bs2) l ->
  no_adjacent_free (bs1 ++ (s, 1) :: bs2) ->
  heap_inv (mm_free st (first_bp st + span bs1)) /\
  heap_lo (mm_free st (first_bp st + span bs1)) = heap_lo st /\
  mem_max (mm_free st (first_bp st + span bs1)) = mem_max st.
Proof.
  intros Hwf Hnaf.
  pose proof (mm_free_pending st bs1 s bs2 l Hwf) as Hpend. cbn zeta in Hpend.
  unfold mm_free. set (bp := first_bp st + span bs1) in *.
  set (st2 := PUT _ _ _) in *.
  change bp with (first_bp st2 + span bs1).
  destruct (coalesce_summary st2 bs1 s bs2 l Hpend)
    as (bs1' & S & bs2' & l' & Hwf' & _ & _ & _ & Hnaf').
  destruct (coalesce_fields st2 (first_bp st2 + span bs1)) as (Elo & _ & Emax).
  split; [|split; [exact Elo|exact Emax]].
  exists (bs1' ++ (S, 0) :: bs2'), (fst (coalesce st2 (first_bp st2 + span bs1)) :: l').
  split; [exact Hwf'|].
  apply naf_app in Hnaf. destruct Hnaf as (N1 & N2 & _).
  cbn [no_adjacent_free] in N2. destruct N2 as [_ N2]. auto.
Qed.


(** ** Placing a block *)

(** Replacing a run of blocks while links outside of it are written. *)
Lemma layout_replace_frame (st st' : state) (bs1 mid mid' bs2 : list block) :
  layout st (bs1 ++ mid ++ bs2) ->
  Forall block_ok mid' -> span mid' = span mid -> mid' <> [] ->
  heap_lo st' = heap_lo st -> mem_brk st' = mem_brk st -> mem_max st' = mem_max st ->
  blocks_at (mem st') (first_bp st + span bs1) mid' ->
  (forall c, c < first_bp st + span bs1 - WSIZE \/
             first_bp st + span bs1 + span mid - DSIZE < c ->
             mem st' c <> mem st c ->
             c = heap_lo st \/ link_cell (first_bp st) (bs1 ++ mid' ++ bs2) c) ->
  layout st' (bs1 ++ mid' ++ bs2).
Proof.
  intros Hlay Hok' Hsp Hne Elo Ebrk Emax Hmid Hout.
  set (q := first_bp st + span bs1) in *.
  set (inside := fun c => (q - WSIZE <=? c) && (c <=? q + span mid - DSIZE)).
  set (stv := set_mem st (fun c => if inside c then mem st' c else mem st c)).
  assert (Hin : forall c, inside c = true <->
                          q - WSIZE <= c <= q + span mid - DSIZE).
  { intros c. unfold inside. rewrite andb_true_iff, !Z.leb_le. tauto. }
  assert (Hlayv : layout stv (bs1 ++ mid' ++ bs2)).
  { apply (layout_replace st stv bs1 mid mid' bs2 Hlay); auto.
    - fold q.
      assert (Hposs : MINIMUMSIZE <= span mid').
      { destruct mid' as [|b mid']; [contradiction|].
        pose proof (span_cons_min b mid' Hok'). lia. }
      revert Hmid. apply blocks_at_agree; auto.
      intros c Hc. cbn [mem stv set_mem].
      destruct (inside c) eqn:E; [reflexivity|].
      assert (N : ~ (q - WSIZE <= c <= q + span mid - DSIZE)).
      { rewrite <- Hin, E. discriminate. }
      rewrite Hsp in Hc. lia.
    - fold q. intros c Hc. cbn [mem stv set_mem].
      destruct (inside c) eqn:E; [|reflexivity].
      apply Hin in E. lia. }
  apply (layout_frame stv st' _ Hlayv); auto.
  intros c N. cbn [mem stv set_mem] in N. change (heap_lo stv) with (heap_lo st).
  change (first_bp stv) with (first_bp st).
  destruct (inside c) eqn:E; [contradiction|].
  apply Hout; [|exact N].
  assert (N' : ~ (q - WSIZE <= c <= q + span mid - DSIZE)).
  { rewrite <- Hin, E. discriminate. }
  lia.
Qed.

Lemma to_int_small (z : Z) : 0 <= z < 2 ^ 31 -> to_int (wrap64 z) = z.
Proof.
  intros H. unfold to_int. rewrite wrap64_small by lia.
  rewrite Z.mod_small by lia. lia.
Qed.


(** The free block that [place] works on and the other nodes of the list. *)
Lemma place_setup (st : state) (bs1 : list block) (s : Z) (bs2 : list block)
    (l : list Z) :
  wf st (bs1 ++ (s, 0) :: bs2) l ->
  let bp := first_bp st + span bs1 in
  exists l1 l2,
    l = l1 ++ bp :: l2 /\
    Permutation (l1 ++ l2)
      (free_bps (first_bp st) bs1 ++ free_bps (bp + s) bs2) /\
    Forall (node_ok st) l /\
    (forall x, In x (l1 ++ l2) -> x + MINIMUMSIZE <= bp \/ bp + s <= x) /\
    (hd (heap_lo st) l2 + MINIMUMSIZE <= bp \/ bp + s <= hd (heap_lo st) l2) /\
    (hd (heap_lo st) (l1 ++ l2) + MINIMUMSIZE <= bp \/
     bp + s <= hd (heap_lo st) (l1 ++ l2)) /\
    (last l1 NULL = NULL \/
     last l1 NULL + MINIMUMSIZE <= bp \/ bp + s <= last l1 NULL).
Proof.
  intros [[Hlay Hl] Hperm] bp.
  destruct (layout_at _ _ _ _ Hlay) as ((Hs & _) & Hlo & _).
  pose proof (lay_ok _ _ Hlay) as Hok.
  apply Forall_app in Hok. destruct Hok as [Hok1 Hok2].
  apply Forall_cons_iff in Hok2. destruct Hok2 as [_ Hok2].
  fold bp in Hlo. cbn [fst] in Hs.
  assert (Hnodes : Forall (node_ok st) l).
  { apply Forall_forall. intros x Hx. apply (layout_node_ok st _ x Hlay).
    apply (Permutation_in _ Hperm Hx). }
  rewrite free_bps_app in Hperm. cbn [free_bps fst snd Z.eqb] in Hperm.
  fold bp in Hperm.
  assert (Hin : In bp l).
  { apply (Permutation_in _ (Permutation_sym Hperm)). apply in_or_app. right. left.
    reflexivity. }
  apply in_split in Hin. destruct Hin as (l1 & l2 & ->).
  apply Permutation_app_inv in Hperm.
  assert (Hrange : forall x, In x (l1 ++ l2) ->
                             x + MINIMUMSIZE <= bp \/ bp + s <= x).
  { intros x Hx. apply (Permutation_in _ Hperm) in Hx. apply in_app_or in Hx.
    destruct Hx as [Hin|Hin].
    - destruct (free_bps_range _ Hok1 _ _ Hin) as (_ & H & _). left. unfold bp. lia.
    - destruct (free_bps_range _ Hok2 _ _ Hin) as (H & _). right. lia. }
  exists l1, l2. split; [reflexivity|]. split; [exact Hperm|].
  split; [exact Hnodes|]. split; [exact Hrange|].
  unfold MINIMUMSIZE, DSIZE in *.
  split; [|split].
  - destruct (hd_default_or_in l2 (heap_lo st)) as [->|Hin]; [lia|].
    apply Hrange. apply in_or_app. right. exact Hin.
  - destruct (hd_default_or_in (l1 ++ l2) (heap_lo st)) as [->|Hin]; [lia|].
    apply Hrange. exact Hin.
  - destruct (last_default_or_in l1 NULL) as [E|Hin]; [left; exact E|right].
    apply Hrange. apply in_or_app. left. exact Hin.
Qed.

(** C2 where the remainder fits the [int]: the whole block is allocated when
    the remainder is below the minimum block size, and is split otherwise;
    the bytes covered stay the same. *)
Lemma place_inv (st : state) (bs1 : list block) (s : Z) (bs2 : list block)
    (l : list Z) (asize : Z) :
  wf st (bs1 ++ (s, 0) :: bs2) l ->
  MINIMUMSIZE <= asize <= s -> asize mod DSIZE = 0 -> s - asize < 2 ^ 31 ->
  let bp := first_bp st + span bs1 in
  let st' := place st bp asize in
  exists l1 l2,
    l = l1 ++ bp :: l2 /\
    heap_lo st' = heap_lo st /\ mem_max st' = mem_max st /\
    ((s - asize < MINIMUMSIZE /\
      wf st' (bs1 ++ (s, 1) :: bs2) (l1 ++ l2))
     \/
     (MINIMUMSIZE <= s - asize /\
      wf st' (bs1 ++ (asize, 1) :: (s - asize, 0) :: bs2)
         ((bp + asize) :: l1 ++ l2))).
Proof.
  intros Hwf Hasz Ham Hint bp st'.
  destruct (place_setup st bs1 s bs2 l Hwf)
    as (l1 & l2 & El & Hperm & Hnodes & Hrange & Hhd2 & Hhd12 & Hlast).
  fold bp in Hperm, Hrange, Hhd2, Hhd12, Hlast.
  destruct Hwf as [[Hlay Hl] _].
  destruct (layout_reads _ _ _ _ Hlay) as (E1 & _ & Es & _).
  destruct (layout_at _ _ _ _ Hlay) as ((Hs & Hsm & _) & Hlo & Hend & Hsp2 & Hbrk & _).
  pose proof (lay_lo _ _ Hlay) as Hlo0.
  pose proof (lay_ok _ _ Hlay) as Hok.
  apply Forall_app in Hok. destruct Hok as [Hok1 Hok2].
  apply Forall_cons_iff in Hok2. destruct Hok2 as [_ Hok2].
  fold bp in E1, Es, Hlo, Hend. cbn [fst snd] in *. rewrite E1 in Es.
  exists l1, l2. split; [exact El|]. subst l.
  unfold MINIMUMSIZE, DSIZE, WSIZE in *.
  assert (Hti : to_int (wrap64 (s - asize)) = s - asize) by (apply to_int_small; lia).
  assert (Hbpok : node_ok st bp).
  { rewrite Forall_forall in Hnodes. apply Hnodes, in_elt. }
  assert (Hfl : forall a v w,
            (a = bp - 8 \/ (bp + 16 <= a < bp + s - 8)) ->
            (w = bp - 8 \/ (bp + 16 <= w < bp + s - 8)) ->
            free_list (PUT (PUT st a v) w v) NULL (heap_start st) (l1 ++ bp :: l2)).
  { intros a v w Ha Hw.
    assert (Hall : forall x, In x (l1 ++ bp :: l2) ->
              x = bp \/ x + 32 <= bp \/ bp + s <= x).
    { intros x Hx. apply in_app_or in Hx. destruct Hx as [Hx|[Hx|Hx]];
        [right|left; auto|right]; apply Hrange; apply in_or_app; auto. }
    change (heap_start st) with (heap_start (PUT st a v)).
    apply free_list_PUT; auto.
    { intros x Hx. destruct (Hall x Hx) as [->|?]; unfold WSIZE; lia. }
    apply free_list_PUT; auto.
    intros x Hx. destruct (Hall x Hx) as [->|?]; unfold WSIZE; lia. }
  unfold st', place. rewrite E1, Es, Hti. unfold MINIMUMSIZE.
  destruct (Z.ltb_spec (s - asize) 32) as [Hsmall|Hbig].
  - (* the whole block *)
    set (st1 := PUT st (bp - 8) (PACK s 1)).
    assert (Es1 : GET_SIZE st1 (bp - 8) = s).
    { apply (GET_SIZE_PACK st1 _ s 1); try lia. cbn [mem st1 PUT set_mem]. apply upd_eq. }
    assert (E2 : FTRP st1 bp = bp + s - 16).
    { unfold FTRP. rewrite E1, Es1. unfold PADD, DSIZE.
      rewrite (wrap64_small (s - 16)) by lia. rewrite wrap64_small by lia. lia. }
    rewrite Es1, E2. set (st2 := PUT st1 (bp + s - 16) (PACK s 1)).
    assert (Hl2 : free_list st2 NULL (heap_start st2) (l1 ++ bp :: l2)).
    { apply (Hfl (bp - 8) (PACK s 1) (bp + s - 16)); lia. }
    destruct (remove_node_list st2 bp l1 l2 Hlo0 Hl2 Hnodes) as [Hl' Hm].
    destruct (remove_node_fields st2 bp) as (Elo & Ebrk & Emax).
    change (heap_lo st2) with (heap_lo st) in *.
    split; [exact Elo|]. split; [exact Emax|].
    left. split; [lia|].
    assert (Hfb : free_bps (first_bp st) (bs1 ++ [(s, 1)] ++ bs2) =
                  free_bps (first_bp st) bs1 ++ free_bps (bp + s) bs2).
    { cbn [app]. rewrite free_bps_app. cbn [free_bps fst snd Z.eqb]. reflexivity. }
    assert (Hin_fb : forall x, In x (l1 ++ l2) ->
              In x (free_bps (first_bp st) (bs1 ++ (s, 1) :: bs2))).
    { intros x Hx. change (bs1 ++ (s, 1) :: bs2) with (bs1 ++ [(s, 1)] ++ bs2).
      rewrite Hfb. apply (Permutation_in _ Hperm Hx). }
    assert (Hlay' : layout (remove_node st2 bp) (bs1 ++ [(s, 1)] ++ bs2)).
    { apply (layout_replace_frame st _ bs1 [(s, 0)] [(s, 1)] bs2 Hlay); auto.
      - constructor; [|constructor]. unfold block_ok, MINIMUMSIZE, DSIZE.
        cbn [fst snd]. auto.
      - discriminate.
      - cbn [blocks_at fst snd]. fold bp. unfold WSIZE, DSIZE. rewrite !Hm.
        cbn [mem st2 st1 PUT set_mem]. unfold upd, WSIZE.
        split; [|split; [|exact I]]; eqb_cases; try lia; reflexivity.
      - fold bp. cbn [span fst]. unfold WSIZE, DSIZE. intros c Hc. rewrite Hm.
        cbn [mem st2 st1 PUT set_mem]. unfold upd, WSIZE.
        destruct (Z.eqb_spec c (hd (heap_lo st) l2)) as [E|_].
        { intros _. rewrite E.
          destruct (hd_default_or_in l2 (heap_lo st)) as [->|Hin]; [left; reflexivity|].
          right. exists (hd (heap_lo st) l2). split; [|auto].
          apply Hin_fb. apply in_or_app. right. exact Hin. }
        destruct (Z.eqb_spec (last l1 NULL) NULL) as [E|Hnz]; cbn [negb andb].
        { eqb_cases; first [lia|intros N; contradiction]. }
        destruct (Z.eqb_spec c (last l1 NULL + 8)) as [E|_].
        { intros _. right. exists (last l1 NULL). split; [|auto].
          apply Hin_fb. apply in_or_app. left.
          destruct (last_default_or_in l1 NULL); [contradiction|assumption]. }
        eqb_cases; first [lia|intros N; contradiction]. }
    split; [split; [exact Hlay'|exact Hl']|].
    unfold first_bp at 1. rewrite Elo. fold (first_bp st).
    change (bs1 ++ (s, 1) :: bs2) with (bs1 ++ [(s, 1)] ++ bs2).
    rewrite Hfb. exact Hperm.
  - (* the block is split *)
    set (r := s - asize) in *.
    assert (Hr : r mod 16 = 0).
    { unfold r. Z.div_mod_to_equations. lia. }
    assert (EP : wrap64 (PACK r 0) = PACK r 0).
    { rewrite PACK_add by lia. apply wrap64_small. lia. }
    rewrite EP.
    set (st1 := PUT st (bp - 8) (PACK asize 1)).
    assert (Es1 : GET_SIZE st1 (bp - 8) = asize).
    { apply (GET_SIZE_PACK st1 _ asize 1); try lia. cbn [mem st1 PUT set_mem].
      apply upd_eq. }
    assert (E2 : FTRP st1 bp = bp + asize - 16).
    { unfold FTRP. rewrite E1, Es1. unfold PADD, DSIZE.
      rewrite (wrap64_small (asize - 16)) by lia. rewrite wrap64_small by lia. lia. }
    rewrite E2. set (st2 := PUT st1 (bp + asize - 16) (PACK asize 1)).
    assert (Hl2 : free_list st2 NULL (heap_start st2) (l1 ++ bp :: l2)).
    { apply (Hfl (bp - 8) (PACK asize 1) (bp + asize - 16)); lia. }
    destruct (remove_node_list st2 bp l1 l2 Hlo0 Hl2 Hnodes) as [Hl3 Hm3].
    destruct (remove_node_fields st2 bp) as (Elo & Ebrk & Emax).
    change (heap_lo st2) with (heap_lo st) in *.
    change (mem_brk st2) with (mem_brk st) in *.
    change (mem_max st2) with (mem_max st) in *.
    set (st3 := remove_node st2 bp) in *.
    assert (Em3 : forall c, bp - 8 <= c < bp + s - 8 ->
                            mem st3 c = mem st2 c).
    { intros c Hc. rewrite Hm3. unfold WSIZE. eqb_cases; cbn [negb andb]; try lia;
        reflexivity. }
    assert (Es3 : GET_SIZE st3 (bp - 8) = asize).
    { apply (GET_SIZE_PACK st3 _ asize 1); try lia. rewrite Em3 by lia.
      cbn [mem st2 st1 PUT set_mem]. rewrite upd_neq by lia. apply upd_eq. }
    assert (E3 : NEXT_BLKP st3 bp = bp + asize).
    { unfold NEXT_BLKP. rewrite E1, Es3. unfold PADD. apply wrap64_small. lia. }
    rewrite E3. set (bp2 := bp + asize).
    assert (E4 : HDRP bp2 = bp2 - 8).
    { unfold HDRP, PSUB, WSIZE. apply wrap64_small. unfold bp2. lia. }
    rewrite E4. set (st4 := PUT st3 (bp2 - 8) (PACK r 0)).
    assert (Es4 : GET_SIZE st4 (bp2 - 8) = r).
    { apply (GET_SIZE_PACK st4 _ r 0); try lia. cbn [mem st4 PUT set_mem].
      apply upd_eq. }
    assert (E5 : FTRP st4 bp2 = bp + s - 16).
    { unfold FTRP. rewrite E4, Es4. unfold PADD, DSIZE.
      rewrite (wrap64_small (r - 16)) by lia.
      rewrite wrap64_small by (unfold bp2; lia). unfold bp2, r. lia. }
    rewrite E5. set (st5 := PUT st4 (bp + s - 16) (PACK r 0)).
    assert (Hnodes3 : Forall (node_ok st5) (l1 ++ l2)).
    { apply Forall_forall. intros x Hx. rewrite Forall_forall in Hnodes.
      assert (Hx' : node_ok st x).
      { apply Hnodes. apply in_app_or in Hx. apply in_or_app.
        destruct Hx; [left|right; right]; assumption. }
      unfold node_ok in *. change (heap_lo st5) with (heap_lo st3).
      rewrite Elo. exact Hx'. }
    assert (Hlo5 : 0 < heap_lo st5).
    { change (heap_lo st5) with (heap_lo st3). rewrite Elo. exact Hlo0. }
    assert (Hl5 : free_list st5 NULL (heap_start st5) (l1 ++ l2)).
    { change (heap_start st5) with (heap_start st3).
      apply free_list_PUT; auto.
      { intros x Hx. destruct (Hrange x Hx); unfold WSIZE; lia. }
      apply free_list_PUT; auto.
      intros x Hx. destruct (Hrange x Hx); unfold WSIZE, bp2; lia. }
    assert (Hbp2 : node_ok st5 bp2).
    { unfold node_ok in *. change (heap_lo st5) with (heap_lo st3).
      rewrite Elo. unfold bp2, DSIZE in *.
      destruct Hbpok as (? & ? & ?). split; [lia|]. split; [lia|].
      Z.div_mod_to_equations. lia. }
    assert (Hnin : ~ In bp2 (l1 ++ l2)).
    { intros Hin. destruct (Hrange _ Hin); unfold bp2 in *; lia. }
    pose proof (insert_head_list st5 bp2 (l1 ++ l2) Hlo5 Hl5 Hnodes3 Hbp2 Hnin) as Hlf.
    assert (Ehs : heap_start st5 = hd (heap_lo st) (l1 ++ l2)).
    { rewrite (free_list_hd _ _ _ _ Hl5). change (heap_lo st5) with (heap_lo st3).
      rewrite Elo. reflexivity. }
    assert (Emf : forall c, mem (insert_head st5 bp2) c =
                    if c =? bp2 then NULL
                    else if c =? hd (heap_lo st) (l1 ++ l2) then bp2
                    else if c =? bp2 + 8 then hd (heap_lo st) (l1 ++ l2)
                    else if c =? bp + s - 16 then PACK r 0
                    else if c =? bp2 - 8 then PACK r 0
                    else mem st3 c).
    { intros c. rewrite insert_head_mem, (node_ok_PADD _ _ Hbp2 Hlo5), Ehs.
      reflexivity. }
    split; [exact Elo|]. split; [exact Emax|].
    right. split; [lia|].
    assert (Hin_fb : forall x, In x (l1 ++ l2) ->
              In x (free_bps (first_bp st)
                      (bs1 ++ (asize, 1) :: (r, 0) :: bs2))).
    { intros x Hx. rewrite free_bps_app. cbn [free_bps fst snd Z.eqb]. fold bp.
      apply (Permutation_in _ Hperm) in Hx. apply in_app_or in Hx. apply in_or_app.
      destruct Hx as [Hx|Hx]; [left; exact Hx|right; right].
      replace (bp + asize + r) with (bp + s) by (unfold r; lia). exact Hx. }
    assert (Hlay' : layout (insert_head st5 bp2)
                      (bs1 ++ [(asize, 1); (r, 0)] ++ bs2)).
    { apply (layout_replace_frame st _ bs1 [(s, 0)] [(asize, 1); (r, 0)] bs2 Hlay);
        auto.
      - repeat (apply Forall_cons;
                [unfold block_ok, MINIMUMSIZE, DSIZE; cbn [fst snd];
                 split; [lia|split; [assumption|auto]]|]).
        apply Forall_nil.
      - cbn [span fst]. unfold r. lia.
      - discriminate.
      - cbn [blocks_at fst snd]. fold bp. unfold WSIZE, DSIZE. rewrite !Emf.
        rewrite !Em3 by (unfold bp2, r in *; lia).
        cbn [mem st2 st1 PUT set_mem]. unfold upd, bp2, r in *.
        repeat split; eqb_cases; try lia; reflexivity.
      - fold bp. cbn [span fst]. unfold WSIZE, DSIZE. intros c Hc. rewrite Emf, Hm3.
        cbn [mem st2 st1 PUT set_mem]. unfold upd, WSIZE.
        destruct (Z.eqb_spec c bp2) as [E|_]; [unfold bp2 in *; lia|].
        destruct (Z.eqb_spec c (hd (heap_lo st) (l1 ++ l2))) as [E|_].
        { intros _. rewrite E.
          destruct (hd_default_or_in (l1 ++ l2) (heap_lo st)) as [->|Hin];
            [left; reflexivity|].
          right. exists (hd (heap_lo st) (l1 ++ l2)). split; [|auto].
          apply Hin_fb. exact Hin. }
        destruct (Z.eqb_spec c (bp2 + 8)) as [E|_]; [unfold bp2 in *; lia|].
        destruct (Z.eqb_spec c (bp + s - 16)) as [E|_]; [lia|].
        destruct (Z.eqb_spec c (bp2 - 8)) as [E|_]; [unfold bp2 in *; lia|].
        destruct (Z.eqb_spec c (hd (heap_lo st) l2)) as [E|_].
        { intros _. rewrite E.
          destruct (hd_default_or_in l2 (heap_lo st)) as [->|Hin]; [left; reflexivity|].
          right. exists (hd (heap_lo st) l2). split; [|auto].
          apply Hin_fb. apply in_or_app. right. exact Hin. }
        destruct (Z.eqb_spec (last l1 NULL) NULL) as [E|Hnz]; cbn [negb andb].
        { eqb_cases; first [lia|intros N; contradiction]. }
        destruct (Z.eqb_spec c (last l1 NULL + 8)) as [E|_].
        { intros _. right. exists (last l1 NULL). split; [|auto].
          apply Hin_fb. apply in_or_app. left.
          destruct (last_default_or_in l1 NULL); [contradiction|assumption]. }
        eqb_cases; first [lia|intros N; contradiction]. }
    split; [split; [exact Hlay'|exact Hlf]|].
    change (first_bp (insert_head st5 bp2)) with (first_bp st3).
    unfold first_bp at 1. rewrite Elo. fold (first_bp st).
    rewrite free_bps_app. cbn [free_bps fst snd Z.eqb]. fold bp. fold bp2.
    apply Permutation_cons_app.
    replace (bp2 + r) with (bp + s) by (unfold bp2, r; lia). exact Hperm.
Qed.


(** ** Allocation *)

Lemma naf_allocated (bs1 : list block) (s s' : Z) (bs2 : list block) :
  no_adjacent_free (bs1 ++ (s, 0) :: bs2) ->
  no_adjacent_free (bs1 ++ (s', 1) :: bs2).
Proof.
  intros N. apply naf_app in N. destruct N as (N1 & N2 & _).
  cbn [no_adjacent_free snd] in N2. destruct N2 as [_ N2].
  apply naf_app. split; [exact N1|]. cbn [no_adjacent_free snd].
  split; [split; [intros H; discriminate|exact N2]|]. intros _ H. discriminate.
Qed.

Lemma naf_split (bs1 : list block) (s a r : Z) (bs2 : list block) :
  no_adjacent_free (bs1 ++ (s, 0) :: bs2) ->
  no_adjacent_free (bs1 ++ (a, 1) :: (r, 0) :: bs2).
Proof.
  intros N. apply naf_app in N. destruct N as (N1 & N2 & _).
  cbn [no_adjacent_free snd] in N2. destruct N2 as [N2 N2'].
  apply naf_app. split; [exact N1|]. cbn [no_adjacent_free snd hd].
  split; [|intros _ H; discriminate].
  split; [intros H; discriminate|]. split; [auto|exact N2'].
Qed.

Lemma max_spec (x y : Z) : max x y = Z.max x y.
Proof. unfold max. destruct (Z.gtb_spec x y); lia. Qed.

Lemma extend_size_of_even (n : Z) :
  0 <= n -> n mod DSIZE = 0 -> extend_size (n / WSIZE) = n /\ 0 <= n / WSIZE.
Proof.
  intros Hn Hm. unfold extend_size, WSIZE, DSIZE in *.
  assert (H2 : (n / 8) mod 2 = 0) by (Z.div_mod_to_equations; lia).
  rewrite H2. cbn [Z.eqb]. Z.div_mod_to_equations. lia.
Qed.

(** The outcome of [place] on a free block, for the invariant. *)
Lemma place_heap_inv (st : state) (bs1 : list block) (s : Z) (bs2 : list block)
    (l : list Z) (asize : Z) :
  wf st (bs1 ++ (s, 0) :: bs2) l ->
  no_adjacent_free (bs1 ++ (s, 0) :: bs2) ->
  MINIMUMSIZE <= asize <= s -> asize mod DSIZE = 0 -> s - asize < 2 ^ 31 ->
  let bp := first_bp st + span bs1 in
  let st' := place st bp asize in
  heap_lo st' = heap_lo st /\ mem_max st' = mem_max st /\
  exists s' bs2' l',
    wf st' (bs1 ++ (s', 1) :: bs2') l' /\
    no_adjacent_free (bs1 ++ (s', 1) :: bs2') /\
    asize <= s'.
Proof.
  intros Hwf Hnaf Hasz Ham Hint bp st'.
  destruct (place_inv st bs1 s bs2 l asize Hwf Hasz Ham Hint)
    as (l1 & l2 & _ & Elo & Emax & [(Hsmall & Hwf')|(Hbig & Hwf')]).
  - split; [exact Elo|]. split; [exact Emax|].
    exists s, bs2, (l1 ++ l2). split; [exact Hwf'|].
    split; [apply (naf_allocated bs1 s s bs2 Hnaf)|lia].
  - split; [exact Elo|]. split; [exact Emax|].
    exists asize, ((s - asize, 0) :: bs2), ((first_bp st + span bs1 + asize) :: l1 ++ l2).
    split; [exact Hwf'|]. split; [apply (naf_split bs1 s asize _ bs2 Hnaf)|lia].
Qed.

Lemma wf_heap_size (st : state) (bs : list block) (l : list Z) :
  wf st bs l -> first_bp st + span bs <= mem_max st.
Proof.
  intros [[Hlay _] _]. pose proof (lay_brk _ _ Hlay). pose proof (lay_max _ _ Hlay).
  lia.
Qed.

(** [mm_malloc] keeps the invariant, for a request whose adjusted size does
    not wrap, in a heap below 2^31 bytes (so that the remainder of [place]
    fits its [int]); the block it returns is allocated, can hold the request,
    and is double-word aligned relative to the start of the heap. *)
Lemma mm_malloc_inv (st : state) (bs : list block) (l : list Z) (size : Z)
    (fuel : nat) :
  wf st bs l -> no_adjacent_free bs ->
  0 < size -> size + OVERHEAD + (DSIZE - 1) < 2 ^ 64 ->
  mem_max st < heap_lo st + 2 ^ 31 ->
  (length l < fuel)%nat ->
  exists bp st',
    mm_malloc fuel st size = Some (bp, st') /\
    heap_inv st' /\ heap_lo st' = heap_lo st /\ mem_max st' = mem_max st /\
    (bp = NULL \/
     exists bs1 s bs2 l',
       wf st' (bs1 ++ (s, 1) :: bs2) l' /\
       no_adjacent_free (bs1 ++ (s, 1) :: bs2) /\
       bp = first_bp st' + span bs1 /\
       size + OVERHEAD <= s /\
       (bp - heap_lo st') mod DSIZE = 0).
Proof.
  intros Hwf Hnaf Hsize Hnowrap Hsmall Hfuel.
  destruct (adjusted_size_in_range size Hsize Hnowrap) as (_ & Ham & Hamin & Habove).
  set (asize := adjusted_size size) in *.
  pose proof Hwf as [[Hlay Hl] Hperm].
  pose proof (lay_lo _ _ Hlay) as Hlo.
  pose proof (lay_ok _ _ Hlay) as Hok.
  pose proof (wf_heap_size _ _ _ Hwf) as Hheap.
  assert (Haligned : forall bs1, Forall block_ok bs1 ->
            (first_bp st + span bs1 - heap_lo st) mod DSIZE = 0).
  { intros bs1 H1. destruct (span_bounds _ H1) as [_ Hm].
    unfold first_bp, DSIZE in *. Z.div_mod_to_equations. lia. }
  unfold mm_malloc. destruct (Z.leb_spec size 0) as [?|_]; [lia|]. fold asize.
  destruct (find_fit_from_first_fit st asize l (heap_start st) fuel
              (free_list_next_chain _ _ _ _ Hl) Hfuel)
    as (r & Hr & Hcases).
  unfold find_fit. rewrite Hr.
  destruct Hcases as [(l1 & l2 & El & Hfit & _)|(-> & _)].
  - (* a fit in the free list *)
    assert (Hin : In r (free_bps (first_bp st) bs)).
    { apply (Permutation_in _ Hperm). rewrite El. apply in_elt. }
    destruct (free_bps_split _ _ _ Hin) as (bs1 & s & bs2 & -> & ->).
    destruct (layout_reads _ _ _ _ Hlay) as (_ & _ & Es & _).
    destruct (layout_at _ _ _ _ Hlay) as (_ & Hbp & Hend & Hsp2 & _).
    cbn [fst] in *. rewrite Es in Hfit.
    apply Forall_app in Hok. destruct Hok as [Hok1 _].
    pose proof (span_bounds _ Hok1) as [Hsp1 _].
    destruct (Z.eqb_spec (first_bp st + span bs1) NULL) as [E|_].
    { unfold NULL, first_bp, DSIZE in *. lia. }
    cbn [negb].
    destruct (place_heap_inv st bs1 s bs2 l asize Hwf Hnaf) as
      (Elo & Emax & s' & bs2' & l' & Hwf' & Hnaf' & Hs'); auto; try lia.
    { rewrite span_app in Hheap. cbn [span fst] in Hheap.
      unfold first_bp, DSIZE, MINIMUMSIZE in *. lia. }
    eexists. eexists. split; [reflexivity|].
    split; [exists (bs1 ++ (s', 1) :: bs2'), l'; auto|].
    split; [exact Elo|]. split; [exact Emax|].
    right. exists bs1, s', bs2', l'.
    split; [exact Hwf'|]. split; [exact Hnaf'|].
    assert (Efb' : first_bp (place st (first_bp st + span bs1) asize) = first_bp st).
    { unfold first_bp at 1. rewrite Elo. reflexivity. }
    rewrite Efb', Elo. split; [reflexivity|]. split; [lia|]. apply Haligned. exact Hok1.
  - (* no fit: the heap is extended *)
    change (negb (NULL =? NULL)) with false. cbn iota.
    rewrite max_spec.
    assert (Hext : 0 <= Z.max asize CHUNKSIZE /\
                   Z.max asize CHUNKSIZE mod DSIZE = 0).
    { change CHUNKSIZE with 4096. unfold DSIZE, MINIMUMSIZE in *.
      destruct (Z.max_spec asize 4096) as [[_ ->]|[_ ->]]; [split; [lia|reflexivity]|].
      split; [lia|exact Ham]. }
    destruct Hext as [Hext0 Hextm].
    destruct (extend_size_of_even _ Hext0 Hextm) as [Ewords Hwords].
    set (words := Z.max asize CHUNKSIZE / WSIZE) in *.
    assert (Hes : MINIMUMSIZE <= extend_size words /\ asize <= extend_size words /\
                  extend_size words < 2 ^ 64).
    { rewrite Ewords. change CHUNKSIZE with 4096. unfold MINIMUMSIZE, OVERHEAD, DSIZE in *.
      lia. }
    destruct (Z.le_gt_cases (mem_brk st + extend_size words) (mem_max st)) as [Hfits|Hno].
    + destruct (extend_heap_ok st bs l words Hwf Hwords (proj1 Hes) Hfits)
        as (bs1' & S & l' & Hwf1 & Hbp' & HS & Elo1 & Emax1 & Hnaf1).
      destruct (extend_heap st words) as [bp' st1]. cbn [fst snd] in *.
      pose proof (proj1 Hwf1) as [Hlay1 _].
      pose proof (lay_ok _ _ Hlay1) as Hok1.
      apply Forall_app in Hok1. destruct Hok1 as [Hok1 _].
      pose proof (span_bounds _ Hok1) as [Hsp1 _].
      pose proof (wf_heap_size _ _ _ Hwf1) as Hheap1.
      rewrite span_app in Hheap1. cbn [span fst] in Hheap1.
      assert (Efb : first_bp st1 = first_bp st) by (unfold first_bp; rewrite Elo1; auto).
      destruct (Z.eqb_spec bp' NULL) as [E|_].
      { unfold NULL, first_bp, DSIZE in *. lia. }
      rewrite Hbp', <- Efb.
      destruct (place_heap_inv st1 bs1' S [] (bp' :: l') asize Hwf1 (Hnaf1 Hnaf)) as
        (Elo & Emax & s' & bs2' & l'' & Hwf' & Hnaf' & Hs'); auto; try lia.
      { rewrite Efb, Emax1 in Hheap1. unfold first_bp, DSIZE, MINIMUMSIZE in *. lia. }
      eexists. eexists. split; [reflexivity|].
      split; [exists (bs1' ++ (s', 1) :: bs2'), l''; auto|].
      split; [congruence|]. split; [congruence|].
      right. exists bs1', s', bs2', l''.
      split; [exact Hwf'|]. split; [exact Hnaf'|].
      assert (Efb' : first_bp (place st1 (first_bp st1 + span bs1') asize) = first_bp st1).
      { unfold first_bp at 1. rewrite Elo. reflexivity. }
      rewrite Efb'. split; [reflexivity|]. split; [lia|].
      rewrite Elo, Efb, Elo1. apply Haligned. exact Hok1.
    + rewrite (extend_heap_fail st words Hwords (proj2 (proj2 Hes)) Hno).
      change (NULL =? NULL) with true. cbn iota.
      eexists. eexists. split; [reflexivity|].
      split; [exists bs, l; auto|]. split; [reflexivity|]. split; [reflexivity|].
      left. reflexivity.
Qed.


(** ** The invariant along the public operations *)

Lemma find_fit_from_more_fuel (st : state) (asize : Z) (fuel : nat) :
  forall cur r fuel',
    find_fit_from fuel st asize cur = Some r -> (fuel <= fuel')%nat ->
    find_fit_from fuel' st asize cur = Some r.
Proof.
  induction fuel as [|fuel IH]; intros cur r fuel' H Hle; [discriminate|].
  destruct fuel' as [|fuel']; [lia|]. cbn [find_fit_from] in *.
  destruct (cur =? mem_heap_lo st); [exact H|].
  destruct (asize <=? GET_SIZE st (HDRP cur)); [exact H|].
  apply IH; [exact H|lia].
Qed.

Lemma mm_malloc_more_fuel (st : state) (size : Z) (fuel fuel' : nat)
    (x : Z * state) :
  mm_malloc fuel st size = Some x -> (fuel <= fuel')%nat ->
  mm_malloc fuel' st size = Some x.
Proof.
  unfold mm_malloc, find_fit. intros H Hle.
  destruct (size <=? 0); [exact H|].
  destruct (find_fit_from fuel st (adjusted_size size) (heap_start st)) as [r|] eqn:E;
    [|discriminate].
  rewrite (find_fit_from_more_fuel _ _ _ _ _ _ E Hle). exact H.
Qed.

Lemma mm_init_inv (st : state) :
  fresh_source st -> fst (mm_init st) = 0 ->
  heap_inv (snd (mm_init st)) /\
  heap_lo (snd (mm_init st)) = heap_lo st /\
  mem_max (snd (mm_init st)) = mem_max st.
Proof.
  intros Hfresh H0. pose proof Hfresh as (Hlo & Hbrk & Hmax).
  destruct (Z.le_gt_cases (heap_lo st + 4 * WSIZE + CHUNKSIZE) (mem_max st)) as [H|H].
  - destruct (mm_init_ok st Hfresh H) as (_ & Hwf & Elo & Emax).
    split; [|split; assumption].
    exists [(CHUNKSIZE, 0)], [heap_lo st + 2 * DSIZE]. split; [exact Hwf|].
    cbn. split; [intros _; discriminate|exact I].
  - exfalso.
    destruct (Z.le_gt_cases (mem_brk st + 4 * WSIZE) (mem_max st)) as [H1|H1].
    + destruct (mm_init_extend st H1) as (st1 & E & Hb & Hm & _).
      rewrite E in H0. change (CHUNKSIZE / WSIZE) with 512 in H0.
      rewrite extend_heap_fail in H0; [discriminate|lia|reflexivity|].
      change (extend_size 512) with 4096. change CHUNKSIZE with 4096 in H.
      rewrite Hb, Hm. lia.
    + rewrite (mm_init_fail_first st) in H0 by lia. discriminate.
Qed.

(** Every state reached from a fresh memory source of less than 2^31 bytes
    by [mm_init], by [mm_malloc] of sizes whose adjusted size does not wrap
    and by [mm_free] of allocated blocks satisfies the invariant. *)
Lemma served_inv (st0 st : state) :
  mem_max st0 < heap_lo st0 + 2 ^ 31 ->
  served st0 st ->
  heap_inv st /\ heap_lo st = heap_lo st0 /\ mem_max st = mem_max st0.
Proof.
  intros Hsmall. induction 1 as [Hfresh H0|st size fuel bp st' _ IH Hs Hw Hm
                                 |st bp _ IH Ha].
  - apply mm_init_inv; assumption.
  - destruct IH as ((bs & l & Hwf & Hnaf) & Elo & Emax).
    destruct (mm_malloc_inv st bs l size (Nat.max fuel (S (length l))) Hwf Hnaf Hs Hw)
      as (bp1 & st1 & E & Hinv & Elo1 & Emax1 & _); [rewrite Elo, Emax; exact Hsmall|lia|].
    rewrite (mm_malloc_more_fuel _ _ _ _ _ Hm (Nat.le_max_l _ _)) in E.
    injection E as <- <-. split; [exact Hinv|]. split; congruence.
  - destruct IH as (_ & Elo & Emax).
    destruct Ha as (bs1 & s & bs2 & l & Hwf & Hnaf & ->).
    destruct (mm_free_inv st bs1 s bs2 l Hwf Hnaf) as (Hinv & Elo1 & Emax1).
    split; [exact Hinv|]. split; congruence.
Qed.

(** A pointer returned by [mm_malloc] in such a state is the block pointer
    of an allocated block that can hold the request: [mm_free] may be called
    on it. *)
Lemma served_malloc_allocated (st0 st : state) (size : Z) (fuel : nat) (bp : Z)
    (st' : state) :
  mem_max st0 < heap_lo st0 + 2 ^ 31 ->
  served st0 st ->
  0 < size -> size + OVERHEAD + (DSIZE - 1) < 2 ^ 64 ->
  mm_malloc fuel st size = Some (bp, st') ->
  bp <> NULL ->
  allocated_block st' bp /\ size + OVERHEAD <= GET_SIZE st' (HDRP bp) /\
  (bp - heap_lo st') mod DSIZE = 0.
Proof.
  intros Hsmall Hserved Hs Hw Hm Hbp.
  destruct (served_inv _ _ Hsmall Hserved) as ((bs & l & Hwf & Hnaf) & Elo & Emax).
  destruct (mm_malloc_inv st bs l size (Nat.max fuel (S (length l))) Hwf Hnaf Hs Hw)
    as (bp1 & st1 & E & _ & _ & _ & Hcases); [rewrite Elo, Emax; exact Hsmall|lia|].
  rewrite (mm_malloc_more_fuel _ _ _ _ _ Hm (Nat.le_max_l _ _)) in E.
  injection E as <- <-.
  destruct Hcases as [E|(bs1 & s & bs2 & l' & Hwf' & Hnaf' & Ebp & Hsz & Hal)];
    [contradiction|].
  split; [exists bs1, s, bs2, l'; auto|]. split; [|exact Hal].
  destruct Hwf' as [[Hlay _] _].
  destruct (layout_reads _ _ _ _ Hlay) as (_ & _ & Es & _).
  rewrite Ebp, Es. exact Hsz.
Qed.

(** In a heap that satisfies the invariant every block has equal header and
    footer words, and the free list is the set of free blocks. *)
Lemma heap_inv_tags (st : state) (bs1 : list block) (b : block) (bs2 : list block)
    (l : list Z) :
  wf st (bs1 ++ b :: bs2) l ->
  let bp := first_bp st + span bs1 in
  GET st (HDRP bp) = PACK (fst b) (snd b) /\
  GET st (FTRP st bp) = PACK (fst b) (snd b) /\
  (In bp l <-> snd b = 0).
Proof.
  intros [[Hlay Hl] Hperm] bp.
  destruct (layout_reads _ _ _ _ Hlay) as (E1 & _ & _ & _ & _ & E2 & _).
  destruct (layout_at _ _ _ _ Hlay) as ((Hs & _ & Ha) & _ & _ & _ & _ & Hh & Hf & _).
  pose proof (lay_ok _ _ Hlay) as Hok.
  apply Forall_app in Hok. destruct Hok as [Hok1 Hok2].
  apply Forall_cons_iff in Hok2. destruct Hok2 as [_ Hok2].
  fold bp in E1, E2, Hh, Hf. unfold GET. rewrite E1, E2.
  split; [exact Hh|]. split; [exact Hf|].
  rewrite free_bps_app in Hperm. cbn [free_bps] in Hperm. fold bp in Hperm.
  split.
  - intros Hin. apply (Permutation_in _ Hperm) in Hin.
    destruct (Z.eqb_spec (snd b) 0) as [E|N]; [exact E|exfalso].
    apply in_app_or in Hin. destruct Hin as [Hin|Hin].
    + destruct (free_bps_range _ Hok1 _ _ Hin) as (_ & H & _).
      unfold bp, MINIMUMSIZE in *. lia.
    + destruct (free_bps_range _ Hok2 _ _ Hin) as (H & _).
      unfold bp, MINIMUMSIZE in *. lia.
  - intros E. apply (Permutation_in _ (Permutation_sym Hperm)).
    rewrite E. cbn [Z.eqb]. apply in_or_app. right. left. reflexivity.
Qed.

Lemma after_malloc_eq (st : state) (size : Z) :
  mm_malloc 64 st size <> None ->
  mm_malloc 64 st size = Some (malloc_ptr st size, after_malloc st size).
Proof.
  unfold malloc_ptr, after_malloc.
  destruct (mm_malloc 64 st size) as [[p st']|]; [reflexivity|].
  intros H. contradiction.
Qed.

(** A run covered by the invariant: [mm_init] on a source of 8192 bytes, a
    request of 100 bytes, and the release of the pointer returned. *)
Lemma served_example :
  let st0 := ex_source 8192 in
  let st1 := snd (mm_init st0) in
  let p := malloc_ptr st1 100 in
  let st2 := after_malloc st1 100 in
  served st0 (mm_free st2 p) /\ heap_inv (mm_free st2 p).
Proof.
  intros st0 st1 p st2.
  assert (Hsmall : mem_max st0 < heap_lo st0 + 2 ^ 31) by (vm_compute; reflexivity).
  assert (H1 : served st0 st1).
  { apply served_init; [|vm_compute; reflexivity].
    repeat split; vm_compute; reflexivity. }
  assert (Hm : mm_malloc 64 st1 100 = Some (p, st2)).
  { apply after_malloc_eq. vm_compute. discriminate. }
  assert (H2 : served st0 (mm_free st2 p)).
  { apply served_free;
      [apply (served_malloc st0 st1 100 64 p st2 H1); [lia|reflexivity|exact Hm]|].
    apply (served_malloc_allocated st0 st1 100 64 p st2 Hsmall H1);
      [lia|reflexivity|exact Hm|].
    vm_compute. discriminate. }
  split; [exact H2|]. apply (served_inv st0 _ Hsmall H2).
Qed.

(** * The claims *)

(** ** C1: the four cases of [coalesce] *)

(** C1: for a block tagged free that is not yet in the free list, [coalesce]
    reads the allocated flag of the block before it (in that block's footer)
    and of the block after it (in that block's header) and handles exactly
    the four combinations; in each of them the resulting block is in the free
    list exactly once (at its head), and when both neighbours are free the
    resulting block starts where the previous block started and its size is
    the sum of the three sizes. *)
Theorem coalesce_four_cases (st : state) (bs1 : list block) (s : Z)
    (bs2 : list block) (l : list Z) :
  pending st bs1 s bs2 l ->
  let bp := first_bp st + span bs1 in
  let prev := last bs1 (OVERHEAD, 1) in
  let next := hd (0, 1) bs2 in
  let bp' := fst (coalesce st bp) in
  let st' := snd (coalesce st bp) in
  GET_ALLOC st (PSUB bp DSIZE) = snd prev /\
  GET_ALLOC st (HDRP (NEXT_BLKP st bp)) = snd next /\
  exists bs' l',
    wf st' bs' (bp' :: l') /\
    count_occ Z.eq_dec (bp' :: l') bp' = 1%nat /\
    ((snd prev = 1 /\ snd next = 1 /\
      bp' = bp /\ bs' = bs1 ++ (s, 0) :: bs2 /\ l' = l)
     \/
     (snd prev = 1 /\ snd next = 0 /\
      bp' = bp /\ bs' = bs1 ++ (s + fst next, 0) :: tl bs2 /\
      Permutation l ((bp + s) :: l'))
     \/
     (snd prev = 0 /\ snd next = 1 /\
      bp' = bp - fst prev /\
      bs' = removelast bs1 ++ (fst prev + s, 0) :: bs2 /\
      Permutation l (bp' :: l'))
     \/
     (snd prev = 0 /\ snd next = 0 /\
      bp' = bp - fst prev /\
      bs' = removelast bs1 ++ (fst prev + s + fst next, 0) :: tl bs2 /\
      Permutation l (bp' :: (bp + s) :: l') /\
      GET_SIZE st' (HDRP bp') = fst prev + s + fst next)).
Proof.
  intros Hpend bp prev next bp' st'.
  pose proof Hpend as [[Hlay _] _].
  destruct (layout_reads _ _ _ _ Hlay) as
    (_ & _ & _ & _ & _ & _ & _ & Epa & _ & _ & _ & Ena).
  fold bp prev next in Epa, Ena.
  split; [exact Epa|]. split; [exact Ena|].
  pose proof (lay_ok _ _ Hlay) as Hok.
  apply Forall_app in Hok. destruct Hok as [Hok1 Hok2].
  apply Forall_cons_iff in Hok2. destruct Hok2 as [_ Hok2].
  assert (Hpf : snd prev = 0 \/ snd prev = 1).
  { apply (flag_cases bs1 (OVERHEAD, 1)); auto. apply last_default_or_in. }
  assert (Hnf : snd next = 0 \/ snd next = 1).
  { apply (flag_cases bs2 (0, 1)); auto. apply hd_default_or_in. }
  destruct Hpf as [Hp|Hp]; destruct Hnf as [Hn|Hn].
  - (* both free *)
    pose proof (prev_free_split bs1 Hp) as E1. fold prev in E1.
    pose proof (next_free_split bs2 Hn) as E2. fold next in E2.
    assert (Ebp : bp = first_bp st + span (removelast bs1) + fst prev).
    { unfold bp. rewrite E1 at 1. rewrite span_app. cbn [span fst]. lia. }
    rewrite E1, E2 in Hpend.
    destruct (coalesce_both_free _ _ _ _ _ _ _ Hpend)
      as (l1 & l2 & l3 & Hperm & _ & _ & Hfst & Hwf).
    rewrite <- Ebp in Hfst, Hwf, Hperm. fold bp' in Hfst. fold st' in Hwf.
    exists (removelast bs1 ++ (fst prev + s + fst next, 0) :: tl bs2), l3.
    rewrite Hfst.
    split; [exact Hwf|]. split; [apply (head_once _ _ _ _ Hwf)|].
    right. right. right.
    split; [exact Hp|]. split; [exact Hn|]. split; [lia|]. split; [reflexivity|].
    split; [exact Hperm|].
    destruct Hwf as [[Hlay' _] _].
    destruct (layout_reads _ _ _ _ Hlay') as (_ & _ & Es & _).
    unfold first_bp in Es. unfold st' in Es at 2.
    rewrite (proj1 (coalesce_fields st bp)) in Es. exact Es.
  - (* only the previous block is free *)
    pose proof (prev_free_split bs1 Hp) as E1. fold prev in E1.
    assert (Ebp : bp = first_bp st + span (removelast bs1) + fst prev).
    { unfold bp. rewrite E1 at 1. rewrite span_app. cbn [span fst]. lia. }
    rewrite E1 in Hpend.
    destruct (coalesce_prev_free _ _ _ _ _ _ Hpend Hn) as (l1 & l2 & El & Hfst & Hwf).
    rewrite <- Ebp in Hfst, Hwf. fold bp' in Hfst. fold st' in Hwf.
    exists (removelast bs1 ++ (fst prev + s, 0) :: bs2), (l1 ++ l2).
    rewrite Hfst.
    split; [exact Hwf|]. split; [apply (head_once _ _ _ _ Hwf)|].
    right. right. left.
    split; [exact Hp|]. split; [exact Hn|]. split; [lia|]. split; [reflexivity|].
    rewrite El. apply Permutation_sym, Permutation_middle.
  - (* only the next block is free *)
    pose proof (next_free_split bs2 Hn) as E2. fold next in E2.
    rewrite E2 in Hpend.
    destruct (coalesce_next_free _ _ _ _ _ _ Hpend Hp) as (l1 & l2 & El & Hfst & Hwf).
    fold bp in Hfst, Hwf, El. fold bp' in Hfst. fold st' in Hwf.
    exists (bs1 ++ (s + fst next, 0) :: tl bs2), (l1 ++ l2).
    rewrite Hfst.
    split; [exact Hwf|]. split; [apply (head_once _ _ _ _ Hwf)|].
    right. left.
    split; [exact Hp|]. split; [exact Hn|]. split; [reflexivity|]. split; [reflexivity|].
    rewrite El. apply Permutation_sym, Permutation_middle.
  - (* both allocated *)
    destruct (coalesce_none_free _ _ _ _ _ Hpend Hp Hn) as (Hfst & Hwf).
    fold bp in Hfst, Hwf. fold bp' in Hfst. fold st' in Hwf.
    exists (bs1 ++ (s, 0) :: bs2), l.
    rewrite Hfst.
    split; [exact Hwf|]. split; [apply (head_once _ _ _ _ Hwf)|].
    left. auto.
Qed.

Lemma ex_pending_is_pending :
  pending ex_pending [(32, 0)] 32 [(32, 0); (32, 1); (3968, 0)]
          [65632; 65568; 65696].
Proof.
  split; [split|].
  - constructor.
    + vm_compute. reflexivity.
    + vm_compute. reflexivity.
    + split; vm_compute; [discriminate|reflexivity].
    + unfold block_ok, MINIMUMSIZE, DSIZE.
      repeat (apply Forall_cons;
              [cbn [fst snd]; split; [lia|split; [reflexivity|auto]]|]).
      apply Forall_nil.
    + vm_compute. reflexivity.
    + vm_compute. reflexivity.
    + vm_compute. repeat split; reflexivity.
    + vm_compute. reflexivity.
  - vm_compute. repeat split; try reflexivity; discriminate.
  - change (Permutation [65632; 65568; 65696] [65568; 65632; 65696]).
    apply perm_swap.
Qed.

Lemma coalesce_four_cases_witness :
  let st := ex_pending in
  let bs1 := [(32, 0)] in
  let bs2 := [(32, 0); (32, 1); (3968, 0)] in
  let l := [65632; 65568; 65696] in
  pending st bs1 32 bs2 l /\
  let bp := first_bp st + span bs1 in
  let prev := last bs1 (OVERHEAD, 1) in
  let next := hd (0, 1) bs2 in
  let bp' := fst (coalesce st bp) in
  let st' := snd (coalesce st bp) in
  GET_ALLOC st (PSUB bp DSIZE) = snd prev /\
  GET_ALLOC st (HDRP (NEXT_BLKP st bp)) = snd next /\
  exists bs' l',
    wf st' bs' (bp' :: l') /\
    count_occ Z.eq_dec (bp' :: l') bp' = 1%nat /\
    ((snd prev = 1 /\ snd next = 1 /\
      bp' = bp /\ bs' = bs1 ++ (32, 0) :: bs2 /\ l' = l)
     \/
     (snd prev = 1 /\ snd next = 0 /\
      bp' = bp /\ bs' = bs1 ++ (32 + fst next, 0) :: tl bs2 /\
      Permutation l ((bp + 32) :: l'))
     \/
     (snd prev = 0 /\ snd next = 1 /\
      bp' = bp - fst prev /\
      bs' = removelast bs1 ++ (fst prev + 32, 0) :: bs2 /\
      Permutation l (bp' :: l'))
     \/
     (snd prev = 0 /\ snd next = 0 /\
      bp' = bp - fst prev /\
      bs' = removelast bs1 ++ (fst prev + 32 + fst next, 0) :: tl bs2 /\
      Permutation l (bp' :: (bp + 32) :: l') /\
      GET_SIZE st' (HDRP bp') = fst prev + 32 + fst next)).
Proof.
  split.
  - exact ex_pending_is_pending.
  - exact (coalesce_four_cases ex_pending [(32, 0)] 32
             [(32, 0); (32, 1); (3968, 0)] [65632; 65568; 65696]
             ex_pending_is_pending).
Defined.

(** ** C5: first fit *)


(** C5: [find_fit] walks the free list from its head along the next-links
    up to the low end of the heap and returns the first node of the list
    whose block size is at least the requested size, or NULL when no node of
    the list is large enough. *)
Theorem find_fit_first_fit (st : state) (asize : Z) (l : list Z) (fuel : nat) :
  next_chain st (heap_start st) l -> (length l < fuel)%nat ->
  exists r,
    find_fit fuel st asize = Some r /\
    ((exists l1 l2,
         l = l1 ++ r :: l2 /\ asize <= GET_SIZE st (HDRP r) /\
         Forall (fun y => GET_SIZE st (HDRP y) < asize) l1)
     \/ (r = NULL /\ Forall (fun y => GET_SIZE st (HDRP y) < asize) l)).
Proof. intros Hc Hf. apply find_fit_from_first_fit; assumption. Qed.

Lemma find_fit_first_fit_witness :
  let st := ex_pending in
  let l := [65632; 65568; 65696] in
  next_chain st (heap_start st) l /\
  (length l < 4)%nat /\
  exists r,
    find_fit 4 st 48 = Some r /\
    ((exists l1 l2,
         l = l1 ++ r :: l2 /\ 48 <= GET_SIZE st (HDRP r) /\
         Forall (fun y => GET_SIZE st (HDRP y) < 48) l1)
     \/ (r = NULL /\ Forall (fun y => GET_SIZE st (HDRP y) < 48) l)).
Proof.
  intros st l.
  assert (H1 : next_chain st (heap_start st) l).
  { vm_compute. repeat split; try reflexivity; discriminate. }
  assert (H2 : (length l < 4)%nat) by (cbn; lia).
  split; [exact H1|]. split; [exact H2|].
  exact (find_fit_first_fit st 48 l 4 H1 H2).
Defined.

(** ** C6: the adjusted size *)


(** C6 (the code breaks it): for a request of 2^64 - 31 bytes the sum
    size + OVERHEAD + (DSIZE - 1) wraps to 0, the adjusted size is 0, and
    [mm_malloc] on the initial heap returns the non-null pointer of a block
    that is still tagged free, of 4096 bytes, still at the head of the free
    list. *)
Theorem mm_malloc_adjusted_size_wraps :
  let size := 2 ^ 64 - 31 in
  0 < size < 2 ^ 64 /\
  adjusted_size size = 0 /\
  exists st',
    mm_malloc 2 ex_heap size = Some (65568, st') /\
    65568 <> NULL /\
    GET_ALLOC st' (HDRP 65568) = 0 /\
    GET_SIZE st' (HDRP 65568) = 4096 /\
    heap_start st' = 65568.
Proof.
  cbn zeta. split; [split; reflexivity|]. split; [reflexivity|].
  eexists. split; [vm_compute; reflexivity|].
  split; [discriminate|]. repeat split.
Qed.

(** ** C7: the ends of the free list *)


(** C7 as the code has it: take the free-list states built from the empty
    list by the two list routines used as their callers use them,
    [insert_head] on a node address that is not in the list (double-word
    aligned, above the low end of the heap) and [remove_node] on a node that
    is in the list, and by stores to words that hold no link of the list.
    In every such state the next-links from the head run through the nodes
    of the list and end at the low end of the heap, and no next-link is
    null; the previous-links end at a null link, not at the low end of the
    heap: the head node stores NULL as its previous-link, and every other
    node stores the node before it. *)
Theorem free_list_ends (st : state) (l : list Z) :
  list_state st l ->
  next_chain st (heap_start st) l /\
  (forall x, In x l -> NEXT_FREE st x <> NULL) /\
  free_list st NULL (heap_start st) l /\
  (forall x l', l = x :: l' ->
                PREV_FREE st x = NULL /\ PREV_FREE st x <> mem_heap_lo st) /\
  (forall l1 x l2, l = l1 ++ x :: l2 ->
                   NEXT_FREE st x = hd (mem_heap_lo st) l2 /\
                   PREV_FREE st x = last l1 NULL).
Proof.
  intros H. destruct (list_state_inv st l H) as (Hlo & Hok & Hl).
  split; [apply (free_list_next_chain _ _ _ _ Hl)|].
  split; [apply (free_list_next_not_null st l Hlo Hok _ _ Hl)|].
  split; [exact Hl|]. split.
  - intros x l' ->. cbn [free_list] in Hl. destruct Hl as (_ & _ & Hp & _).
    rewrite Hp. split; [reflexivity|]. unfold NULL, mem_heap_lo. lia.
  - intros l1 x l2 ->.
    destruct (free_list_split st x l2 l1 _ _ Hl) as (Hp & Hn & _).
    split; [exact Hn|exact Hp].
Qed.

Lemma ex_list_state :
  list_state (insert_head (set_heap_start (ex_source 4096) 65536) 65568) [65568].
Proof.
  apply ls_insert.
  - apply ls_empty; reflexivity.
  - unfold node_ok. cbn. repeat split; try lia; discriminate.
  - intros [].
Qed.

Lemma free_list_ends_witness :
  let st0 := set_heap_start (ex_source 4096) 65536 in
  let st :=
    remove_node
      (insert_head (insert_head (insert_head st0 65568) 65600) 65632) 65600 in
  let l := [65632; 65568] in
  list_state st l /\
  next_chain st (heap_start st) l /\
  (forall x, In x l -> NEXT_FREE st x <> NULL) /\
  free_list st NULL (heap_start st) l /\
  (forall x l', l = x :: l' ->
                PREV_FREE st x = NULL /\ PREV_FREE st x <> mem_heap_lo st) /\
  (forall l1 x l2, l = l1 ++ x :: l2 ->
                   NEXT_FREE st x = hd (mem_heap_lo st) l2 /\
                   PREV_FREE st x = last l1 NULL).
Proof.
  intros st0 st l.
  assert (H : list_state st l).
  { apply (ls_remove _ [65632] 65600 [65568]).
    apply ls_insert; [apply ls_insert; [exact ex_list_state| |]| |].
    - repeat split; vm_compute; congruence.
    - intros [E|[]]; discriminate E.
    - repeat split; vm_compute; congruence.
    - intros [E|[E|[]]]; discriminate E. }
  split; [exact H|].
  exact (free_list_ends st l H).
Defined.

(** C7 as stated fails: after [mm_init] the free list has one node, and the
    previous-link stored in it is the null pointer, not the low end of the
    heap. *)
Lemma prev_link_of_head_is_null :
  fst (mm_init (ex_source (2 ^ 40))) = 0 /\
  heap_start ex_heap = 65568 /\
  NEXT_FREE ex_heap 65568 = mem_heap_lo ex_heap /\
  PREV_FREE ex_heap (heap_start ex_heap) = NULL /\
  PREV_FREE ex_heap (heap_start ex_heap) <> mem_heap_lo ex_heap.
Proof. vm_compute. repeat split; discriminate. Qed.

(** ** C8: success and failure of [mm_init] *)


(** C8 as the code has it: [mm_init] makes two requests to the memory
    source, the reservation of four words and, through [extend_heap], the
    one of CHUNKSIZE bytes.  On a memory source that lies below 2^63 (where
    no address is negative as a [long]) it returns 0 exactly when both
    requests succeed, and it returns -1 only when one of the two fails: a
    successful initial reservation is not enough.  (The second request is
    made after the prologue and epilogue have been written, which changes
    the memory but not the memory source, so it is stated on the source as
    the first request left it.)  Nothing is said of what a refused request
    leads to beyond the absence of a 0: that depends on the value the
    memory source returns for it, which line 119 compares with NULL and
    line 304 tests for a negative [long]. *)
Theorem mm_init_succeeds_iff_both_requests_succeed (st : state) :
  fresh_source st -> mem_max st <= 2 ^ 63 ->
  (fst (mm_init st) = 0 <->
   exists p st1 q st2, mem_sbrk st (4 * WSIZE) = Some (p, st1) /\
                       mem_sbrk st1 CHUNKSIZE = Some (q, st2)) /\
  (fst (mm_init st) = -1 ->
   mem_sbrk st (4 * WSIZE) = None \/
   exists p st1, mem_sbrk st (4 * WSIZE) = Some (p, st1) /\
                 mem_sbrk st1 CHUNKSIZE = None).
Proof.
  intros Hfresh _. pose proof Hfresh as (Hlo & Hbrk & Hmax).
  change CHUNKSIZE with 4096. unfold WSIZE.
  destruct (Z.le_gt_cases (mem_brk st + 4 * 8) (mem_max st)) as [H1|H1].
  - pose proof (mem_sbrk_fits st (4 * 8) H1) as E1.
    set (st1 := mkState _ _ _ _ _) in E1.
    destruct (Z.le_gt_cases (mem_brk st1 + 4096) (mem_max st1)) as [H2|H2].
    + (* both requests succeed *)
      pose proof (mem_sbrk_fits st1 4096 H2) as E2.
      destruct (mm_init_ok st Hfresh) as (R & _).
      { change CHUNKSIZE with 4096. unfold WSIZE. cbn [mem_brk mem_max st1] in H2. lia. }
      rewrite R. split; [split|discriminate].
      * intros _. exists (mem_brk st), st1. eexists. eexists.
        split; [exact E1|exact E2].
      * reflexivity.
    + (* the second request fails *)
      destruct (mm_init_extend st) as (st1' & E & Hb & Hm & _); [exact H1|].
      assert (R : fst (mm_init st) = -1).
      { rewrite E. change (CHUNKSIZE / WSIZE) with 512.
        rewrite extend_heap_fail.
        - reflexivity.
        - lia.
        - reflexivity.
        - change (extend_size 512) with 4096. rewrite Hb, Hm.
          cbn [mem_brk mem_max st1] in H2. unfold WSIZE. lia. }
      assert (E2 : mem_sbrk st1 4096 = None) by (apply mem_sbrk_none; lia).
      rewrite R. split; [split|].
      * discriminate.
      * intros (p & st' & q & st2 & E' & E'').
        rewrite E1 in E'. injection E' as <- <-.
        rewrite E2 in E''. discriminate.
      * intros _. right. exists (mem_brk st), st1. split; [exact E1|exact E2].
  - (* the first request fails *)
    rewrite (mm_init_fail_first st) by (unfold WSIZE; lia). cbn [fst].
    pose proof (proj2 (mem_sbrk_none st (4 * 8)) H1) as E1.
    split; [split|].
    + discriminate.
    + intros (p & st' & q & st2 & E' & _). congruence.
    + intros _. left. exact E1.
Qed.

Lemma mm_init_succeeds_iff_both_requests_succeed_witness :
  let st := ex_source 4128 in
  fresh_source st /\ mem_max st <= 2 ^ 63 /\
  (fst (mm_init st) = 0 <->
   exists p st1 q st2, mem_sbrk st (4 * WSIZE) = Some (p, st1) /\
                       mem_sbrk st1 CHUNKSIZE = Some (q, st2)) /\
  (fst (mm_init st) = -1 ->
   mem_sbrk st (4 * WSIZE) = None \/
   exists p st1, mem_sbrk st (4 * WSIZE) = Some (p, st1) /\
                 mem_sbrk st1 CHUNKSIZE = None).
Proof.
  assert (H : fresh_source (ex_source 4128)).
  { unfold fresh_source. cbn. repeat split; reflexivity. }
  assert (H' : mem_max (ex_source 4128) <= 2 ^ 63) by (cbn; lia).
  split; [exact H|]. split; [exact H'|].
  exact (mm_init_succeeds_iff_both_requests_succeed (ex_source 4128) H H').
Defined.

(** C8 as stated fails: with room for the initial reservation only, the
    initial reservation succeeds and [mm_init] still does not return
    success, because the extension by CHUNKSIZE bytes is refused. *)
Lemma mm_init_no_success_after_initial_reservation :
  let st := ex_source (4 * WSIZE) in
  fresh_source st /\ mem_max st <= 2 ^ 63 /\
  mem_sbrk st (4 * WSIZE) <> None /\
  (forall p st1, mem_sbrk st (4 * WSIZE) = Some (p, st1) ->
                 mem_sbrk st1 CHUNKSIZE = None) /\
  fst (mm_init st) <> 0.
Proof.
  cbn zeta. split; [|split; [|split; [|split]]].
  - unfold fresh_source. cbn. repeat split; reflexivity.
  - cbn. lia.
  - vm_compute. discriminate.
  - intros p st1 E. vm_compute in E. injection E as <- <-. reflexivity.
  - vm_compute. discriminate.
Qed.

(** ** C9: the heap checker *)

(** C9 (the code breaks it): [check_heap] starts its walk at [heap_start],
    which this allocator uses as the head of the free list, not at the
    prologue.  On every freshly initialised heap, which is well formed,
    [heap_start] is the free block of CHUNKSIZE bytes, the test of the
    "prologue header" sees size 4096 instead of 16, and the checker reports
    failure. *)
Theorem check_heap_rejects_initial_heap (st : state) (fuel : nat) :
  fresh_source st ->
  heap_lo st + 4 * WSIZE + CHUNKSIZE <= mem_max st ->
  fst (mm_init st) = 0 /\
  wf (snd (mm_init st)) [(CHUNKSIZE, 0)] [heap_lo st + 2 * DSIZE] /\
  heap_start (snd (mm_init st)) = heap_lo st + 2 * DSIZE /\
  GET_SIZE (snd (mm_init st)) (HDRP (heap_start (snd (mm_init st)))) = CHUNKSIZE /\
  check_heap fuel (snd (mm_init st)) = Some false.
Proof.
  intros Hfresh Hmax.
  destruct (mm_init_ok st Hfresh Hmax) as (R & Hwf & Elo & _).
  split; [exact R|]. split; [exact Hwf|].
  destruct Hwf as [[Hlay Hl] _].
  pose proof (free_list_hd _ _ _ _ Hl) as Hhd. cbn [hd] in Hhd.
  destruct (layout_reads _ [] (CHUNKSIZE, 0) [] Hlay) as (_ & _ & Es & _).
  unfold first_bp in Es. cbn [span fst] in Es. rewrite Elo, Z.add_0_r in Es.
  rewrite <- Hhd in Es.
  split; [exact Hhd|]. split; [exact Es|].
  unfold check_heap. rewrite Es. reflexivity.
Qed.

Lemma check_heap_rejects_initial_heap_witness :
  let st := ex_source (2 ^ 40) in
  fresh_source st /\
  heap_lo st + 4 * WSIZE + CHUNKSIZE <= mem_max st /\
  fst (mm_init st) = 0 /\
  wf (snd (mm_init st)) [(CHUNKSIZE, 0)] [heap_lo st + 2 * DSIZE] /\
  heap_start (snd (mm_init st)) = heap_lo st + 2 * DSIZE /\
  GET_SIZE (snd (mm_init st)) (HDRP (heap_start (snd (mm_init st)))) = CHUNKSIZE /\
  check_heap 8 (snd (mm_init st)) = Some false.
Proof.
  assert (H1 : fresh_source (ex_source (2 ^ 40))).
  { unfold fresh_source. cbn. repeat split; reflexivity. }
  assert (H2 : heap_lo (ex_source (2 ^ 40)) + 4 * WSIZE + CHUNKSIZE
               <= mem_max (ex_source (2 ^ 40))).
  { vm_compute. discriminate. }
  split; [exact H1|]. split; [exact H2|].
  exact (check_heap_rejects_initial_heap (ex_source (2 ^ 40)) 8 H1 H2).
Defined.

(** ** C2 and C10: the remainder computed by [place] *)

(** C2 (the code breaks it): [place] keeps the remainder in a 32-bit [int].
    In the heap [ex_gib 5], reached by five requests of 2^30 bytes that are
    then freed, the only free block has 5 * (2^30 + 16) + 4096 bytes;
    placing 32 bytes in it (as allocate(16) does) leaves a remainder of
    more than 2^32 bytes, of which the [int] keeps the low 32 bits: the
    block is split into an allocated block of 32 bytes and a free block of
    the remainder less 2^32 bytes, and 2^32 bytes are lost. *)
Theorem place_truncates_remainder :
  let st := ex_gib 5 in
  let bp := 65568 in
  let asize := adjusted_size 16 in
  let s := GET_SIZE st (HDRP bp) in
  asize = 32 /\
  s = 5 * (2 ^ 30 + 16) + 4096 /\
  heap_blocks 4 st bp = [(bp, s, 0)] /\
  heap_start st = bp /\
  find_fit 2 st asize = Some bp /\
  asize <= s /\ MINIMUMSIZE <= s - asize /\
  heap_blocks 4 (place st bp asize) bp =
    [(bp, asize, 1); (bp + asize, s - asize - 2 ^ 32, 0)] /\
  heap_blocks 4 (after_malloc st 16) bp =
    [(bp, asize, 1); (bp + asize, s - asize - 2 ^ 32, 0)] /\
  asize + (s - asize - 2 ^ 32) <> s.
Proof. vm_compute. repeat split; discriminate. Qed.

(** C10 (the code breaks it): in the heap [ex_gib 3], reached by three
    requests of 2^30 bytes that are then freed, allocate(1) calls [place] on
    the block found by [find_fit]; the block has 3 * (2^30 + 16) + 4096
    bytes, at least the adjusted size 32, and the subtraction does not
    underflow, but its result is above 2^31 and does not fit the 32-bit
    [int free_space_left], whose value is negative; the whole block is then
    allocated for the one byte. *)
Theorem free_space_left_negative :
  let st := ex_gib 3 in
  let asize := adjusted_size 1 in
  let bp := 65568 in
  let s := GET_SIZE st (HDRP bp) in
  asize = 32 /\
  find_fit 2 st asize = Some bp /\ bp <> NULL /\
  s = 3 * (2 ^ 30 + 16) + 4096 /\
  asize <= s /\
  wrap64 (s - asize) = s - asize /\
  to_int (wrap64 (s - asize)) = s - asize - 2 ^ 32 /\
  to_int (wrap64 (s - asize)) < 0 /\
  malloc_ptr st 1 = bp /\
  heap_blocks 4 (after_malloc st 1) bp = [(bp, s, 1)].
Proof. vm_compute. repeat split; discriminate. Qed.

(** ** C3 and C4: the invariants after a request whose adjusted size wraps *)

(** C4 (the code breaks it): after initialize, allocate(16) and
    allocate(2^64 - 31), the block returned by the first allocate has the
    header (32, allocated) and the footer (0, allocated): the second request
    has adjusted size 0, and [place] writes its "footer" 16 bytes before the
    block it places, over the footer of the block before. *)
Theorem header_footer_differ_after_wrapped_request :
  let st1 := after_malloc ex_heap 16 in
  let p1 := malloc_ptr ex_heap 16 in
  let st2 := after_malloc st1 (2 ^ 64 - 31) in
  let p2 := malloc_ptr st1 (2 ^ 64 - 31) in
  mm_malloc 64 ex_heap 16 <> None /\
  mm_malloc 64 st1 (2 ^ 64 - 31) <> None /\
  p1 = 65568 /\ p2 = 65600 /\
  GET st1 (HDRP p1) = PACK 32 1 /\ GET st1 (FTRP st1 p1) = PACK 32 1 /\
  heap_blocks 4 st2 65568 = [(65568, 32, 1); (65600, 4064, 0)] /\
  GET st2 (HDRP p1) = PACK 32 1 /\
  GET st2 (FTRP st2 p1) = PACK 0 1 /\
  GET st2 (HDRP p1) <> GET st2 (FTRP st2 p1).
Proof. vm_compute. repeat split; discriminate. Qed.

(** C3 (the code breaks it): after initialize, allocate(2^64 - 31), free of
    the pointer it returned, allocate(4016) and allocate(100), the heap holds
    an allocated block of 128 bytes followed by two free blocks, of 3904 and
    of 64 bytes, next to each other.  The first request has adjusted size 0
    and returns a block that stays in the free list; freeing it inserts it a
    second time, so that [find_fit] later hands out the block of the third
    request again, and [place] splits it beside a free block. *)
Theorem adjacent_free_blocks_after_wrapped_request :
  let st1 := after_malloc ex_heap (2 ^ 64 - 31) in
  let p1 := malloc_ptr ex_heap (2 ^ 64 - 31) in
  let st2 := mm_free st1 p1 in
  let st3 := after_malloc st2 4016 in
  let p3 := malloc_ptr st2 4016 in
  let st4 := after_malloc st3 100 in
  let p4 := malloc_ptr st3 100 in
  mm_malloc 64 ex_heap (2 ^ 64 - 31) <> None /\
  mm_malloc 64 st2 4016 <> None /\
  mm_malloc 64 st3 100 <> None /\
  p1 = 65568 /\ p3 = 65568 /\ p4 = 65568 /\
  heap_blocks 8 st3 65568 = [(65568, 4032, 1); (69600, 64, 0)] /\
  heap_blocks 8 st4 65568 =
    [(65568, 128, 1); (65696, 3904, 0); (69600, 64, 0)] /\
  GET_ALLOC st4 (HDRP 65696) = 0 /\
  NEXT_BLKP st4 65696 = 69600 /\
  GET_ALLOC st4 (HDRP 69600) = 0.
Proof. vm_compute. repeat split; discriminate. Qed.


(** * Further properties *)

(** ** An example heap with allocated and free blocks *)

Ltac blocks_ok :=
  unfold block_ok, MINIMUMSIZE, DSIZE;
  repeat (apply Forall_cons;
          [cbn [fst snd]; split; [lia|split; [reflexivity|auto]]|]);
  apply Forall_nil.

Ltac concrete_layout :=
  constructor;
  [ vm_compute; reflexivity
  | vm_compute; reflexivity
  | split; vm_compute; [discriminate|reflexivity]
  | blocks_ok
  | vm_compute; reflexivity
  | vm_compute; reflexivity
  | vm_compute; repeat split; reflexivity
  | vm_compute; reflexivity ].

Ltac concrete_list := vm_compute; repeat split; try reflexivity; discriminate.

Lemma ex_live_wf :
  wf ex_live [(128, 1); (224, 0); (80, 1); (3664, 0)] [65696; 66000].
Proof.
  split; [split|].
  - concrete_layout.
  - concrete_list.
  - apply Permutation_refl.
Qed.

Lemma ex_live_naf : no_adjacent_free [(128, 1); (224, 0); (80, 1); (3664, 0)].
Proof. cbn. repeat split; intros; discriminate. Qed.

Lemma ex_live_small : mem_max ex_live < heap_lo ex_live + 2 ^ 31.
Proof. vm_compute. reflexivity. Qed.

(** ** Allocated blocks of a run *)

Lemma alloc_bps_app (a b : list block) :
  forall p, alloc_bps p (a ++ b) = alloc_bps p a ++ alloc_bps (p + span a) b.
Proof.
  induction a as [|x a IH]; intros p; cbn [app alloc_bps span].
  - rewrite Z.add_0_r. reflexivity.
  - rewrite IH, Z.add_assoc. destruct (snd x =? 0); reflexivity.
Qed.

Lemma alloc_bps_range (bs : list block) :
  Forall block_ok bs ->
  forall q p s, In (p, s) (alloc_bps q bs) ->
                q <= p /\ p + s <= q + span bs /\ MINIMUMSIZE <= s.
Proof.
  induction 1 as [|b bs Hb Hok IH]; intros q p s Hin; [contradiction|].
  destruct Hb as (Hmin & _). destruct (span_bounds _ Hok) as [Hsp _].
  cbn [alloc_bps span] in *.
  assert (Hrest : In (p, s) (alloc_bps (q + fst b) bs) ->
                  q <= p /\ p + s <= q + (fst b + span bs) /\ MINIMUMSIZE <= s).
  { intros H. destruct (IH _ _ _ H) as (H1 & H2 & H3). unfold MINIMUMSIZE in *. lia. }
  destruct (snd b =? 0); [auto|].
  destruct Hin as [E|Hin]; [|auto].
  injection E as <- <-. lia.
Qed.

Lemma alloc_free_apart (bs : list block) :
  Forall block_ok bs ->
  forall q p s x, In (p, s) (alloc_bps q bs) -> In x (free_bps q bs) ->
                  x + MINIMUMSIZE <= p \/ p + s <= x.
Proof.
  induction 1 as [|b bs Hb Hok IH]; intros q p s x Hin Hx; [contradiction|].
  destruct Hb as (Hmin & _).
  cbn [alloc_bps free_bps] in *.
  destruct (snd b =? 0).
  - destruct Hx as [<-|Hx]; [|eauto].
    destruct (alloc_bps_range _ Hok _ _ _ Hin) as (H1 & _). left.
    unfold MINIMUMSIZE in *. lia.
  - destruct Hin as [E|Hin]; [|eauto].
    injection E as <- <-.
    destruct (free_bps_range _ Hok _ _ Hx) as (H1 & _). right. lia.
Qed.

(** A payload word of a run lies above its first block pointer and is no
    link word of a free block of the run. *)
Lemma payload_word_facts (bs : list block) (q a : Z) :
  Forall block_ok bs -> payload_word (alloc_bps q bs) a ->
  q <= a /\ a < q + span bs - DSIZE /\
  forall x, In x (free_bps q bs) -> a <> x /\ a <> x + WSIZE.
Proof.
  intros Hok (p & s & Hin & Ha).
  destruct (alloc_bps_range _ Hok _ _ _ Hin) as (H1 & H2 & H3).
  split; [lia|]. split; [lia|].
  intros x Hx. destruct (alloc_free_apart _ Hok _ _ _ _ Hin Hx);
    unfold MINIMUMSIZE, WSIZE, DSIZE in *; lia.
Qed.

(** A payload word of the blocks around a run [mid] lies outside of it, tags
    included. *)
Lemma payload_word_outside (bs1 mid bs2 : list block) (q a : Z) :
  Forall block_ok (bs1 ++ mid ++ bs2) ->
  payload_word (alloc_bps q bs1 ++ alloc_bps (q + span bs1 + span mid) bs2) a ->
  q <= a /\
  (a < q + span bs1 - DSIZE \/ q + span bs1 + span mid <= a) /\
  a < q + span bs1 + span mid + span bs2 - DSIZE /\
  forall x, In x (free_bps q bs1 ++ free_bps (q + span bs1 + span mid) bs2) ->
            a <> x /\ a <> x + WSIZE.
Proof.
  intros Hok (p & s & Hin & Ha).
  apply Forall_app in Hok. destruct Hok as [Hok1 Hok].
  apply Forall_app in Hok. destruct Hok as [Hokm Hok2].
  destruct (span_bounds _ Hok1) as [H1 _]. destruct (span_bounds _ Hokm) as [Hm _].
  destruct (span_bounds _ Hok2) as [H2 _].
  assert (Hp : (q <= p /\ p + s <= q + span bs1 /\ MINIMUMSIZE <= s /\
                In (p, s) (alloc_bps q bs1)) \/
               (q + span bs1 + span mid <= p /\
                p + s <= q + span bs1 + span mid + span bs2 /\ MINIMUMSIZE <= s /\
                In (p, s) (alloc_bps (q + span bs1 + span mid) bs2))).
  { apply in_app_or in Hin. destruct Hin as [Hin|Hin].
    - left. destruct (alloc_bps_range _ Hok1 _ _ _ Hin) as (? & ? & ?). auto.
    - right. destruct (alloc_bps_range _ Hok2 _ _ _ Hin) as (? & ? & ?). auto. }
  split; [destruct Hp as [Hp|Hp]; lia|].
  split; [destruct Hp as [Hp|Hp]; [left|right]; lia|].
  split; [destruct Hp as [Hp|Hp]; lia|].
  intros x Hx. apply in_app_or in Hx.
  unfold MINIMUMSIZE, WSIZE, DSIZE in *.
  destruct Hp as [(A1 & A2 & A3 & A4)|(A1 & A2 & A3 & A4)]; destruct Hx as [Hx|Hx].
  - destruct (alloc_free_apart _ Hok1 _ _ _ _ A4 Hx); unfold MINIMUMSIZE in *; lia.
  - destruct (free_bps_range _ Hok2 _ _ Hx) as (? & _). lia.
  - destruct (free_bps_range _ Hok1 _ _ Hx) as (_ & ? & _). unfold MINIMUMSIZE in *. lia.
  - destruct (alloc_free_apart _ Hok2 _ _ _ _ A4 Hx); unfold MINIMUMSIZE in *; lia.
Qed.

(** ** Words that the list routines leave alone *)

Lemma remove_node_frame (st : state) (x : Z) (l1 l2 : list Z) (a : Z) :
  0 < heap_lo st ->
  free_list st NULL (heap_start st) (l1 ++ x :: l2) ->
  Forall (node_ok st) (l1 ++ x :: l2) ->
  a <> heap_lo st ->
  (forall y, In y (l1 ++ l2) -> a <> y /\ a <> y + WSIZE) ->
  mem (remove_node st x) a = mem st a.
Proof.
  intros Hlo Hl Hok Ha Hal.
  destruct (remove_node_list st x l1 l2 Hlo Hl Hok) as [_ Hmem]. rewrite Hmem.
  destruct (Z.eqb_spec a (hd (heap_lo st) l2)) as [E|_].
  { exfalso. destruct l2 as [|y l2]; cbn [hd] in E; [contradiction|].
    destruct (Hal y) as [N _]; [apply in_or_app; right; left; reflexivity|].
    apply N. exact E. }
  destruct (Z.eqb_spec (last l1 NULL) NULL) as [_|N]; [reflexivity|].
  cbn [negb andb].
  destruct (Z.eqb_spec a (last l1 NULL + WSIZE)) as [E|_]; [|reflexivity].
  exfalso. destruct (last_default_or_in l1 NULL) as [E'|Hin]; [contradiction|].
  destruct (Hal (last l1 NULL)) as [_ N']; [apply in_or_app; left; exact Hin|].
  apply N'. exact E.
Qed.

Lemma insert_head_frame (st : state) (l : list Z) (bp a : Z) :
  0 < heap_lo st ->
  free_list st NULL (heap_start st) l -> node_ok st bp ->
  a <> heap_lo st ->
  (forall y, In y l -> a <> y) ->
  a <> bp -> a <> bp + WSIZE ->
  mem (insert_head st bp) a = mem st a.
Proof.
  intros Hlo Hl Hbp Ha Hal H1 H2.
  rewrite insert_head_mem, (node_ok_PADD st bp Hbp Hlo).
  destruct (Z.eqb_spec a bp); [contradiction|].
  destruct (Z.eqb_spec a (bp + WSIZE)); [contradiction|].
  destruct (Z.eqb_spec a (heap_start st)) as [E|_]; [|reflexivity].
  exfalso. rewrite (free_list_hd _ _ _ _ Hl) in E.
  destruct l as [|y l]; cbn [hd] in E; [contradiction|].
  apply (Hal y); [left; reflexivity|exact E].
Qed.

Lemma merge_insert_frame (st : state) (bs1 mid bs2 : list block) (l : list Z)
    (a : Z) :
  let q := first_bp st + span bs1 in
  let S := span mid in
  heap_ok st (bs1 ++ mid ++ bs2) l ->
  mid <> [] ->
  Permutation l (free_bps (first_bp st) bs1 ++ free_bps (q + S) bs2) ->
  a <> heap_lo st ->
  (forall y, In y l -> a <> y /\ a <> y + WSIZE) ->
  a < q - WSIZE \/ q + S - DSIZE < a ->
  let st1 := PUT st (HDRP q) (PACK S 0) in
  let st2 := PUT st1 (FTRP st1 q) (PACK S 0) in
  mem (insert_head st2 q) a = mem st a.
Proof.
  intros q S Hok Hne Hperm Ha Hal Hreg st1 st2.
  pose proof (merge_insert st bs1 mid bs2 l) as Hwf. cbn zeta in Hwf.
  fold q S st1 st2 in Hwf. specialize (Hwf Hok Hne Hperm).
  destruct Hok as [Hlay Hl].
  pose proof (lay_lo _ _ Hlay) as Hlo.
  pose proof (lay_ok _ _ Hlay) as Hok.
  apply Forall_app in Hok. destruct Hok as [Hok1 Hok].
  apply Forall_app in Hok. destruct Hok as [Hokm Hok2].
  pose proof (span_bounds _ Hok1) as [Hsp1 _].
  pose proof (span_bounds _ Hok2) as [Hsp2 _].
  pose proof (span_bounds _ Hokm) as [_ HSm]. fold S in HSm.
  assert (HS : MINIMUMSIZE <= S).
  { unfold S. destruct mid as [|b mid]; [contradiction|].
    pose proof (span_cons_min b mid Hokm). lia. }
  pose proof (lay_brk _ _ Hlay) as Hbrk. rewrite !span_app in Hbrk. fold S in Hbrk.
  pose proof (lay_max _ _ Hlay) as [Hmax1 Hmax2].
  assert (Hq : heap_lo st + 2 * DSIZE <= q /\ q + S <= mem_brk st).
  { unfold q, first_bp in *. lia. }
  unfold MINIMUMSIZE, DSIZE, WSIZE in *.
  assert (E1 : HDRP q = q - 8).
  { unfold HDRP, PSUB, WSIZE. apply wrap64_small. lia. }
  assert (E2 : FTRP st1 q = q + S - 16).
  { unfold FTRP. rewrite E1.
    rewrite (GET_SIZE_PACK st1 (q - 8) S 0); try lia.
    - unfold PADD, DSIZE. rewrite (wrap64_small (S - 16)) by lia.
      rewrite wrap64_small by lia. lia.
    - unfold st1. rewrite E1. cbn [mem PUT set_mem]. apply upd_eq. }
  assert (Em : mem st2 a = mem st a).
  { unfold st2. rewrite E2. unfold st1. rewrite E1. cbn [mem PUT set_mem].
    rewrite !upd_neq by lia. reflexivity. }
  rewrite insert_head_mem.
  assert (Hnode : node_ok st q).
  { destruct Hwf as [[Hlay' _] _]. apply (layout_node_ok _ _ q Hlay').
    change (first_bp (insert_head st2 q)) with (first_bp st).
    rewrite free_bps_app. cbn [free_bps fst snd Z.eqb]. apply in_or_app. right. left.
    reflexivity. }
  change (PADD q WSIZE) with (PADD q 8).
  assert (Ep : PADD q 8 = q + 8).
  { unfold PADD. apply wrap64_small. lia. }
  rewrite Ep.
  destruct (Z.eqb_spec a q); [lia|].
  destruct (Z.eqb_spec a (q + 8)); [lia|].
  destruct (Z.eqb_spec a (heap_start st2)) as [E|_]; [|exact Em].
  exfalso. change (heap_start st2) with (heap_start st) in E.
  rewrite (free_list_hd _ _ _ _ Hl) in E.
  destruct l as [|y l]; cbn [hd] in E; [contradiction|].
  destruct (Hal y) as [N _]; [left; reflexivity|]. apply N. exact E.
Qed.

(** ** Words that [coalesce] leaves alone *)

Lemma coalesce_none_free_frame (st : state) (bs1 : list block) (s : Z)
    (bs2 : list block) (l : list Z) (a : Z) :
  pending st bs1 s bs2 l ->
  snd (last bs1 (OVERHEAD, 1)) = 1 -> snd (hd (0, 1) bs2) = 1 ->
  let bp := first_bp st + span bs1 in
  a <> heap_lo st ->
  (forall y, In y l -> a <> y /\ a <> y + WSIZE) ->
  a < bp - WSIZE \/ bp + s - DSIZE < a ->
  mem (snd (coalesce st bp)) a = mem st a.
Proof.
  intros Hpend Hprev Hnext bp Ha Hal Hreg.
  destruct (pending_sub _ _ _ _ _ Hpend) as (Hsub & Hbp & Hnin & Hperm).
  destruct Hpend as [[Hlay Hl] _].
  destruct (layout_reads _ _ _ _ Hlay) as
    (_ & _ & _ & _ & _ & _ & _ & Epa & _ & _ & _ & Ena).
  destruct (layout_at _ _ _ _ Hlay) as ((Hmin & _) & _).
  fold bp in Epa, Ena, Hbp, Hnin, Hperm.
  unfold coalesce. rewrite Epa, Ena, Hprev, Hnext. cbn [Z.eqb negb andb fst snd].
  apply (insert_head_frame st l bp a (lay_lo _ _ Hlay) Hl); auto.
  - apply (layout_node_ok st _ bp Hlay Hbp).
  - intros y Hy. apply (Hal y Hy).
  - cbn [fst] in Hmin. unfold MINIMUMSIZE, WSIZE, DSIZE in *. lia.
  - cbn [fst] in Hmin. unfold MINIMUMSIZE, WSIZE, DSIZE in *. lia.
Qed.

Lemma coalesce_next_free_frame (st : state) (bs1 : list block) (s sn : Z)
    (bs2 : list block) (l : list Z) (a : Z) :
  pending st bs1 s ((sn, 0) :: bs2) l ->
  snd (last bs1 (OVERHEAD, 1)) = 1 ->
  let bp := first_bp st + span bs1 in
  a <> heap_lo st ->
  (forall y, In y l -> a <> y /\ a <> y + WSIZE) ->
  a < bp - WSIZE \/ bp + (s + sn) - DSIZE < a ->
  mem (snd (coalesce st bp)) a = mem st a.
Proof.
  intros Hpend Hprev bp Ha Hal Hreg.
  destruct (pending_sub _ _ _ _ _ Hpend) as (Hsub & _).
  destruct Hpend as [[Hlay Hl] Hperm].
  destruct (layout_reads _ _ _ _ Hlay) as
    (_ & _ & Es & _ & En & _ & _ & Epa & _ & _ & Ens & Ena).
  destruct (layout_at _ _ _ _ Hlay) as (_ & Hlo & Hend & Hsp2 & Hbrk & _).
  pose proof (lay_ok _ _ Hlay) as Hok.
  apply Forall_app in Hok. destruct Hok as [Hok1 Hok].
  apply Forall_cons_iff in Hok. destruct Hok as [(Hs & _) Hok].
  apply Forall_cons_iff in Hok. destruct Hok as [(Hsn & _) Hok2].
  pose proof (span_bounds _ Hok2) as [Hsp2' _].
  fold bp in Es, En, Epa, Ens, Ena, Hlo, Hend. cbn [fst snd hd span] in *.
  fold bp in Hperm. cbn [free_bps fst snd Z.eqb] in Hperm.
  assert (Hin : In (bp + s) l).
  { apply (Permutation_in _ (Permutation_sym Hperm)). apply in_or_app. right. left.
    reflexivity. }
  apply in_split in Hin. destruct Hin as (l1 & l2 & ->).
  assert (Hnodes : Forall (node_ok st) (l1 ++ (bp + s) :: l2)).
  { apply (free_list_nodes_ok st _ _ Hlay Hsub). }
  assert (Hal' : forall y, In y (l1 ++ l2) -> a <> y /\ a <> y + WSIZE).
  { intros y Hy. apply Hal. apply in_app_or in Hy. apply in_or_app.
    destruct Hy; [left|right; right]; assumption. }
  assert (Hok1' : heap_ok (remove_node st (bp + s)) (bs1 ++ (s, 0) :: (sn, 0) :: bs2)
                    (l1 ++ l2)).
  { apply remove_node_ok; [split; assumption|exact Hsub]. }
  destruct (remove_node_fields st (bp + s)) as (Elo & _).
  assert (Efb : first_bp (remove_node st (bp + s)) = first_bp st).
  { unfold first_bp. rewrite Elo. reflexivity. }
  pose proof (merge_insert_frame (remove_node st (bp + s)) bs1 [(s, 0); (sn, 0)] bs2
                (l1 ++ l2) a) as Hmerge.
  cbn zeta in Hmerge. rewrite Efb in Hmerge. fold bp in Hmerge.
  cbn [span fst app] in Hmerge. rewrite Z.add_0_r in Hmerge.
  pose proof (lay_lo _ _ Hlay) as Hlo0.
  unfold coalesce. rewrite Epa, Ena, Hprev, Ens, En, Es.
  cbn [Z.eqb negb andb fst snd].
  unfold MINIMUMSIZE, DSIZE in *.
  rewrite (wrap64_small (s + sn)) by lia.
  rewrite Hmerge; auto.
  - apply (remove_node_frame st (bp + s) l1 l2 a Hlo0 Hl Hnodes Ha Hal').
  - discriminate.
  - apply (Permutation_app_inv l1 l2 _ _ (bp + s)).
    rewrite Z.add_assoc. exact Hperm.
  - rewrite Elo. exact Ha.
Qed.

Lemma coalesce_prev_free_frame (st : state) (bs1 : list block) (sp s : Z)
    (bs2 : list block) (l : list Z) (a : Z) :
  pending st (bs1 ++ [(sp, 0)]) s bs2 l ->
  snd (hd (0, 1) bs2) = 1 ->
  let q := first_bp st + span bs1 in
  a <> heap_lo st ->
  (forall y, In y l -> a <> y /\ a <> y + WSIZE) ->
  a < q - WSIZE \/ q + (sp + s) - DSIZE < a ->
  mem (snd (coalesce st (q + sp))) a = mem st a.
Proof.
  intros Hpend Hnext q Ha Hal Hreg.
  destruct (pending_sub _ _ _ _ _ Hpend) as (Hsub & _).
  destruct Hpend as [[Hlay Hl] Hperm].
  assert (Ebp : first_bp st + span (bs1 ++ [(sp, 0)]) = q + sp).
  { rewrite span_app. cbn [span fst]. unfold q. lia. }
  destruct (layout_reads _ _ _ _ Hlay) as
    (_ & _ & Es & _ & _ & _ & _ & Epa & Ep & _ & _ & Ena).
  rewrite Ebp, ?last_last in *. cbn [fst snd] in *.
  replace (q + sp - sp) with q in Ep by lia.
  rewrite <- app_assoc in Hlay, Hsub. cbn [app] in Hlay, Hsub.
  destruct (layout_reads _ _ _ _ Hlay) as (_ & _ & Esp & _).
  destruct (layout_at _ _ _ _ Hlay) as (_ & Hlo & Hend & Hsp2 & Hbrk & _).
  pose proof (lay_lo _ _ Hlay) as Hlo0.
  pose proof (lay_ok _ _ Hlay) as Hok.
  apply Forall_app in Hok. destruct Hok as [Hok1 Hok].
  apply Forall_cons_iff in Hok. destruct Hok as [(Hsp & _) Hok].
  apply Forall_cons_iff in Hok. destruct Hok as [(Hs & _) Hok2].
  pose proof (span_bounds _ Hok2) as [Hsp2' _].
  fold q in Esp, Hlo, Hend. cbn [fst snd hd span] in *.
  rewrite free_bps_app in Hperm. cbn [free_bps fst snd Z.eqb] in Hperm.
  fold q in Hperm. rewrite <- app_assoc in Hperm. cbn [app] in Hperm.
  assert (Hin : In q l).
  { apply (Permutation_in _ (Permutation_sym Hperm)). apply in_or_app. right. left.
    reflexivity. }
  apply in_split in Hin. destruct Hin as (l1 & l2 & ->).
  assert (Hnodes : Forall (node_ok st) (l1 ++ q :: l2)).
  { apply (free_list_nodes_ok st _ _ Hlay Hsub). }
  assert (Hal' : forall y, In y (l1 ++ l2) -> a <> y /\ a <> y + WSIZE).
  { intros y Hy. apply Hal. apply in_app_or in Hy. apply in_or_app.
    destruct Hy; [left|right; right]; assumption. }
  assert (Hok1' : heap_ok (remove_node st q) (bs1 ++ (sp, 0) :: (s, 0) :: bs2)
                    (l1 ++ l2)).
  { apply remove_node_ok; [split; assumption|exact Hsub]. }
  destruct (remove_node_fields st q) as (Elo & _).
  assert (Efb : first_bp (remove_node st q) = first_bp st).
  { unfold first_bp. rewrite Elo. reflexivity. }
  pose proof (merge_insert_frame (remove_node st q) bs1 [(sp, 0); (s, 0)] bs2
                (l1 ++ l2) a) as Hmerge.
  cbn zeta in Hmerge. rewrite Efb in Hmerge. fold q in Hmerge.
  cbn [span fst app] in Hmerge. rewrite Z.add_0_r in Hmerge.
  unfold coalesce. rewrite Epa, Ena, Hnext, Ep, Esp, Es.
  cbn [Z.eqb negb andb fst snd].
  unfold MINIMUMSIZE, DSIZE in *.
  rewrite (wrap64_small (s + sp)) by lia. rewrite (Z.add_comm s sp).
  rewrite Hmerge; auto.
  - apply (remove_node_frame st q l1 l2 a Hlo0 Hl Hnodes Ha Hal').
  - discriminate.
  - apply (Permutation_app_inv l1 l2 _ _ q).
    replace (q + (sp + s)) with (q + sp + s) by lia. exact Hperm.
  - rewrite Elo. exact Ha.
Qed.

Lemma coalesce_both_free_frame (st : state) (bs1 : list block) (sp s sn : Z)
    (bs2 : list block) (l : list Z) (a : Z) :
  pending st (bs1 ++ [(sp, 0)]) s ((sn, 0) :: bs2) l ->
  let q := first_bp st + span bs1 in
  a <> heap_lo st ->
  (forall y, In y l -> a <> y /\ a <> y + WSIZE) ->
  a < q - WSIZE \/ q + (sp + s + sn) - DSIZE < a ->
  mem (snd (coalesce st (q + sp))) a = mem st a.
Proof.
  intros Hpend q Ha Hal Hreg.
  destruct (pending_sub _ _ _ _ _ Hpend) as (Hsub & _).
  destruct Hpend as [[Hlay Hl] Hperm].
  assert (Ebp : first_bp st + span (bs1 ++ [(sp, 0)]) = q + sp).
  { rewrite span_app. cbn [span fst]. unfold q. lia. }
  destruct (layout_reads _ _ _ _ Hlay) as
    (_ & _ & Es & _ & En & _ & Eps & Epa & Ep & _ & Ens & Ena).
  rewrite Ebp, ?last_last in *. cbn [fst snd hd] in *.
  replace (q + sp - sp) with q in Ep by lia.
  rewrite <- app_assoc in Hlay, Hsub. cbn [app] in Hlay, Hsub.
  destruct (layout_reads _ _ _ _ Hlay) as (_ & _ & Esp & _).
  destruct (layout_at _ _ _ _ Hlay) as (_ & Hlo & Hend & Hsp2 & Hbrk & _).
  pose proof (lay_lo _ _ Hlay) as Hlo0.
  pose proof (lay_ok _ _ Hlay) as Hok.
  apply Forall_app in Hok. destruct Hok as [Hok1 Hok].
  apply Forall_cons_iff in Hok. destruct Hok as [(Hsp & _) Hok].
  apply Forall_cons_iff in Hok. destruct Hok as [(Hs & _) Hok].
  apply Forall_cons_iff in Hok. destruct Hok as [(Hsn & _) Hok2].
  pose proof (span_bounds _ Hok2) as [Hsp2' _].
  fold q in Esp, Hlo, Hend. cbn [fst snd hd span] in *.
  rewrite free_bps_app in Hperm. cbn [free_bps fst snd Z.eqb] in Hperm.
  fold q in Hperm. rewrite <- app_assoc in Hperm. cbn [app] in Hperm.
  assert (Hin : In q l).
  { apply (Permutation_in _ (Permutation_sym Hperm)). apply in_or_app. right. left.
    reflexivity. }
  apply in_split in Hin. destruct Hin as (l1 & l2 & ->).
  assert (Hperm1 : Permutation (l1 ++ l2)
                     (free_bps (first_bp st) bs1 ++
                      (q + sp + s) :: free_bps (q + sp + s + sn) bs2)).
  { apply (Permutation_app_inv l1 l2 _ _ q). exact Hperm. }
  assert (Hin : In (q + sp + s) (l1 ++ l2)).
  { apply (Permutation_in _ (Permutation_sym Hperm1)). apply in_or_app. right. left.
    reflexivity. }
  apply in_split in Hin. destruct Hin as (l4 & l5 & E45).
  assert (Hnodes : Forall (node_ok st) (l1 ++ q :: l2)).
  { apply (free_list_nodes_ok st _ _ Hlay Hsub). }
  assert (Hal' : forall y, In y (l1 ++ l2) -> a <> y /\ a <> y + WSIZE).
  { intros y Hy. apply Hal. apply in_app_or in Hy. apply in_or_app.
    destruct Hy; [left|right; right]; assumption. }
  assert (Hal'' : forall y, In y (l4 ++ l5) -> a <> y /\ a <> y + WSIZE).
  { intros y Hy. apply Hal'. rewrite E45. apply in_app_or in Hy. apply in_or_app.
    destruct Hy; [left|right; right]; assumption. }
  assert (Hok1' : heap_ok (remove_node st q)
                    (bs1 ++ (sp, 0) :: (s, 0) :: (sn, 0) :: bs2) (l1 ++ l2)).
  { apply remove_node_ok; [split; assumption|exact Hsub]. }
  destruct (remove_node_fields st q) as (Elo & _).
  assert (Efb : first_bp (remove_node st q) = first_bp st).
  { unfold first_bp. rewrite Elo. reflexivity. }
  destruct Hok1' as [Hlay1 Hl1].
  assert (Hlay1' : layout (remove_node st q)
                     ((bs1 ++ [(sp, 0)]) ++ (s, 0) :: (sn, 0) :: bs2)).
  { rewrite <- app_assoc. exact Hlay1. }
  destruct (layout_reads _ _ _ _ Hlay1') as (_ & _ & _ & _ & En1 & _).
  rewrite Efb, Ebp in En1. cbn [fst] in En1.
  rewrite E45 in Hl1.
  assert (Hsub1 : forall y, In y (l4 ++ (q + sp + s) :: l5) ->
             In y (free_bps (first_bp (remove_node st q))
                     (bs1 ++ (sp, 0) :: (s, 0) :: (sn, 0) :: bs2))).
  { intros y Hy. rewrite Efb. apply Hsub. rewrite <- E45 in Hy.
    apply in_app_or in Hy. apply in_or_app. destruct Hy; [left|right; right]; auto. }
  assert (Hnodes1 : Forall (node_ok (remove_node st q)) (l4 ++ (q + sp + s) :: l5)).
  { apply (free_list_nodes_ok _ _ _ Hlay1 Hsub1). }
  assert (Hok2' : heap_ok (remove_node (remove_node st q) (q + sp + s))
                    (bs1 ++ (sp, 0) :: (s, 0) :: (sn, 0) :: bs2) (l4 ++ l5)).
  { apply remove_node_ok; [split; assumption|exact Hsub1]. }
  destruct (remove_node_fields (remove_node st q) (q + sp + s)) as (Elo2 & _).
  assert (Efb2 : first_bp (remove_node (remove_node st q) (q + sp + s)) = first_bp st).
  { unfold first_bp. rewrite Elo2, Elo. reflexivity. }
  destruct Hok2' as [Hlay2 Hl2].
  assert (Hlay2' : layout (remove_node (remove_node st q) (q + sp + s))
                     ((bs1 ++ [(sp, 0)]) ++ (s, 0) :: (sn, 0) :: bs2)).
  { rewrite <- app_assoc. exact Hlay2. }
  destruct (layout_reads _ _ _ _ Hlay2') as (_ & _ & _ & _ & _ & _ & _ & _ & Ep2 & _).
  rewrite Efb2, Ebp, last_last in Ep2. cbn [fst] in Ep2.
  replace (q + sp - sp) with q in Ep2 by lia.
  pose proof (merge_insert_frame (remove_node (remove_node st q) (q + sp + s)) bs1
                [(sp, 0); (s, 0); (sn, 0)] bs2 (l4 ++ l5) a) as Hmerge.
  cbn zeta in Hmerge. rewrite Efb2 in Hmerge. fold q in Hmerge.
  cbn [span fst app] in Hmerge. rewrite Z.add_0_r in Hmerge.
  unfold coalesce. rewrite Epa, Ena, Ep, Esp, Ens, Es, En, En1, Ep2.
  cbn [Z.eqb negb andb fst snd].
  unfold MINIMUMSIZE, DSIZE in *.
  rewrite (wrap64_small (sp + sn)) by lia.
  rewrite (wrap64_small (s + (sp + sn))) by lia.
  replace (s + (sp + sn)) with (sp + (s + sn)) by lia.
  replace (sp + s + sn) with (sp + (s + sn)) in Hreg by lia.
  rewrite Hmerge; auto.
  - rewrite (remove_node_frame (remove_node st q) (q + sp + s) l4 l5 a); auto.
    + apply (remove_node_frame st q l1 l2 a Hlo0 Hl Hnodes Ha Hal').
    + rewrite Elo. exact Hlo0.
    + rewrite Elo. exact Ha.
  - split; assumption.
  - discriminate.
  - apply (Permutation_app_inv l4 l5 _ _ (q + sp + s)).
    rewrite <- E45.
    replace (q + (sp + (s + sn))) with (q + sp + s + sn) by lia. exact Hperm1.
  - rewrite Elo2, Elo. exact Ha.
Qed.

(** ** Blocks and payloads after [coalesce] and [mm_free] *)

Lemma prev_free_shape (bs1 : list block) :
  snd (last bs1 (OVERHEAD, 1)) = 0 ->
  exists bs0 sp, bs1 = bs0 ++ [(sp, 0)].
Proof.
  intros H. exists (removelast bs1), (fst (last bs1 (OVERHEAD, 1))).
  apply prev_free_split. exact H.
Qed.

Lemma next_free_shape (bs2 : list block) :
  snd (hd (0, 1) bs2) = 0 -> exists sn bs3, bs2 = (sn, 0) :: bs3.
Proof.
  intros H. exists (fst (hd (0, 1) bs2)), (tl bs2). apply next_free_split. exact H.
Qed.

(** What [coalesce] does to the blocks, to the free list and to the payloads
    of the allocated blocks. *)
Lemma coalesce_live (st : state) (bs1 : list block) (s : Z) (bs2 : list block)
    (l : list Z) :
  pending st bs1 s bs2 l ->
  let bp := first_bp st + span bs1 in
  let bp' := fst (coalesce st bp) in
  let st' := snd (coalesce st bp) in
  exists bs1' S bs2' l',
    wf st' (bs1' ++ (S, 0) :: bs2') (bp' :: l') /\
    bp' = first_bp st + span bs1' /\
    bp' <= bp /\ bp + s <= bp' + S /\
    (snd (last bs1 (OVERHEAD, 1)) = 1 -> bp' = bp) /\
    (snd (last bs1 (OVERHEAD, 1)) = 1 -> snd (hd (0, 1) bs2) = 1 ->
     bs1' = bs1 /\ S = s /\ bs2' = bs2 /\ l' = l) /\
    (bs2 = [] -> bs2' = []) /\
    bs1' ++ (S, 0) :: bs2' = freed_blocks bs1 s bs2 /\
    alloc_bps (first_bp st) (bs1' ++ (S, 0) :: bs2') =
      alloc_bps (first_bp st) bs1 ++ alloc_bps (bp + s) bs2 /\
    span (bs1' ++ (S, 0) :: bs2') = span bs1 + s + span bs2 /\
    (no_adjacent_free bs1 -> no_adjacent_free bs2 ->
     no_adjacent_free (bs1' ++ (S, 0) :: bs2')) /\
    (forall a, payload_word (alloc_bps (first_bp st) bs1 ++
                             alloc_bps (bp + s) bs2) a ->
               mem st' a = mem st a).
Proof.
  intros Hpend bp bp' st'.
  pose proof Hpend as [[Hlay _] Hperm0].
  pose proof (lay_lo _ _ Hlay) as Hlo.
  pose proof (lay_ok _ _ Hlay) as Hok.
  pose proof Hok as Hok0.
  apply Forall_app in Hok. destruct Hok as [Hok1 Hok2].
  apply Forall_cons_iff in Hok2. destruct Hok2 as [(Hs & _) Hok2]. cbn [fst] in Hs.
  assert (Hpf : snd (last bs1 (OVERHEAD, 1)) = 0 \/ snd (last bs1 (OVERHEAD, 1)) = 1).
  { apply (flag_cases bs1 (OVERHEAD, 1)); auto. apply last_default_or_in. }
  assert (Hnf : snd (hd (0, 1) bs2) = 0 \/ snd (hd (0, 1) bs2) = 1).
  { apply (flag_cases bs2 (0, 1)); auto. apply hd_default_or_in. }
  assert (Hlist : forall a,
             payload_word (alloc_bps (first_bp st) bs1 ++ alloc_bps (bp + s) bs2) a ->
             a <> heap_lo st /\ forall y, In y l -> a <> y /\ a <> y + WSIZE).
  { intros a Ha.
    destruct (payload_word_outside bs1 [(s, 0)] bs2 (first_bp st) a) as (A1 & _ & _ & A4).
    - exact Hok0.
    - cbn [span fst]. rewrite Z.add_0_r. exact Ha.
    - split; [unfold first_bp, DSIZE in A1; lia|].
      intros y Hy. apply A4. cbn [span fst]. rewrite Z.add_0_r.
      apply (Permutation_in _ Hperm0 Hy). }
  destruct Hpf as [Hp|Hp]; destruct Hnf as [Hn|Hn].
  - (* both neighbours free *)
    destruct (prev_free_shape bs1 Hp) as (bs0 & sp & ->).
    destruct (next_free_shape bs2 Hn) as (sn & bs3 & ->).
    assert (Ebp : bp = first_bp st + span bs0 + sp).
    { unfold bp. rewrite span_app. cbn [span fst]. lia. }
    assert (Hsp : MINIMUMSIZE <= sp /\ MINIMUMSIZE <= sn).
    { apply Forall_app in Hok1. destruct Hok1 as [_ H1].
      apply Forall_cons_iff in H1. destruct H1 as [(H1 & _) _].
      apply Forall_cons_iff in Hok2. destruct Hok2 as [(H2 & _) _]. auto. }
    destruct (coalesce_both_free _ _ _ _ _ _ _ Hpend)
      as (l1 & l2 & l3 & Hp3 & _ & _ & Hfst & Hwf).
    rewrite <- Ebp in Hfst, Hwf. fold bp' in Hfst. fold st' in Hwf.
    exists bs0, (sp + s + sn), bs3, l3.
    rewrite Hfst. split; [exact Hwf|]. split; [reflexivity|].
    unfold MINIMUMSIZE in *. split; [lia|]. split; [lia|].
    rewrite last_last in *. cbn [snd] in *.
    split; [intros; discriminate|]. split; [intros; discriminate|].
    split; [intros; discriminate|].
    split.
    { unfold freed_blocks. rewrite last_last, removelast_last.
      cbn [fst snd hd tl Z.eqb]. reflexivity. }
    split.
    { rewrite !alloc_bps_app. cbn [alloc_bps fst snd Z.eqb span]. rewrite app_nil_r.
      f_equal. f_equal. lia. }
    split; [rewrite !span_app; cbn [span fst]; lia|].
    split.
    { intros N1 N2.
      apply naf_app in N1. destruct N1 as (N1 & _ & N1').
      cbn [no_adjacent_free hd snd] in N2. destruct N2 as [N2 N2'].
      apply naf_app. split; [exact N1|]. cbn [no_adjacent_free snd].
      split; [auto|]. intros H _. apply N1'; auto. }
    intros a Ha. destruct (Hlist a Ha) as [Ha1 Ha2].
    pose proof (coalesce_both_free_frame st bs0 sp s sn bs3 l a Hpend) as Hf.
    cbn zeta in Hf. rewrite <- Ebp in Hf. apply Hf; auto.
    destruct (payload_word_outside bs0 [(sp, 0); (s, 0); (sn, 0)] bs3 (first_bp st) a)
      as (_ & A2 & _).
    + rewrite <- app_assoc in Hok0. exact Hok0.
    + cbn [span fst]. rewrite !alloc_bps_app in Ha.
      cbn [alloc_bps fst snd Z.eqb span] in Ha. rewrite app_nil_r in Ha.
      replace (first_bp st + span bs0 + (sp + (s + (sn + 0))))
        with (bp + s + sn) by lia. exact Ha.
    + cbn [span fst] in A2. unfold WSIZE, DSIZE in *. lia.
  - (* only the previous block is free *)
    destruct (prev_free_shape bs1 Hp) as (bs0 & sp & ->).
    assert (Ebp : bp = first_bp st + span bs0 + sp).
    { unfold bp. rewrite span_app. cbn [span fst]. lia. }
    assert (Hsp : MINIMUMSIZE <= sp).
    { apply Forall_app in Hok1. destruct Hok1 as [_ H1].
      apply Forall_cons_iff in H1. destruct H1 as [(H1 & _) _]. auto. }
    destruct (coalesce_prev_free _ _ _ _ _ _ Hpend Hn) as (l1 & l2 & El & Hfst & Hwf).
    rewrite <- Ebp in Hfst, Hwf. fold bp' in Hfst. fold st' in Hwf.
    exists bs0, (sp + s), bs2, (l1 ++ l2).
    rewrite Hfst. split; [exact Hwf|]. split; [reflexivity|].
    unfold MINIMUMSIZE in *. split; [lia|]. split; [lia|].
    rewrite last_last in *. cbn [snd] in *.
    split; [intros; discriminate|]. split; [intros; discriminate|].
    split; [auto|].
    split.
    { unfold freed_blocks. rewrite last_last, removelast_last, Hn.
      cbn [fst snd Z.eqb]. rewrite Z.add_0_r. reflexivity. }
    split.
    { rewrite !alloc_bps_app. cbn [alloc_bps fst snd Z.eqb span]. rewrite app_nil_r.
      f_equal. f_equal. lia. }
    split; [rewrite !span_app; cbn [span fst]; lia|].
    split.
    { intros N1 N2.
      apply naf_app in N1. destruct N1 as (N1 & _ & N1').
      apply naf_app. split; [exact N1|]. cbn [no_adjacent_free snd].
      split; [split; [intros _; lia|exact N2]|]. intros H _. apply N1'; auto. }
    intros a Ha. destruct (Hlist a Ha) as [Ha1 Ha2].
    pose proof (coalesce_prev_free_frame st bs0 sp s bs2 l a Hpend Hn) as Hf.
    cbn zeta in Hf. rewrite <- Ebp in Hf. apply Hf; auto.
    destruct (payload_word_outside bs0 [(sp, 0); (s, 0)] bs2 (first_bp st) a)
      as (_ & A2 & _).
    + rewrite <- app_assoc in Hok0. exact Hok0.
    + cbn [span fst]. rewrite !alloc_bps_app in Ha.
      cbn [alloc_bps fst snd Z.eqb span] in Ha. rewrite app_nil_r in Ha.
      replace (first_bp st + span bs0 + (sp + (s + 0))) with (bp + s) by lia.
      exact Ha.
    + cbn [span fst] in A2. unfold WSIZE, DSIZE in *. lia.
  - (* only the next block is free *)
    destruct (next_free_shape bs2 Hn) as (sn & bs3 & ->).
    assert (Hsn : MINIMUMSIZE <= sn).
    { apply Forall_cons_iff in Hok2. destruct Hok2 as [(H2 & _) _]. auto. }
    destruct (coalesce_next_free _ _ _ _ _ _ Hpend Hp) as (l1 & l2 & El & Hfst & Hwf).
    fold bp in Hfst, Hwf. fold bp' in Hfst. fold st' in Hwf.
    exists bs1, (s + sn), bs3, (l1 ++ l2).
    rewrite Hfst. split; [exact Hwf|]. split; [reflexivity|].
    unfold MINIMUMSIZE in *. split; [lia|]. split; [lia|].
    split; [reflexivity|]. cbn [hd snd].
    split; [intros; discriminate|]. split; [intros; discriminate|].
    split.
    { unfold freed_blocks. rewrite Hp. cbn [fst snd hd tl Z.eqb]. reflexivity. }
    split.
    { rewrite !alloc_bps_app. cbn [alloc_bps fst snd Z.eqb span].
      f_equal. f_equal; fold bp; lia. }
    split; [rewrite !span_app; cbn [span fst]; lia|].
    split.
    { intros N1 N2.
      cbn [no_adjacent_free hd snd] in N2. destruct N2 as [N2 N2'].
      apply naf_app. split; [exact N1|]. cbn [no_adjacent_free snd].
      split; [auto|]. intros H. lia. }
    intros a Ha. destruct (Hlist a Ha) as [Ha1 Ha2].
    pose proof (coalesce_next_free_frame st bs1 s sn bs3 l a Hpend Hp) as Hf.
    cbn zeta in Hf. fold bp in Hf. apply Hf; auto.
    destruct (payload_word_outside bs1 [(s, 0); (sn, 0)] bs3 (first_bp st) a)
      as (_ & A2 & _).
    + exact Hok0.
    + cbn [span fst]. cbn [alloc_bps fst snd Z.eqb] in Ha. fold bp.
      replace (bp + (s + (sn + 0))) with (bp + s + sn) by lia. exact Ha.
    + cbn [span fst] in A2. fold bp in A2. unfold WSIZE, DSIZE in *. lia.
  - (* both neighbours allocated *)
    destruct (coalesce_none_free _ _ _ _ _ Hpend Hp Hn) as (Hfst & Hwf).
    fold bp in Hfst, Hwf. fold bp' in Hfst. fold st' in Hwf.
    exists bs1, s, bs2, l.
    rewrite Hfst. split; [exact Hwf|]. split; [reflexivity|].
    split; [lia|]. split; [lia|]. split; [reflexivity|]. split; [auto|].
    split; [auto|].
    split.
    { unfold freed_blocks. rewrite Hp, Hn. cbn [Z.eqb]. rewrite Z.add_0_r.
      reflexivity. }
    split.
    { rewrite !alloc_bps_app. cbn [alloc_bps fst snd Z.eqb span]. reflexivity. }
    split; [rewrite !span_app; cbn [span fst]; lia|].
    split.
    { intros N1 N2. apply naf_app. split; [exact N1|]. cbn [no_adjacent_free snd].
      split; [split; [intros _; lia|exact N2]|]. intros H. lia. }
    intros a Ha. destruct (Hlist a Ha) as [Ha1 Ha2].
    pose proof (coalesce_none_free_frame st bs1 s bs2 l a Hpend Hp Hn) as Hf.
    cbn zeta in Hf. fold bp in Hf. apply Hf; auto.
    destruct (payload_word_outside bs1 [(s, 0)] bs2 (first_bp st) a)
      as (_ & A2 & _).
    + exact Hok0.
    + cbn [span fst]. fold bp. rewrite Z.add_0_r. exact Ha.
    + cbn [span fst] in A2. fold bp in A2. unfold WSIZE, DSIZE in *. lia.
Qed.

(** What [mm_free] does to the blocks, to the free list and to the payloads
    of the other allocated blocks. *)
Lemma mm_free_live (st : state) (bs1 : list block) (s : Z) (bs2 : list block)
    (l : list Z) :
  wf st (bs1 ++ (s, 1) :: bs2) l ->
  let bp := first_bp st + span bs1 in
  let st' := mm_free st bp in
  exists bs1' S bs2' l',
    wf st' (bs1' ++ (S, 0) :: bs2') (heap_start st' :: l') /\
    heap_start st' = first_bp st + span bs1' /\
    heap_start st' <= bp /\ bp + s <= heap_start st' + S /\
    (snd (last bs1 (OVERHEAD, 1)) = 1 -> heap_start st' = bp) /\
    (snd (last bs1 (OVERHEAD, 1)) = 1 -> snd (hd (0, 1) bs2) = 1 ->
     bs1' = bs1 /\ S = s /\ bs2' = bs2 /\ l' = l) /\
    bs1' ++ (S, 0) :: bs2' = freed_blocks bs1 s bs2 /\
    alloc_bps (first_bp st) (bs1' ++ (S, 0) :: bs2') =
      alloc_bps (first_bp st) bs1 ++ alloc_bps (bp + s) bs2 /\
    span (bs1' ++ (S, 0) :: bs2') = span (bs1 ++ (s, 1) :: bs2) /\
    (no_adjacent_free (bs1 ++ (s, 1) :: bs2) ->
     no_adjacent_free (bs1' ++ (S, 0) :: bs2')) /\
    (forall a, payload_word (alloc_bps (first_bp st) bs1 ++
                             alloc_bps (bp + s) bs2) a ->
               mem st' a = mem st a) /\
    heap_lo st' = heap_lo st /\ mem_brk st' = mem_brk st /\ mem_max st' = mem_max st.
Proof.
  intros Hwf bp st'.
  pose proof (mm_free_pending st bs1 s bs2 l Hwf) as Hpend. cbn zeta in Hpend.
  fold bp in Hpend.
  destruct Hwf as [[Hlay _] _].
  destruct (layout_reads _ _ _ _ Hlay) as (Eh & _ & Es & _ & _ & _).
  destruct (layout_at _ _ _ _ Hlay) as ((Hmin & Hmod & _) & Hbp & Hend & Hsp2 & Hbrk & _).
  pose proof (lay_lo _ _ Hlay) as Hlo.
  pose proof (lay_ok _ _ Hlay) as Hok.
  fold bp in Eh, Es, Hbp, Hend. cbn [fst snd] in *.
  set (st1 := PUT st (HDRP bp) (PACK (GET_SIZE st (HDRP bp)) 0)) in *.
  assert (Es1 : GET_SIZE st1 (HDRP bp) = s).
  { apply (GET_SIZE_PACK st1 _ s 0); unfold MINIMUMSIZE, DSIZE in *; try lia.
    unfold st1. rewrite Es. cbn [mem PUT set_mem]. apply upd_eq. }
  assert (Ef1 : FTRP st1 bp = bp + s - DSIZE).
  { unfold FTRP. rewrite Es1. unfold PADD, MINIMUMSIZE, DSIZE in *.
    rewrite (wrap64_small (s - 16)) by lia. rewrite wrap64_small by lia. lia. }
  set (sta := PUT st1 (FTRP st1 bp) (PACK (GET_SIZE st (HDRP bp)) 0)) in *.
  assert (Efree : st' = snd (coalesce sta bp)) by reflexivity.
  assert (Em : forall a, a <> bp - WSIZE -> a <> bp + s - DSIZE -> mem sta a = mem st a).
  { intros a H1 H2. unfold sta. rewrite Ef1. unfold st1. rewrite Eh.
    cbn [mem PUT set_mem]. rewrite !upd_neq by assumption. reflexivity. }
  pose proof (coalesce_live sta bs1 s bs2 l Hpend) as H. cbn zeta in H.
  change (first_bp sta) with (first_bp st) in H. fold bp in H. rewrite <- Efree in H.
  destruct H as (bs1' & S & bs2' & l' & Hwf' & E1 & E2 & E3 & E4 & E5 & _ & Esh & E6 & E7 & E8 & E9).
  assert (Ehs : heap_start st' = fst (coalesce sta bp)).
  { destruct Hwf' as [[_ Hl'] _]. cbn [free_list] in Hl'. destruct Hl' as (E & _).
    exact E. }
  rewrite <- Ehs in *.
  exists bs1', S, bs2', l'.
  split; [exact Hwf'|]. split; [exact E1|]. split; [exact E2|]. split; [exact E3|].
  split; [exact E4|]. split; [exact E5|]. split; [exact Esh|]. split; [exact E6|].
  split; [rewrite E7, span_app; cbn [span fst]; lia|].
  split.
  { intros N. apply naf_app in N. destruct N as (N1 & N2 & _).
    cbn [no_adjacent_free] in N2. destruct N2 as [_ N2]. apply E8; assumption. }
  split.
  { intros a Ha. rewrite (E9 a Ha). apply Em.
    - destruct (payload_word_outside bs1 [(s, 1)] bs2 (first_bp st) a) as (_ & A2 & _).
      + exact Hok.
      + cbn [span fst]. rewrite Z.add_0_r. exact Ha.
      + cbn [span fst] in A2. fold bp in A2. unfold MINIMUMSIZE, WSIZE, DSIZE in *. lia.
    - destruct (payload_word_outside bs1 [(s, 1)] bs2 (first_bp st) a) as (_ & A2 & _).
      + exact Hok.
      + cbn [span fst]. rewrite Z.add_0_r. exact Ha.
      + cbn [span fst] in A2. fold bp in A2. unfold MINIMUMSIZE, WSIZE, DSIZE in *. lia. }
  rewrite Efree. destruct (coalesce_fields sta bp) as (-> & -> & ->).
  repeat split; reflexivity.
Qed.

(** ** Words that [place] leaves alone *)

Lemma place_frame (st : state) (bs1 : list block) (s : Z) (bs2 : list block)
    (l : list Z) (asize a : Z) :
  wf st (bs1 ++ (s, 0) :: bs2) l ->
  MINIMUMSIZE <= asize <= s -> asize mod DSIZE = 0 -> s - asize < 2 ^ 31 ->
  let bp := first_bp st + span bs1 in
  a <> heap_lo st ->
  (forall y, In y l -> a <> y /\ a <> y + WSIZE) ->
  a < bp - WSIZE \/ bp + s - DSIZE < a ->
  mem (place st bp asize) a = mem st a.
Proof.
  intros Hwf Hasz Ham Hint bp Ha Hal Hreg.
  destruct (place_setup st bs1 s bs2 l Hwf)
    as (l1 & l2 & El & Hperm & Hnodes & Hrange & Hhd2 & Hhd12 & Hlast).
  fold bp in Hperm, Hrange, Hhd2, Hhd12, Hlast.
  destruct Hwf as [[Hlay Hl] _].
  destruct (layout_reads _ _ _ _ Hlay) as (E1 & _ & Es & _).
  destruct (layout_at _ _ _ _ Hlay) as ((Hs & Hsm & _) & Hlo & Hend & Hsp2 & Hbrk & _).
  pose proof (lay_lo _ _ Hlay) as Hlo0.
  fold bp in E1, Es, Hlo, Hend. cbn [fst snd] in *. rewrite E1 in Es.
  subst l.
  assert (Hal' : forall y, In y (l1 ++ l2) -> a <> y /\ a <> y + WSIZE).
  { intros y Hy. apply Hal. apply in_app_or in Hy. apply in_or_app.
    destruct Hy; [left|right; right]; assumption. }
  unfold MINIMUMSIZE, DSIZE, WSIZE in *.
  assert (Hti : to_int (wrap64 (s - asize)) = s - asize) by (apply to_int_small; lia).
  assert (Hbpok : node_ok st bp).
  { rewrite Forall_forall in Hnodes. apply Hnodes, in_elt. }
  assert (Hfl : forall a v w,
            (a = bp - 8 \/ (bp + 16 <= a < bp + s - 8)) ->
            (w = bp - 8 \/ (bp + 16 <= w < bp + s - 8)) ->
            free_list (PUT (PUT st a v) w v) NULL (heap_start st) (l1 ++ bp :: l2)).
  { intros a0 v w Ha0 Hw.
    assert (Hall : forall x, In x (l1 ++ bp :: l2) ->
              x = bp \/ x + 32 <= bp \/ bp + s <= x).
    { intros x Hx. apply in_app_or in Hx. destruct Hx as [Hx|[Hx|Hx]];
        [right|left; auto|right]; apply Hrange; apply in_or_app; auto. }
    change (heap_start st) with (heap_start (PUT st a0 v)).
    apply free_list_PUT; auto.
    { intros x Hx. destruct (Hall x Hx) as [->|?]; unfold WSIZE; lia. }
    apply free_list_PUT; auto.
    intros x Hx. destruct (Hall x Hx) as [->|?]; unfold WSIZE; lia. }
  unfold place. rewrite E1, Es, Hti. unfold MINIMUMSIZE.
  destruct (Z.ltb_spec (s - asize) 32) as [Hsmall|Hbig].
  - (* the whole block *)
    set (st1 := PUT st (bp - 8) (PACK s 1)).
    assert (Es1 : GET_SIZE st1 (bp - 8) = s).
    { apply (GET_SIZE_PACK st1 _ s 1); try lia. cbn [mem st1 PUT set_mem]. apply upd_eq. }
    assert (E2 : FTRP st1 bp = bp + s - 16).
    { unfold FTRP. rewrite E1, Es1. unfold PADD, DSIZE.
      rewrite (wrap64_small (s - 16)) by lia. rewrite wrap64_small by lia. lia. }
    rewrite Es1, E2. set (st2 := PUT st1 (bp + s - 16) (PACK s 1)).
    assert (Hl2 : free_list st2 NULL (heap_start st2) (l1 ++ bp :: l2)).
    { apply (Hfl (bp - 8) (PACK s 1) (bp + s - 16)); lia. }
    rewrite (remove_node_frame st2 bp l1 l2 a Hlo0 Hl2 Hnodes Ha Hal').
    cbn [mem st2 st1 PUT set_mem]. rewrite !upd_neq by lia. reflexivity.
  - (* the block is split *)
    set (r := s - asize) in *.
    assert (Hr : r mod 16 = 0).
    { unfold r. Z.div_mod_to_equations. lia. }
    assert (EP : wrap64 (PACK r 0) = PACK r 0).
    { rewrite PACK_add by lia. apply wrap64_small. lia. }
    rewrite EP.
    set (st1 := PUT st (bp - 8) (PACK asize 1)).
    assert (Es1 : GET_SIZE st1 (bp - 8) = asize).
    { apply (GET_SIZE_PACK st1 _ asize 1); try lia. cbn [mem st1 PUT set_mem].
      apply upd_eq. }
    assert (E2 : FTRP st1 bp = bp + asize - 16).
    { unfold FTRP. rewrite E1, Es1. unfold PADD, DSIZE.
      rewrite (wrap64_small (asize - 16)) by lia. rewrite wrap64_small by lia. lia. }
    rewrite E2. set (st2 := PUT st1 (bp + asize - 16) (PACK asize 1)).
    assert (Hl2 : free_list st2 NULL (heap_start st2) (l1 ++ bp :: l2)).
    { apply (Hfl (bp - 8) (PACK asize 1) (bp + asize - 16)); lia. }
    destruct (remove_node_list st2 bp l1 l2 Hlo0 Hl2 Hnodes) as [Hl3 Hm3].
    pose proof (remove_node_frame st2 bp l1 l2 a Hlo0 Hl2 Hnodes Ha Hal') as Hf3.
    destruct (remove_node_fields st2 bp) as (Elo & Ebrk & Emax).
    change (heap_lo st2) with (heap_lo st) in *.
    change (mem_brk st2) with (mem_brk st) in *.
    change (mem_max st2) with (mem_max st) in *.
    set (st3 := remove_node st2 bp) in *.
    assert (Em3 : forall c, bp - 8 <= c < bp + s - 8 ->
                            mem st3 c = mem st2 c).
    { intros c Hc. rewrite Hm3. unfold WSIZE. eqb_cases; cbn [negb andb]; try lia;
        reflexivity. }
    assert (Es3 : GET_SIZE st3 (bp - 8) = asize).
    { apply (GET_SIZE_PACK st3 _ asize 1); try lia. rewrite Em3 by lia.
      cbn [mem st2 st1 PUT set_mem]. rewrite upd_neq by lia. apply upd_eq. }
    assert (E3 : NEXT_BLKP st3 bp = bp + asize).
    { unfold NEXT_BLKP. rewrite E1, Es3. unfold PADD. apply wrap64_small. lia. }
    rewrite E3. set (bp2 := bp + asize).
    assert (E4 : HDRP bp2 = bp2 - 8).
    { unfold HDRP, PSUB, WSIZE. apply wrap64_small. unfold bp2. lia. }
    rewrite E4. set (st4 := PUT st3 (bp2 - 8) (PACK r 0)).
    assert (Es4 : GET_SIZE st4 (bp2 - 8) = r).
    { apply (GET_SIZE_PACK st4 _ r 0); try lia. cbn [mem st4 PUT set_mem].
      apply upd_eq. }
    assert (E5 : FTRP st4 bp2 = bp + s - 16).
    { unfold FTRP. rewrite E4, Es4. unfold PADD, DSIZE.
      rewrite (wrap64_small (r - 16)) by lia.
      rewrite wrap64_small by (unfold bp2; lia). unfold bp2, r. lia. }
    rewrite E5. set (st5 := PUT st4 (bp + s - 16) (PACK r 0)).
    assert (Hlo5 : 0 < heap_lo st5).
    { change (heap_lo st5) with (heap_lo st3). rewrite Elo. exact Hlo0. }
    assert (Hnodes3 : Forall (node_ok st5) (l1 ++ l2)).
    { apply Forall_forall. intros x Hx. rewrite Forall_forall in Hnodes.
      assert (Hx' : node_ok st x).
      { apply Hnodes. apply in_app_or in Hx. apply in_or_app.
        destruct Hx; [left|right; right]; assumption. }
      unfold node_ok in *. change (heap_lo st5) with (heap_lo st3).
      rewrite Elo. exact Hx'. }
    assert (Hl5 : free_list st5 NULL (heap_start st5) (l1 ++ l2)).
    { change (heap_start st5) with (heap_start st3).
      apply free_list_PUT; auto.
      { intros x Hx. destruct (Hrange x Hx); unfold WSIZE; lia. }
      apply free_list_PUT; auto.
      intros x Hx. destruct (Hrange x Hx); unfold WSIZE, bp2; lia. }
    assert (Hbp2 : node_ok st5 bp2).
    { unfold node_ok in *. change (heap_lo st5) with (heap_lo st3).
      rewrite Elo. unfold bp2, DSIZE in *.
      destruct Hbpok as (? & ? & ?). split; [lia|]. split; [lia|].
      Z.div_mod_to_equations. lia. }
    rewrite (insert_head_frame st5 (l1 ++ l2) bp2 a Hlo5 Hl5 Hbp2).
    + cbn [mem st5 st4 PUT set_mem]. unfold bp2. rewrite !upd_neq by lia.
      rewrite Hf3. cbn [mem st2 st1 PUT set_mem]. rewrite !upd_neq by lia. reflexivity.
    + change (heap_lo st5) with (heap_lo st3). rewrite Elo. exact Ha.
    + intros y Hy. apply (Hal' y Hy).
    + unfold bp2. lia.
    + unfold bp2, WSIZE. lia.
Qed.

(** ** Blocks and payloads after [place], [extend_heap] and [mm_malloc] *)

(** What [place] does to the blocks and to the payloads of the allocated
    blocks, where the remainder fits the [int]. *)
Lemma place_live (st : state) (bs1 : list block) (s : Z) (bs2 : list block)
    (l : list Z) (asize : Z) :
  wf st (bs1 ++ (s, 0) :: bs2) l ->
  MINIMUMSIZE <= asize <= s -> asize mod DSIZE = 0 -> s - asize < 2 ^ 31 ->
  let bp := first_bp st + span bs1 in
  let st' := place st bp asize in
  heap_lo st' = heap_lo st /\ mem_max st' = mem_max st /\ mem_brk st' = mem_brk st /\
  exists s' bs2' l',
    wf st' (bs1 ++ (s', 1) :: bs2') l' /\
    asize <= s' < asize + MINIMUMSIZE /\ s' <= s /\
    (s - asize < MINIMUMSIZE -> s' = s /\ bs2' = bs2) /\
    (MINIMUMSIZE <= s - asize -> s' = asize /\ bs2' = (s - asize, 0) :: bs2) /\
    bs1 ++ (s', 1) :: bs2' = placed_blocks bs1 s bs2 asize /\
    alloc_bps (first_bp st) (bs1 ++ (s', 1) :: bs2') =
      alloc_bps (first_bp st) bs1 ++ (bp, s') :: alloc_bps (bp + s) bs2 /\
    span (bs1 ++ (s', 1) :: bs2') = span (bs1 ++ (s, 0) :: bs2) /\
    (no_adjacent_free (bs1 ++ (s, 0) :: bs2) ->
     no_adjacent_free (bs1 ++ (s', 1) :: bs2')) /\
    (forall a, payload_word (alloc_bps (first_bp st) bs1 ++
                             alloc_bps (bp + s) bs2) a ->
               mem st' a = mem st a).
Proof.
  intros Hwf Hasz Ham Hint bp st'.
  destruct (place_inv st bs1 s bs2 l asize Hwf Hasz Ham Hint)
    as (l1 & l2 & El & Elo & Emax & Hcases).
  fold bp in Elo, Emax, Hcases. fold st' in Elo, Emax, Hcases.
  pose proof Hwf as [[Hlay _] Hperm].
  pose proof (lay_ok _ _ Hlay) as Hok.
  pose proof (lay_brk _ _ Hlay) as Hbrk.
  assert (Hframe : forall a, payload_word (alloc_bps (first_bp st) bs1 ++
                                           alloc_bps (bp + s) bs2) a ->
                             mem st' a = mem st a).
  { intros a Ha.
    destruct (payload_word_outside bs1 [(s, 0)] bs2 (first_bp st) a)
      as (A1 & A2 & _ & A4).
    - exact Hok.
    - cbn [span fst]. rewrite Z.add_0_r. exact Ha.
    - cbn [span fst] in A2, A4. rewrite Z.add_0_r in A2, A4. fold bp in A2, A4.
      apply (place_frame st bs1 s bs2 l asize a Hwf Hasz Ham Hint).
      + unfold first_bp, DSIZE in A1. pose proof (lay_lo _ _ Hlay). lia.
      + intros y Hy. apply (Permutation_in _ Hperm) in Hy.
        rewrite free_bps_app in Hy. cbn [free_bps fst snd Z.eqb] in Hy.
        fold bp in Hy. apply in_app_or in Hy.
        destruct Hy as [Hy|[<-|Hy]].
        * apply A4. apply in_or_app. left. exact Hy.
        * unfold MINIMUMSIZE, WSIZE, DSIZE in *. lia.
        * apply A4. apply in_or_app. right. exact Hy.
      + fold bp. unfold WSIZE, DSIZE in *. lia. }
  assert (Efb : first_bp st' = first_bp st).
  { unfold first_bp. rewrite Elo. reflexivity. }
  split; [exact Elo|]. split; [exact Emax|].
  destruct Hcases as [[Hsmall Hwf']|[Hbig Hwf']].
  - split.
    { destruct Hwf' as [[Hlay' _] _]. rewrite (lay_brk _ _ Hlay'), Hbrk, Efb.
      rewrite !span_app. reflexivity. }
    exists s, bs2, (l1 ++ l2).
    split; [exact Hwf'|]. unfold MINIMUMSIZE in *. split; [lia|]. split; [lia|].
    split; [auto|]. split; [intros; lia|].
    split.
    { unfold placed_blocks, MINIMUMSIZE.
      destruct (Z.ltb_spec (s - asize) 32); [reflexivity|lia]. }
    split.
    { rewrite alloc_bps_app. cbn [alloc_bps fst snd Z.eqb]. reflexivity. }
    split; [rewrite !span_app; reflexivity|].
    split; [apply naf_allocated|exact Hframe].
  - split.
    { destruct Hwf' as [[Hlay' _] _]. rewrite (lay_brk _ _ Hlay'), Hbrk, Efb.
      rewrite !span_app. cbn [span fst]. lia. }
    exists asize, ((s - asize, 0) :: bs2), ((bp + asize) :: l1 ++ l2).
    split; [exact Hwf'|]. unfold MINIMUMSIZE in *. split; [lia|]. split; [lia|].
    split; [intros; lia|]. split; [auto|].
    split.
    { unfold placed_blocks, MINIMUMSIZE.
      destruct (Z.ltb_spec (s - asize) 32); [lia|reflexivity]. }
    split.
    { rewrite alloc_bps_app. cbn [alloc_bps fst snd Z.eqb]. fold bp.
      replace (bp + asize + (s - asize)) with (bp + s) by lia. reflexivity. }
    split; [rewrite !span_app; cbn [span fst]; lia|].
    split; [apply naf_split|exact Hframe].
Qed.

Lemma extend_heap_pending_frame (st : state) (bs : list block) (l : list Z)
    (size a : Z) :
  heap_ok st bs l ->
  MINIMUMSIZE <= size -> size mod DSIZE = 0 ->
  mem_brk st + size <= mem_max st ->
  let bp := mem_brk st in
  let st1 := mkState (mem st) (heap_start st) (heap_lo st) (mem_brk st + size)
                     (mem_max st) in
  let st2 := PUT st1 (HDRP bp) (PACK size 0) in
  let st3 := PUT st2 (FTRP st2 bp) (PACK size 0) in
  let st4 := PUT st3 (HDRP (NEXT_BLKP st3 bp)) (PACK 0 1) in
  a < bp - WSIZE -> mem st4 a = mem st a.
Proof.
  intros [Hlay Hl] Hsz Hsm Hfit bp st1 st2 st3 st4 Ha.
  destruct Hlay as [Hlo Hbrk [Hmax1 Hmax2] Hok Hph Hpf Hb He].
  pose proof (span_bounds _ Hok) as [Hsp _].
  unfold first_bp, MINIMUMSIZE, DSIZE, WSIZE in *.
  assert (E1 : HDRP bp = bp - 8).
  { unfold HDRP, PSUB, WSIZE. apply wrap64_small. unfold bp. lia. }
  assert (E2 : FTRP st2 bp = bp + size - 16).
  { unfold FTRP. rewrite E1. rewrite (GET_SIZE_PACK st2 (bp - 8) size 0); try lia.
    - unfold PADD, DSIZE. rewrite (wrap64_small (size - 16)) by lia.
      rewrite wrap64_small by (unfold bp; lia). lia.
    - unfold st2. rewrite E1. cbn [mem PUT set_mem]. apply upd_eq. }
  assert (E3 : HDRP (NEXT_BLKP st3 bp) = bp + size - 8).
  { unfold NEXT_BLKP. rewrite E1. rewrite (GET_SIZE_PACK st3 (bp - 8) size 0); try lia.
    - unfold HDRP, PSUB, PADD, WSIZE. rewrite (wrap64_small (bp + size)) by (unfold bp; lia).
      apply wrap64_small. unfold bp. lia.
    - unfold st3. rewrite E2. unfold st2. rewrite E1. cbn [mem PUT set_mem].
      rewrite upd_neq by lia. apply upd_eq. }
  unfold st4. rewrite E3. unfold st3. rewrite E2. unfold st2. rewrite E1.
  cbn [mem PUT set_mem st1]. rewrite !upd_neq by lia. reflexivity.
Qed.

(** What [extend_heap] does to the blocks and to the payloads of the
    allocated blocks. *)
Lemma extend_heap_live (st : state) (bs : list block) (l : list Z) (words : Z) :
  wf st bs l ->
  0 <= words -> MINIMUMSIZE <= extend_size words ->
  mem_brk st + extend_size words <= mem_max st ->
  let bp' := fst (extend_heap st words) in
  let st' := snd (extend_heap st words) in
  exists bs1' S l',
    wf st' (bs1' ++ [(S, 0)]) (bp' :: l') /\
    bp' = first_bp st + span bs1' /\ extend_size words <= S /\
    heap_lo st' = heap_lo st /\ mem_max st' = mem_max st /\
    mem_brk st' = mem_brk st + extend_size words /\
    (snd (last bs (OVERHEAD, 1)) = 1 ->
     bs1' = bs /\ S = extend_size words /\ l' = l) /\
    bs1' ++ [(S, 0)] = freed_blocks bs (extend_size words) [] /\
    alloc_bps (first_bp st) (bs1' ++ [(S, 0)]) = alloc_bps (first_bp st) bs /\
    span (bs1' ++ [(S, 0)]) = span bs + extend_size words /\
    (no_adjacent_free bs -> no_adjacent_free (bs1' ++ [(S, 0)])) /\
    (forall a, payload_word (alloc_bps (first_bp st) bs) a ->
               mem st' a = mem st a).
Proof.
  intros [Hok Hperm] Hw Hsz Hmax bp' st'.
  assert (Hs64 : extend_size words < 2 ^ 64).
  { pose proof (lay_max _ _ (proj1 Hok)) as [_ H]. pose proof (lay_lo _ _ (proj1 Hok)).
    pose proof (lay_brk _ _ (proj1 Hok)) as B.
    pose proof (span_bounds _ (lay_ok _ _ (proj1 Hok))) as [? _].
    unfold first_bp, DSIZE in B. lia. }
  pose proof (extend_heap_coalesce st words Hw Hs64 Hmax) as E. cbn zeta in E.
  destruct (extend_size_even words Hw) as [Hev _].
  destruct (extend_heap_pending st bs l (extend_size words) Hok Hperm Hsz Hev Hmax)
    as [Ebp Hpend].
  pose proof (extend_heap_pending_frame st bs l (extend_size words)) as Hfr.
  cbn zeta in Ebp, Hpend, Hfr. unfold bp', st'. rewrite E.
  set (st4 := PUT _ _ (PACK 0 1)) in *.
  rewrite Ebp.
  pose proof (coalesce_live st4 bs (extend_size words) [] l Hpend) as H.
  cbn zeta in H.
  destruct H as (bs1' & S & bs2' & l' & Hwf & Hfst & Hle & HS & _ & Hsame & Hnil & Esh & Ha & Hsp
                 & Hnaf & Hframe).
  rewrite (Hnil eq_refl) in *.
  change (first_bp st4) with (first_bp st) in *.
  cbn [alloc_bps] in Ha, Hframe. rewrite app_nil_r in Ha, Hframe.
  exists bs1', S, l'.
  split; [exact Hwf|]. split; [exact Hfst|].
  split.
  { rewrite Hfst in Hle, HS. lia. }
  destruct (coalesce_fields st4 (first_bp st + span bs)) as (-> & -> & ->).
  split; [reflexivity|]. split; [reflexivity|].
  split.
  { change (mem_brk st4) with (mem_brk st + extend_size words). rewrite Ebp.
    reflexivity. }
  split.
  { intros Hl. destruct (Hsame Hl eq_refl) as (-> & -> & _ & ->). auto. }
  split; [exact Esh|]. split; [exact Ha|]. split; [rewrite Hsp; cbn [span]; lia|].
  split; [intros N; apply Hnaf; [exact N|exact I]|].
  intros a Hpa. rewrite (Hframe a Hpa). apply Hfr; auto.
  destruct (payload_word_facts bs (first_bp st) a (lay_ok _ _ (proj1 Hok)) Hpa)
    as (_ & A2 & _).
  rewrite (lay_brk _ _ (proj1 Hok)). unfold WSIZE, DSIZE in *. lia.
Qed.

(** What [mm_malloc] does, for a request whose adjusted size does not wrap,
    in a heap below 2^31 bytes: it takes the first free block of the list
    that fits, or extends the heap, or fails and leaves the state as it
    is. *)
Lemma mm_malloc_live (st : state) (bs : list block) (l : list Z) (size : Z)
    (fuel : nat) :
  wf st bs l ->
  0 < size -> size + OVERHEAD + (DSIZE - 1) < 2 ^ 64 ->
  mem_max st < heap_lo st + 2 ^ 31 ->
  (length l < fuel)%nat ->
  let asize := adjusted_size size in
  exists bp st',
    mm_malloc fuel st size = Some (bp, st') /\
    heap_lo st' = heap_lo st /\ mem_max st' = mem_max st /\
    ((bp <> NULL /\ mem_brk st' = mem_brk st /\
      exists l1 l2 bs1 s0 bs2,
        l = l1 ++ bp :: l2 /\
        Forall (fun y => GET_SIZE st (HDRP y) < asize) l1 /\
        bs = bs1 ++ (s0, 0) :: bs2 /\ bp = first_bp st + span bs1 /\
        GET_SIZE st (HDRP bp) = s0 /\ asize <= s0 /\
        malloc_post st st' bs (placed_blocks bs1 s0 bs2 asize) bp asize)
     \/
     (bp <> NULL /\
      Forall (fun y => GET_SIZE st (HDRP y) < asize) l /\
      mem_brk st' = mem_brk st + Z.max asize CHUNKSIZE /\
      exists bs1 S,
        bs1 ++ [(S, 0)] = freed_blocks bs (Z.max asize CHUNKSIZE) [] /\
        bp = first_bp st + span bs1 /\
        malloc_post st st' bs (placed_blocks bs1 S [] asize) bp asize)
     \/
     (bp = NULL /\ st' = st /\
      Forall (fun y => GET_SIZE st (HDRP y) < asize) l /\
      mem_max st < mem_brk st + Z.max asize CHUNKSIZE)).
Proof.
  intros Hwf Hsize Hnowrap Hsmall Hfuel asize.
  destruct (adjusted_size_in_range size Hsize Hnowrap) as (_ & Ham & Hamin & Habove).
  fold asize in Ham, Hamin, Habove.
  pose proof Hwf as [[Hlay Hl] Hperm].
  pose proof (lay_lo _ _ Hlay) as Hlo.
  pose proof (lay_ok _ _ Hlay) as Hok.
  pose proof (wf_heap_size _ _ _ Hwf) as Hheap.
  assert (Haligned : forall bs1, Forall block_ok bs1 ->
            (first_bp st + span bs1 - heap_lo st) mod DSIZE = 0).
  { intros bs1 H1. destruct (span_bounds _ H1) as [_ Hm].
    unfold first_bp, DSIZE in *. Z.div_mod_to_equations. lia. }
  unfold mm_malloc. destruct (Z.leb_spec size 0) as [?|_]; [lia|]. fold asize.
  destruct (find_fit_from_first_fit st asize l (heap_start st) fuel
              (free_list_next_chain _ _ _ _ Hl) Hfuel)
    as (r & Hr & Hcases).
  unfold find_fit. rewrite Hr.
  destruct Hcases as [(l1 & l2 & El & Hfit & Hbefore)|(-> & Hnone)].
  - (* a fit in the free list *)
    assert (Hin : In r (free_bps (first_bp st) bs)).
    { apply (Permutation_in _ Hperm). rewrite El. apply in_elt. }
    destruct (free_bps_split _ _ _ Hin) as (bs1 & s & bs2 & -> & ->).
    destruct (layout_reads _ _ _ _ Hlay) as (_ & _ & Es & _).
    destruct (layout_at _ _ _ _ Hlay) as (_ & Hbp & Hend & Hsp2 & _).
    cbn [fst] in *. rewrite Es in Hfit.
    apply Forall_app in Hok. destruct Hok as [Hok1 _].
    pose proof (span_bounds _ Hok1) as [Hsp1 _].
    destruct (Z.eqb_spec (first_bp st + span bs1) NULL) as [E|Hnn].
    { unfold NULL, first_bp, DSIZE in *. lia. }
    cbn [negb].
    destruct (place_live st bs1 s bs2 l asize Hwf) as
      (Elo & Emax & Ebrk & s' & bs2' & l' & Hwf' & Hs' & _ & _ & _ & Esh & Hal & _ & Hnaf'
       & Hframe); auto; try lia.
    { rewrite span_app in Hheap. cbn [span fst] in Hheap.
      unfold first_bp, DSIZE, MINIMUMSIZE in *. lia. }
    eexists. eexists. split; [reflexivity|].
    split; [exact Elo|]. split; [exact Emax|].
    left. split; [exact Hnn|]. split; [exact Ebrk|].
    exists l1, l2, bs1, s, bs2.
    split; [exact El|]. split; [exact Hbefore|]. split; [reflexivity|].
    split; [reflexivity|]. split; [exact Es|]. split; [exact Hfit|].
    rewrite <- Esh.
    exists l', s', (alloc_bps (first_bp st) bs1),
      (alloc_bps (first_bp st + span bs1 + s) bs2).
    split; [exact Hwf'|]. split; [exact Hs'|].
    split; [rewrite alloc_bps_app; cbn [alloc_bps fst snd Z.eqb]; reflexivity|].
    split; [exact Hal|]. split; [exact Hnaf'|].
    split; [apply Haligned; exact Hok1|].
    intros a Ha. apply Hframe. rewrite alloc_bps_app in Ha.
    cbn [alloc_bps fst snd Z.eqb] in Ha. exact Ha.
  - (* no fit: the heap is extended *)
    change (negb (NULL =? NULL)) with false. cbn iota.
    rewrite max_spec.
    assert (Hext : 0 <= Z.max asize CHUNKSIZE /\
                   Z.max asize CHUNKSIZE mod DSIZE = 0).
    { change CHUNKSIZE with 4096. unfold DSIZE, MINIMUMSIZE in *.
      destruct (Z.max_spec asize 4096) as [[_ ->]|[_ ->]]; [split; [lia|reflexivity]|].
      split; [lia|exact Ham]. }
    destruct Hext as [Hext0 Hextm].
    destruct (extend_size_of_even _ Hext0 Hextm) as [Ewords Hwords].
    set (words := Z.max asize CHUNKSIZE / WSIZE) in *.
    assert (Hes : MINIMUMSIZE <= extend_size words /\ asize <= extend_size words /\
                  extend_size words < 2 ^ 64).
    { rewrite Ewords. change CHUNKSIZE with 4096. unfold MINIMUMSIZE, OVERHEAD, DSIZE in *.
      lia. }
    destruct (Z.le_gt_cases (mem_brk st + extend_size words) (mem_max st)) as [Hfits|Hno].
    + destruct (extend_heap_live st bs l words Hwf Hwords (proj1 Hes) Hfits)
        as (bs1' & S & l' & Hwf1 & Hbp' & HS & Elo1 & Emax1 & Ebrk1 & _ & Esh1 & Hal1 & _
            & Hnaf1 & Hframe1).
      destruct (extend_heap st words) as [bp' st1]. cbn [fst snd] in *.
      pose proof (proj1 Hwf1) as [Hlay1 _].
      pose proof (lay_ok _ _ Hlay1) as Hok1.
      apply Forall_app in Hok1. destruct Hok1 as [Hok1 _].
      pose proof (span_bounds _ Hok1) as [Hsp1 _].
      pose proof (wf_heap_size _ _ _ Hwf1) as Hheap1.
      rewrite span_app in Hheap1. cbn [span fst] in Hheap1.
      assert (Efb : first_bp st1 = first_bp st) by (unfold first_bp; rewrite Elo1; auto).
      subst bp'.
      destruct (Z.eqb_spec (first_bp st + span bs1') NULL) as [E|Hnn].
      { unfold NULL, first_bp, DSIZE in *. lia. }
      pose proof (place_live st1 bs1' S [] _ asize Hwf1) as HP.
      cbn zeta in HP. rewrite Efb in HP.
      destruct HP as
        (Elo & Emax & Ebrk & s' & bs2' & l'' & Hwf' & Hs' & _ & _ & _ & Esh & Hal & _
         & Hnaf' & Hframe); auto; try lia.
      { rewrite Efb, Emax1 in Hheap1. unfold first_bp, DSIZE, MINIMUMSIZE in *. lia. }
      eexists. eexists. split; [reflexivity|].
      split; [congruence|]. split; [congruence|].
      right. left. split; [exact Hnn|].
      split; [exact Hnone|]. split; [rewrite Ebrk, Ebrk1, Ewords; reflexivity|].
      exists bs1', S. rewrite <- Ewords. split; [exact Esh1|]. split; [reflexivity|].
      rewrite <- Esh.
      exists l'', s', (alloc_bps (first_bp st) bs1'), [].
      split; [exact Hwf'|]. split; [exact Hs'|].
      split.
      { rewrite <- Hal1, alloc_bps_app. cbn [alloc_bps fst snd Z.eqb]. reflexivity. }
      split; [exact Hal|]. split; [intros N; apply Hnaf', Hnaf1, N|].
      split; [apply Haligned; exact Hok1|].
      intros a Ha. rewrite Hframe; [apply Hframe1; exact Ha|].
      rewrite <- Hal1, alloc_bps_app in Ha. cbn [alloc_bps fst snd Z.eqb] in *. exact Ha.
    + rewrite (extend_heap_fail st words Hwords (proj2 (proj2 Hes)) Hno).
      change (NULL =? NULL) with true. cbn iota.
      eexists. eexists. split; [reflexivity|].
      split; [reflexivity|]. split; [reflexivity|].
      right. right. split; [reflexivity|]. split; [reflexivity|].
      split; [exact Hnone|]. rewrite <- Ewords. exact Hno.
Qed.

(** ** The public operations *)

Lemma adjusted_size_bounds (size : Z) :
  0 <= adjusted_size size < 2 ^ 64 /\ adjusted_size size mod DSIZE = 0.
Proof.
  unfold adjusted_size, wrap64, DSIZE, OVERHEAD.
  destruct (Z.leb_spec size 16); [split; [lia|reflexivity]|].
  set (x := ((size + 16) mod 2 ^ 64 + (16 - 1)) mod 2 ^ 64 / 16).
  split; [apply Z.mod_pos_bound; lia|].
  change (2 ^ 64) with (16 * 2 ^ 60). rewrite Zmult_mod_distr_l.
  rewrite Z.mul_comm. apply Z_mod_mult.
Qed.

(** X1: take a well-formed heap below 2^63 and a size whose adjusted size
    does not wrap around.  [mm_malloc] returns NULL exactly when the size is
    0, or when no block of the free list is as large as the adjusted size and
    the memory source cannot give max(adjusted size, CHUNKSIZE) more bytes;
    whenever it returns NULL the state is unchanged. *)
Theorem mm_malloc_null_iff (st : state) (bs : list block) (l : list Z) (size : Z)
    (fuel : nat) :
  wf st bs l ->
  0 <= size -> size + OVERHEAD + (DSIZE - 1) < 2 ^ 64 ->
  mem_max st <= 2 ^ 63 -> (length l < fuel)%nat ->
  let asize := adjusted_size size in
  exists bp st',
    mm_malloc fuel st size = Some (bp, st') /\
    (bp = NULL <->
     size = 0 \/
     (Forall (fun y => GET_SIZE st (HDRP y) < asize) l /\
      mem_max st < mem_brk st + Z.max asize CHUNKSIZE)) /\
    (bp = NULL -> st' = st).
Proof.
  intros Hwf Hs0 _ _ Hfuel asize.
  destruct (Z.eq_dec size 0) as [Hz|Hnz].
  { exists NULL, st. unfold mm_malloc. destruct (Z.leb_spec size 0); [|lia].
    split; [reflexivity|]. split; [|reflexivity]. split; auto. }
  assert (Hsize : 0 < size) by lia.
  destruct (adjusted_size_bounds size) as [Hab Ham]. fold asize in Hab, Ham.
  pose proof Hwf as [[Hlay Hl] Hperm].
  pose proof (lay_lo _ _ Hlay) as Hlo.
  pose proof (lay_ok _ _ Hlay) as Hok.
  unfold mm_malloc. destruct (Z.leb_spec size 0) as [?|_]; [lia|]. fold asize.
  destruct (find_fit_from_first_fit st asize l (heap_start st) fuel
              (free_list_next_chain _ _ _ _ Hl) Hfuel)
    as (r & Hr & Hcases).
  unfold find_fit. rewrite Hr.
  destruct Hcases as [(l1 & l2 & El & Hfit & Hbefore)|(-> & Hnone)].
  - assert (Hin : In r (free_bps (first_bp st) bs)).
    { apply (Permutation_in _ Hperm). rewrite El. apply in_elt. }
    destruct (free_bps_range _ Hok _ _ Hin) as (Hr1 & _).
    assert (Hnn : r <> NULL) by (unfold NULL, first_bp, DSIZE in *; lia).
    destruct (Z.eqb_spec r NULL) as [E|_]; [contradiction|]. cbn [negb].
    eexists. eexists. split; [reflexivity|].
    split; [|intros; contradiction].
    split; [intros; contradiction|]. intros [?|[Hall _]]; [lia|]. exfalso.
    rewrite El in Hall. apply Forall_app in Hall. destruct Hall as [_ Hall].
    apply Forall_cons_iff in Hall. destruct Hall as [Hall _]. lia.
  - change (negb (NULL =? NULL)) with false. cbn iota.
    rewrite max_spec.
    assert (Hext : 0 <= Z.max asize CHUNKSIZE /\
                   Z.max asize CHUNKSIZE mod DSIZE = 0 /\
                   MINIMUMSIZE <= Z.max asize CHUNKSIZE < 2 ^ 64).
    { change CHUNKSIZE with 4096. unfold DSIZE, MINIMUMSIZE in *.
      destruct (Z.max_spec asize 4096) as [[? ->]|[? ->]];
        [split; [lia|split; [reflexivity|lia]]|].
      split; [lia|]. split; [exact Ham|lia]. }
    destruct Hext as (Hext0 & Hextm & Hextb).
    destruct (extend_size_of_even _ Hext0 Hextm) as [Ewords Hwords].
    set (words := Z.max asize CHUNKSIZE / WSIZE) in *.
    destruct (Z.le_gt_cases (mem_brk st + extend_size words) (mem_max st)) as [Hfits|Hno].
    + destruct (extend_heap_ok st bs l words Hwf Hwords) as
        (bs1' & S & l' & Hwf1 & Hbp' & _); [rewrite Ewords; lia|exact Hfits|].
      destruct (extend_heap st words) as [bp' st1]. cbn [fst snd] in *.
      pose proof (proj1 Hwf1) as [Hlay1 _].
      pose proof (lay_ok _ _ Hlay1) as Hok1.
      apply Forall_app in Hok1. destruct Hok1 as [Hok1 _].
      pose proof (span_bounds _ Hok1) as [Hsp1 _].
      assert (Hnn : bp' <> NULL) by (unfold NULL, first_bp, DSIZE in *; lia).
      destruct (Z.eqb_spec bp' NULL) as [E|_]; [contradiction|].
      eexists. eexists. split; [reflexivity|].
      split; [|intros; contradiction].
      split; [intros; contradiction|]. rewrite <- Ewords. intros [?|[_ H]]; lia.
    + rewrite (extend_heap_fail st words Hwords); [|rewrite Ewords; lia|exact Hno].
      change (NULL =? NULL) with true. cbn iota.
      eexists. eexists. split; [reflexivity|].
      split; [|reflexivity].
      split; [|reflexivity]. intros _. right. split; [exact Hnone|].
      rewrite <- Ewords. exact Hno.
Qed.

Lemma mm_malloc_null_iff_witness :
  let st := ex_live in
  let bs := [(128, 1); (224, 0); (80, 1); (3664, 0)] in
  let l := [65696; 66000] in
  wf st bs l /\
  0 <= 100 /\ 100 + OVERHEAD + (DSIZE - 1) < 2 ^ 64 /\
  mem_max st <= 2 ^ 63 /\ (length l < 3)%nat /\
  let asize := adjusted_size 100 in
  exists bp st',
    mm_malloc 3 st 100 = Some (bp, st') /\
    (bp = NULL <->
     100 = 0 \/
     (Forall (fun y => GET_SIZE st (HDRP y) < asize) l /\
      mem_max st < mem_brk st + Z.max asize CHUNKSIZE)) /\
    (bp = NULL -> st' = st).
Proof.
  intros st bs l.
  assert (H1 : wf st bs l) by exact ex_live_wf.
  assert (H2 : 0 <= 100) by lia.
  assert (H3 : 100 + OVERHEAD + (DSIZE - 1) < 2 ^ 64) by (unfold OVERHEAD, DSIZE; lia).
  assert (H4 : mem_max st <= 2 ^ 63) by (vm_compute; discriminate).
  assert (H5 : (length l < 3)%nat) by (cbn; lia).
  split; [exact H1|]. split; [exact H2|]. split; [exact H3|]. split; [exact H4|].
  split; [exact H5|].
  exact (mm_malloc_null_iff st bs l 100 3 H1 H2 H3 H4 H5).
Defined.

Lemma alloc_bps_sorted (bs : list block) :
  Forall block_ok bs ->
  forall q a1 p s a2,
    alloc_bps q bs = a1 ++ (p, s) :: a2 ->
    (forall p1 s1, In (p1, s1) a1 -> p1 + s1 <= p) /\
    (forall p2 s2, In (p2, s2) a2 -> p + s <= p2).
Proof.
  induction 1 as [|b bs Hb Hok IH]; intros q a1 p s a2 E.
  - destruct a1; discriminate.
  - destruct Hb as (Hmin & _). cbn [alloc_bps] in E.
    destruct (snd b =? 0); [apply (IH _ _ _ _ _ E)|].
    destruct a1 as [|[p0 s0] a1]; cbn [app] in E.
    + injection E as <- <- E. split; [intros ? ? []|].
      intros p2 s2 H2. rewrite <- E in H2.
      destruct (alloc_bps_range _ Hok _ _ _ H2) as (? & _). lia.
    + injection E as <- <- E. destruct (IH _ _ _ _ _ E) as [I1 I2].
      split; [|exact I2].
      intros p1 s1 [H1|H1]; [|apply (I1 _ _ H1)].
      injection H1 as <- <-.
      assert (Hin : In (p, s) (alloc_bps (q + fst b) bs)).
      { rewrite E. apply in_elt. }
      destruct (alloc_bps_range _ Hok _ _ _ Hin) as (? & _). lia.
Qed.

Lemma wf_head_reads (st : state) (bs1 : list block) (S : Z) (bs2 : list block)
    (l : list Z) :
  wf st (bs1 ++ (S, 0) :: bs2) l ->
  let bp := first_bp st + span bs1 in
  GET_SIZE st (HDRP bp) = S /\ GET_ALLOC st (HDRP bp) = 0 /\
  bp <> NULL /\ bp <> mem_heap_lo st.
Proof.
  intros [[Hlay _] _] bp.
  destruct (layout_reads _ _ _ _ Hlay) as (_ & _ & Es & Ea & _).
  destruct (layout_at _ _ _ _ Hlay) as (_ & Hbp & _).
  pose proof (lay_lo _ _ Hlay).
  fold bp in Es, Ea, Hbp. cbn [fst snd] in *.
  split; [exact Es|]. split; [exact Ea|].
  unfold NULL, mem_heap_lo, DSIZE in *. split; lia.
Qed.

(** X2: [mm_free] of an allocated block of a well-formed heap leaves a
    well-formed heap whose blocks are the old ones with the freed block
    merged with its free neighbours; the allocated blocks are the old ones
    without the freed one, the merged block is free, contains the freed
    block and is the head of the free list, coalescing leaves no two free
    neighbours, and the heap does not shrink. *)
Theorem mm_free_blocks (st : state) (bs1 : list block) (s : Z) (bs2 : list block)
    (l : list Z) :
  wf st (bs1 ++ (s, 1) :: bs2) l ->
  let bp := first_bp st + span bs1 in
  let st' := mm_free st bp in
  (exists l', wf st' (freed_blocks bs1 s bs2) (heap_start st' :: l')) /\
  alloc_bps (first_bp st') (freed_blocks bs1 s bs2) =
    alloc_bps (first_bp st) bs1 ++ alloc_bps (bp + s) bs2 /\
  GET_ALLOC st' (HDRP (heap_start st')) = 0 /\
  heap_start st' <= bp /\
  bp + s <= heap_start st' + GET_SIZE st' (HDRP (heap_start st')) /\
  (no_adjacent_free (bs1 ++ (s, 1) :: bs2) ->
   no_adjacent_free (freed_blocks bs1 s bs2)) /\
  mem_brk st' = mem_brk st.
Proof.
  intros Hwf bp st'.
  destruct (mm_free_live st bs1 s bs2 l Hwf) as
    (bs1' & S & bs2' & l' & Hwf' & Ehs & Hle & Hge & _ & _ & Esh & Hal & _ & Hnaf & _
     & Elo & Ebrk & _).
  fold bp in Hwf', Ehs, Hle, Hge, Hal, Elo, Ebrk.
  fold st' in Hwf', Ehs, Hle, Hge, Elo, Ebrk.
  assert (Efb : first_bp st' = first_bp st) by (unfold first_bp; rewrite Elo; auto).
  destruct (wf_head_reads st' bs1' S bs2' _ Hwf') as (Es & Ea & _).
  rewrite Efb, <- Ehs in Es, Ea.
  rewrite <- Esh, Efb.
  split; [exists l'; exact Hwf'|]. split; [exact Hal|]. split; [exact Ea|].
  split; [exact Hle|]. split; [rewrite Es; exact Hge|]. split; [exact Hnaf|exact Ebrk].
Qed.

Lemma mm_free_blocks_witness :
  let st := ex_live in
  let bs1 := [] in
  let bs2 := [(224, 0); (80, 1); (3664, 0)] in
  let l := [65696; 66000] in
  wf st (bs1 ++ (128, 1) :: bs2) l /\
  let bp := first_bp st + span bs1 in
  let st' := mm_free st bp in
  (exists l', wf st' (freed_blocks bs1 128 bs2) (heap_start st' :: l')) /\
  alloc_bps (first_bp st') (freed_blocks bs1 128 bs2) =
    alloc_bps (first_bp st) bs1 ++ alloc_bps (bp + 128) bs2 /\
  GET_ALLOC st' (HDRP (heap_start st')) = 0 /\
  heap_start st' <= bp /\
  bp + 128 <= heap_start st' + GET_SIZE st' (HDRP (heap_start st')) /\
  (no_adjacent_free (bs1 ++ (128, 1) :: bs2) ->
   no_adjacent_free (freed_blocks bs1 128 bs2)) /\
  mem_brk st' = mem_brk st.
Proof.
  intros st bs1 bs2 l.
  assert (H1 : wf st (bs1 ++ (128, 1) :: bs2) l) by exact ex_live_wf.
  split; [exact H1|].
  exact (mm_free_blocks st bs1 128 bs2 l H1).
Defined.

(** X3: [mm_free] of an allocated block changes no payload word of any other
    allocated block. *)
Theorem mm_free_keeps_payloads (st : state) (bs1 : list block) (s : Z)
    (bs2 : list block) (l : list Z) (p sz a : Z) :
  wf st (bs1 ++ (s, 1) :: bs2) l ->
  let bp := first_bp st + span bs1 in
  In (p, sz) (alloc_bps (first_bp st) (bs1 ++ (s, 1) :: bs2)) -> p <> bp ->
  p <= a < p + sz - DSIZE ->
  mem (mm_free st bp) a = mem st a.
Proof.
  intros Hwf bp Hin Hne Ha.
  destruct (mm_free_live st bs1 s bs2 l Hwf) as
    (bs1' & S & bs2' & l' & _ & _ & _ & _ & _ & _ & _ & _ & _ & _ & Hframe & _).
  apply Hframe. exists p, sz. split; [|exact Ha].
  rewrite alloc_bps_app in Hin. cbn [alloc_bps fst snd Z.eqb] in Hin.
  apply in_app_or in Hin. apply in_or_app.
  destruct Hin as [Hin|[E|Hin]]; [left; exact Hin| |right; exact Hin].
  injection E as E1 E2. exfalso. apply Hne. symmetry. exact E1.
Qed.

Lemma mm_free_keeps_payloads_witness :
  let st := ex_live in
  let bs1 := [] in
  let bs2 := [(224, 0); (80, 1); (3664, 0)] in
  let l := [65696; 66000] in
  wf st (bs1 ++ (128, 1) :: bs2) l /\
  let bp := first_bp st + span bs1 in
  In (65920, 80) (alloc_bps (first_bp st) (bs1 ++ (128, 1) :: bs2)) /\
  65920 <> bp /\ 65920 <= 65928 < 65920 + 80 - DSIZE /\
  mem (mm_free st bp) 65928 = mem st 65928.
Proof.
  intros st bs1 bs2 l.
  assert (H1 : wf st (bs1 ++ (128, 1) :: bs2) l) by exact ex_live_wf.
  assert (H2 : In (65920, 80) (alloc_bps (first_bp st) (bs1 ++ (128, 1) :: bs2))).
  { vm_compute. right. left. reflexivity. }
  assert (H3 : 65920 <> first_bp st + span bs1) by (vm_compute; discriminate).
  assert (H4 : 65920 <= 65928 < 65920 + 80 - DSIZE) by (unfold DSIZE; lia).
  split; [exact H1|]. split; [exact H2|]. split; [exact H3|]. split; [exact H4|].
  exact (mm_free_keeps_payloads st bs1 128 bs2 l 65920 80 65928 H1 H2 H3 H4).
Defined.

Lemma alloc_bps_split (bs : list block) :
  forall q p s, In (p, s) (alloc_bps q bs) ->
                exists bs1 f bs2, bs = bs1 ++ (s, f) :: bs2 /\ f <> 0 /\
                                  p = q + span bs1.
Proof.
  induction bs as [|[s0 f0] bs IH]; intros q p s Hin; [contradiction|].
  cbn [alloc_bps fst snd] in Hin.
  assert (Hrest : In (p, s) (alloc_bps (q + s0) bs) ->
                  exists bs1 f bs2, (s0, f0) :: bs = bs1 ++ (s, f) :: bs2 /\ f <> 0 /\
                                    p = q + span bs1).
  { intros H. destruct (IH _ _ _ H) as (bs1 & f & bs2 & -> & Hf & ->).
    exists ((s0, f0) :: bs1), f, bs2. cbn [app span fst].
    split; [reflexivity|]. split; [exact Hf|lia]. }
  destruct (Z.eqb_spec f0 0) as [E|N]; [auto|].
  destruct Hin as [E|Hin]; [|auto].
  injection E as <- <-. exists [], f0, bs. cbn [app span].
  split; [reflexivity|]. split; [exact N|lia].
Qed.

Lemma malloc_post_block (st st' : state) (bs bs' : list block) (bp asize : Z) :
  malloc_post st st' bs bs' bp asize -> heap_lo st' = heap_lo st ->
  Forall block_ok bs ->
  exists l' s a1 a2,
    wf st' bs' l' /\ asize <= s < asize + MINIMUMSIZE /\
    alloc_bps (first_bp st) bs = a1 ++ a2 /\
    alloc_bps (first_bp st') bs' = a1 ++ (bp, s) :: a2 /\
    (bp - heap_lo st) mod DSIZE = 0 /\
    GET st' (HDRP bp) = PACK s 1 /\ GET st' (FTRP st' bp) = PACK s 1 /\
    (forall p sz, In (p, sz) (alloc_bps (first_bp st) bs) ->
                  p + sz <= bp \/ bp + s <= p) /\
    (no_adjacent_free bs -> no_adjacent_free bs').
Proof.
  intros (l' & s & a1 & a2 & Hwf' & Hs & E1 & E2 & Hnaf & Hal & _) Elo Hok.
  assert (Efb : first_bp st' = first_bp st) by (unfold first_bp; rewrite Elo; auto).
  exists l', s, a1, a2. rewrite Efb.
  split; [exact Hwf'|]. split; [exact Hs|]. split; [exact E1|]. split; [exact E2|].
  split; [exact Hal|].
  pose proof Hwf' as [[Hlay' _] _].
  pose proof (lay_ok _ _ Hlay') as Hok'.
  assert (Hin : In (bp, s) (alloc_bps (first_bp st) bs')).
  { rewrite E2. apply in_elt. }
  destruct (alloc_bps_split _ _ _ _ Hin) as (bs1 & f & bs2 & Ebs & Hf & Ebp).
  assert (Ef : f = 1).
  { rewrite Ebs in Hok'. apply Forall_app in Hok'. destruct Hok' as [_ H].
    apply Forall_cons_iff in H. destruct H as [(_ & _ & H) _]. cbn [snd] in H. lia. }
  subst f. rewrite Ebs in Hwf'.
  destruct (heap_inv_tags st' bs1 (s, 1) bs2 l' Hwf') as (T1 & T2 & _).
  rewrite Efb, <- Ebp in T1, T2. cbn [fst snd] in T1, T2.
  split; [exact T1|]. split; [exact T2|].
  split; [|exact Hnaf].
  destruct (alloc_bps_sorted bs' Hok' _ _ _ _ _ E2) as [S1 S2].
  intros p sz Hp. rewrite E1 in Hp. apply in_app_or in Hp.
  destruct Hp as [Hp|Hp]; [left; apply (S1 _ _ Hp)|right; apply (S2 _ _ Hp)].
Qed.

(** X4: for a request whose adjusted size does not wrap, in a heap below
    2^31 bytes, a non-null result of [mm_malloc] is the block pointer of a
    new allocated block of a well-formed heap: the allocated blocks are the
    old ones plus this one, it has room for the request plus the two tags,
    it is less than a minimum block larger than the adjusted size, it is
    double-word aligned relative to the low end of the heap, its header and
    footer hold its size with the allocated flag, and it overlaps no block
    allocated before. *)
Theorem mm_malloc_new_block (st : state) (bs : list block) (l : list Z) (size : Z)
    (fuel : nat) :
  wf st bs l ->
  0 < size -> size + OVERHEAD + (DSIZE - 1) < 2 ^ 64 ->
  mem_max st < heap_lo st + 2 ^ 31 ->
  (length l < fuel)%nat ->
  exists bp st',
    mm_malloc fuel st size = Some (bp, st') /\
    (bp <> NULL ->
     exists bs' l' s a1 a2,
       wf st' bs' l' /\
       size + OVERHEAD <= s < adjusted_size size + MINIMUMSIZE /\
       alloc_bps (first_bp st) bs = a1 ++ a2 /\
       alloc_bps (first_bp st') bs' = a1 ++ (bp, s) :: a2 /\
       (bp - heap_lo st) mod DSIZE = 0 /\
       GET st' (HDRP bp) = PACK s 1 /\ GET st' (FTRP st' bp) = PACK s 1 /\
       (forall p sz, In (p, sz) (alloc_bps (first_bp st) bs) ->
                     p + sz <= bp \/ bp + s <= p) /\
       (no_adjacent_free bs -> no_adjacent_free bs')).
Proof.
  intros Hwf Hsize Hnowrap Hsmall Hfuel.
  destruct (adjusted_size_in_range size Hsize Hnowrap) as (_ & _ & _ & Habove & _).
  pose proof (lay_ok _ _ (proj1 (proj1 Hwf))) as Hok.
  destruct (mm_malloc_live st bs l size fuel Hwf Hsize Hnowrap Hsmall Hfuel)
    as (bp & st' & E & Elo & _ & Hcases).
  cbn zeta in Hcases.
  exists bp, st'. split; [exact E|]. intros Hnn.
  assert (Hpost : exists bs', malloc_post st st' bs bs' bp (adjusted_size size)).
  { destruct Hcases as [(_ & _ & l1 & l2 & bs1 & s0 & bs2 & _ & _ & _ & _ & _ & _ & H)
                       |[(_ & _ & _ & bs1 & S & _ & _ & H)|(N & _)]];
      [eexists; exact H|eexists; exact H|contradiction]. }
  destruct Hpost as (bs' & Hpost).
  destruct (malloc_post_block _ _ _ _ _ _ Hpost Elo Hok)
    as (l' & s & a1 & a2 & H1 & H2 & H3 & H4 & H5 & H6 & H7 & H8 & H9).
  exists bs', l', s, a1, a2.
  split; [exact H1|]. split; [lia|]. auto 10.
Qed.

Lemma mm_malloc_new_block_witness :
  let st := ex_live in
  let bs := [(128, 1); (224, 0); (80, 1); (3664, 0)] in
  let l := [65696; 66000] in
  wf st bs l /\ 0 < 100 /\ 100 + OVERHEAD + (DSIZE - 1) < 2 ^ 64 /\
  mem_max st < heap_lo st + 2 ^ 31 /\ (length l < 3)%nat /\
  exists bp st',
    mm_malloc 3 st 100 = Some (bp, st') /\
    (bp <> NULL ->
     exists bs' l' s a1 a2,
       wf st' bs' l' /\
       100 + OVERHEAD <= s < adjusted_size 100 + MINIMUMSIZE /\
       alloc_bps (first_bp st) bs = a1 ++ a2 /\
       alloc_bps (first_bp st') bs' = a1 ++ (bp, s) :: a2 /\
       (bp - heap_lo st) mod DSIZE = 0 /\
       GET st' (HDRP bp) = PACK s 1 /\ GET st' (FTRP st' bp) = PACK s 1 /\
       (forall p sz, In (p, sz) (alloc_bps (first_bp st) bs) ->
                     p + sz <= bp \/ bp + s <= p) /\
       (no_adjacent_free bs -> no_adjacent_free bs')).
Proof.
  intros st bs l.
  assert (H1 : wf st bs l) by exact ex_live_wf.
  assert (H2 : 0 < 100) by lia.
  assert (H3 : 100 + OVERHEAD + (DSIZE - 1) < 2 ^ 64) by (unfold OVERHEAD, DSIZE; lia).
  assert (H4 : mem_max st < heap_lo st + 2 ^ 31) by exact ex_live_small.
  assert (H5 : (length l < 3)%nat) by (cbn; lia).
  split; [exact H1|]. split; [exact H2|]. split; [exact H3|]. split; [exact H4|].
  split; [exact H5|].
  exact (mm_malloc_new_block st bs l 100 3 H1 H2 H3 H4 H5).
Defined.

(** X5: under the same bounds [mm_malloc] changes no payload word of a block
    that was allocated before the call. *)
Theorem mm_malloc_keeps_payloads (st : state) (bs : list block) (l : list Z)
    (size : Z) (fuel : nat) :
  wf st bs l ->
  0 < size -> size + OVERHEAD + (DSIZE - 1) < 2 ^ 64 ->
  mem_max st < heap_lo st + 2 ^ 31 ->
  (length l < fuel)%nat ->
  exists bp st',
    mm_malloc fuel st size = Some (bp, st') /\
    forall p sz a,
      In (p, sz) (alloc_bps (first_bp st) bs) -> p <= a < p + sz - DSIZE ->
      mem st' a = mem st a.
Proof.
  intros Hwf Hsize Hnowrap Hsmall Hfuel.
  destruct (mm_malloc_live st bs l size fuel Hwf Hsize Hnowrap Hsmall Hfuel)
    as (bp & st' & E & _ & _ & Hcases).
  cbn zeta in Hcases.
  exists bp, st'. split; [exact E|]. intros p sz a Hin Ha.
  assert (Hpw : payload_word (alloc_bps (first_bp st) bs) a).
  { exists p, sz. auto. }
  destruct Hcases as [(_ & _ & l1 & l2 & bs1 & s0 & bs2 & _ & _ & _ & _ & _ & _ & H)
                     |[(_ & _ & _ & bs1 & S & _ & _ & H)|(_ & -> & _)]];
    [| |reflexivity];
    destruct H as (_ & _ & _ & _ & _ & _ & _ & _ & _ & _ & Hframe); apply Hframe, Hpw.
Qed.

Lemma mm_malloc_keeps_payloads_witness :
  let st := ex_live in
  let bs := [(128, 1); (224, 0); (80, 1); (3664, 0)] in
  let l := [65696; 66000] in
  wf st bs l /\ 0 < 100 /\ 100 + OVERHEAD + (DSIZE - 1) < 2 ^ 64 /\
  mem_max st < heap_lo st + 2 ^ 31 /\ (length l < 3)%nat /\
  exists bp st',
    mm_malloc 3 st 100 = Some (bp, st') /\
    forall p sz a,
      In (p, sz) (alloc_bps (first_bp st) bs) -> p <= a < p + sz - DSIZE ->
      mem st' a = mem st a.
Proof.
  intros st bs l.
  assert (H1 : wf st bs l) by exact ex_live_wf.
  assert (H2 : 0 < 100) by lia.
  assert (H3 : 100 + OVERHEAD + (DSIZE - 1) < 2 ^ 64) by (unfold OVERHEAD, DSIZE; lia).
  assert (H4 : mem_max st < heap_lo st + 2 ^ 31) by exact ex_live_small.
  assert (H5 : (length l < 3)%nat) by (cbn; lia).
  split; [exact H1|]. split; [exact H2|]. split; [exact H3|]. split; [exact H4|].
  split; [exact H5|].
  exact (mm_malloc_keeps_payloads st bs l 100 3 H1 H2 H3 H4 H5).
Defined.



(** X7: after [mm_free] of an allocated block of size [s], a request whose
    adjusted size does not wrap around and is at most [s] returns the head
    of the free list, which is the merged block that contains the freed one;
    it is the freed block itself when the block before it is allocated. *)
Theorem mm_malloc_reuses_freed_block (st : state) (bs1 : list block) (s : Z)
    (bs2 : list block) (l : list Z) (size : Z) (fuel : nat) :
  wf st (bs1 ++ (s, 1) :: bs2) l ->
  0 < size -> size + OVERHEAD + (DSIZE - 1) < 2 ^ 64 ->
  adjusted_size size <= s -> (0 < fuel)%nat ->
  let bp := first_bp st + span bs1 in
  let st1 := mm_free st bp in
  exists bp' st2,
    mm_malloc fuel st1 size = Some (bp', st2) /\
    bp' = heap_start st1 /\ bp' <= bp /\
    (snd (last bs1 (OVERHEAD, 1)) = 1 -> bp' = bp).
Proof.
  intros Hwf Hsize _ Hfit Hfuel bp st1.
  destruct (mm_free_live st bs1 s bs2 l Hwf) as
    (bs1' & S & bs2' & l' & Hwf' & Ehs & Hle & Hge & Hsame & _ & _ & _ & _ & _ & _
     & Elo & _).
  fold bp in Hwf', Ehs, Hle, Hge, Hsame, Elo.
  fold st1 in Hwf', Ehs, Hle, Hge, Hsame, Elo.
  assert (Efb : first_bp st1 = first_bp st) by (unfold first_bp; rewrite Elo; auto).
  destruct (wf_head_reads st1 bs1' S bs2' _ Hwf') as (Es & _ & Hnn & Hnlo).
  rewrite Efb, <- Ehs in Es, Hnn, Hnlo.
  exists (heap_start st1), (place st1 (heap_start st1) (adjusted_size size)).
  split; [|auto].
  unfold mm_malloc. destruct (Z.leb_spec size 0); [lia|].
  unfold find_fit. destruct fuel as [|fuel]; [lia|]. cbn [find_fit_from].
  destruct (Z.eqb_spec (heap_start st1) (mem_heap_lo st1)); [contradiction|].
  destruct (Z.leb_spec (adjusted_size size) (GET_SIZE st1 (HDRP (heap_start st1))));
    [|lia].
  destruct (Z.eqb_spec (heap_start st1) NULL); [contradiction|]. reflexivity.
Qed.

Lemma mm_malloc_reuses_freed_block_witness :
  let st := ex_live in
  let bs1 := [] in
  let bs2 := [(224, 0); (80, 1); (3664, 0)] in
  let l := [65696; 66000] in
  wf st (bs1 ++ (128, 1) :: bs2) l /\
  0 < 100 /\ 100 + OVERHEAD + (DSIZE - 1) < 2 ^ 64 /\
  adjusted_size 100 <= 128 /\ (0 < 1)%nat /\
  let bp := first_bp st + span bs1 in
  let st1 := mm_free st bp in
  exists bp' st2,
    mm_malloc 1 st1 100 = Some (bp', st2) /\
    bp' = heap_start st1 /\ bp' <= bp /\
    (snd (last bs1 (OVERHEAD, 1)) = 1 -> bp' = bp).
Proof.
  intros st bs1 bs2 l.
  assert (H1 : wf st (bs1 ++ (128, 1) :: bs2) l) by exact ex_live_wf.
  assert (H2 : 0 < 100) by lia.
  assert (H3 : 100 + OVERHEAD + (DSIZE - 1) < 2 ^ 64) by (unfold OVERHEAD, DSIZE; lia).
  assert (H4 : adjusted_size 100 <= 128) by (vm_compute; discriminate).
  assert (H5 : (0 < 1)%nat) by lia.
  split; [exact H1|]. split; [exact H2|]. split; [exact H3|]. split; [exact H4|].
  split; [exact H5|].
  exact (mm_malloc_reuses_freed_block st bs1 128 bs2 l 100 1 H1 H2 H3 H4 H5).
Defined.

Lemma naf_flags (bs1 : list block) (s : Z) (bs2 : list block) :
  no_adjacent_free (bs1 ++ (s, 0) :: bs2) ->
  (snd (last bs1 (OVERHEAD, 1)) =? 0) = false /\
  (snd (hd (0, 1) bs2) =? 0) = false.
Proof.
  intros N. apply naf_app in N. destruct N as (_ & N2 & N1).
  cbn [no_adjacent_free snd] in *. destruct N2 as [N2 _].
  split; apply Z.eqb_neq; [intros E; apply (N1 E); reflexivity|apply N2; reflexivity].
Qed.

(** Freeing the block that [place] made gives back the free block. *)
Lemma freed_placed (bs1 : list block) (s : Z) (bs2 : list block) (asize s' : Z)
    (bs2' : list block) :
  no_adjacent_free (bs1 ++ (s, 0) :: bs2) ->
  bs1 ++ (s', 1) :: bs2' = placed_blocks bs1 s bs2 asize ->
  freed_blocks bs1 s' bs2' = bs1 ++ (s, 0) :: bs2.
Proof.
  intros N E. destruct (naf_flags _ _ _ N) as [F1 F2].
  unfold placed_blocks in E. unfold freed_blocks. rewrite F1.
  destruct (s - asize <? MINIMUMSIZE); apply app_inv_head in E;
    injection E as -> ->.
  - rewrite F2. f_equal. f_equal. f_equal. lia.
  - cbn [hd tl fst snd Z.eqb]. f_equal. f_equal. f_equal. lia.
Qed.

Lemma freed_blocks_naf (bs1 : list block) (s : Z) (bs2 : list block) :
  no_adjacent_free bs1 -> no_adjacent_free bs2 ->
  no_adjacent_free (freed_blocks bs1 s bs2).
Proof.
  intros N1 N2. unfold freed_blocks.
  set (S := (if snd (last bs1 (OVERHEAD, 1)) =? 0
             then fst (last bs1 (OVERHEAD, 1)) else 0) + s +
            (if snd (hd (0, 1) bs2) =? 0 then fst (hd (0, 1) bs2) else 0)).
  assert (Hnext : no_adjacent_free
                    ((S, 0) :: (if snd (hd (0, 1) bs2) =? 0 then tl bs2 else bs2))).
  { cbn [no_adjacent_free snd].
    destruct (Z.eqb_spec (snd (hd (0, 1) bs2)) 0) as [E|N].
    - rewrite (next_free_split bs2 E) in N2. cbn [no_adjacent_free snd] in N2.
      destruct N2 as [N2 N2']. split; [intros _; apply N2; reflexivity|exact N2'].
    - split; [intros _; exact N|exact N2]. }
  apply naf_app.
  destruct (Z.eqb_spec (snd (last bs1 (OVERHEAD, 1))) 0) as [E|N].
  - rewrite (prev_free_split bs1 E) in N1.
    apply naf_app in N1. destruct N1 as (N1 & _ & N1').
    split; [exact N1|]. split; [exact Hnext|].
    cbn [snd] in *. intros H _. apply (N1' H). reflexivity.
  - split; [exact N1|]. split; [exact Hnext|]. intros H. contradiction.
Qed.

(** X8: in a well-formed heap without adjacent free blocks, a successful
    [mm_malloc] followed by [mm_free] of the pointer it returned restores
    the blocks: they are the blocks before the request when a free block
    fitted, and those blocks with the extension merged at the end when the
    heap was extended. *)
Theorem mm_malloc_then_free_restores (st : state) (bs : list block) (l : list Z)
    (size : Z) (fuel : nat) :
  wf st bs l -> no_adjacent_free bs ->
  0 < size -> size + OVERHEAD + (DSIZE - 1) < 2 ^ 64 ->
  mem_max st < heap_lo st + 2 ^ 31 ->
  (length l < fuel)%nat ->
  exists bp st',
    mm_malloc fuel st size = Some (bp, st') /\
    (bp <> NULL ->
     exists l'',
       (mem_brk st' = mem_brk st /\ wf (mm_free st' bp) bs l'')
       \/
       (mem_brk st' = mem_brk st + Z.max (adjusted_size size) CHUNKSIZE /\
        wf (mm_free st' bp)
           (freed_blocks bs (Z.max (adjusted_size size) CHUNKSIZE) []) l'')).
Proof.
  intros Hwf Hnaf Hsize Hnowrap Hsmall Hfuel.
  destruct (mm_malloc_live st bs l size fuel Hwf Hsize Hnowrap Hsmall Hfuel)
    as (bp & st' & E & Elo & _ & Hcases).
  cbn zeta in Hcases.
  exists bp, st'. split; [exact E|]. intros Hnn.
  assert (Efb : first_bp st' = first_bp st) by (unfold first_bp; rewrite Elo; auto).
  assert (Hback : forall bs1 s0 bs2 l',
             wf st' (placed_blocks bs1 s0 bs2 (adjusted_size size)) l' ->
             no_adjacent_free (bs1 ++ (s0, 0) :: bs2) ->
             bp = first_bp st + span bs1 ->
             exists l'', wf (mm_free st' bp) (bs1 ++ (s0, 0) :: bs2) l'').
  { intros bs1 s0 bs2 l' Hwf' N Ebp.
    assert (Hsh : exists s' bs2',
               placed_blocks bs1 s0 bs2 (adjusted_size size) = bs1 ++ (s', 1) :: bs2').
    { unfold placed_blocks. destruct (_ <? _); eexists; eexists; reflexivity. }
    destruct Hsh as (s' & bs2' & Esh). rewrite Esh in Hwf'.
    destruct (mm_free_live st' bs1 s' bs2' l' Hwf') as
      (bs1' & S & bs2'' & l'' & Hwf'' & _ & _ & _ & _ & _ & Esh' & _).
    rewrite Efb, <- Ebp in Hwf''. rewrite Esh' in Hwf''.
    rewrite (freed_placed bs1 s0 bs2 (adjusted_size size) s' bs2' N (eq_sym Esh))
      in Hwf''.
    eexists. exact Hwf''. }
  destruct Hcases as [(_ & Eb & l1 & l2 & bs1 & s0 & bs2 & _ & _ & Ebs & Ebp & _ & _ & H)
                     |[(_ & _ & Eb & bs1 & S & Esh & Ebp & H)|(N & _)]];
    [| |contradiction].
  - destruct H as (l' & _ & _ & _ & Hwf' & _). subst bs.
    destruct (Hback bs1 s0 bs2 l' Hwf' Hnaf Ebp) as (l'' & Hw).
    exists l''. left. split; [exact Eb|exact Hw].
  - destruct H as (l' & _ & _ & _ & Hwf' & _).
    assert (N : no_adjacent_free (bs1 ++ [(S, 0)])).
    { rewrite Esh. apply freed_blocks_naf; [exact Hnaf|exact I]. }
    destruct (Hback bs1 S [] l' Hwf' N Ebp) as (l'' & Hw).
    exists l''. right. split; [exact Eb|]. rewrite <- Esh. exact Hw.
Qed.

Lemma mm_malloc_then_free_restores_witness :
  let st := ex_live in
  let bs := [(128, 1); (224, 0); (80, 1); (3664, 0)] in
  let l := [65696; 66000] in
  wf st bs l /\ no_adjacent_free bs /\
  0 < 100 /\ 100 + OVERHEAD + (DSIZE - 1) < 2 ^ 64 /\
  mem_max st < heap_lo st + 2 ^ 31 /\ (length l < 3)%nat /\
  exists bp st',
    mm_malloc 3 st 100 = Some (bp, st') /\
    (bp <> NULL ->
     exists l'',
       (mem_brk st' = mem_brk st /\ wf (mm_free st' bp) bs l'')
       \/
       (mem_brk st' = mem_brk st + Z.max (adjusted_size 100) CHUNKSIZE /\
        wf (mm_free st' bp)
           (freed_blocks bs (Z.max (adjusted_size 100) CHUNKSIZE) []) l'')).
Proof.
  intros st bs l.
  assert (H1 : wf st bs l) by exact ex_live_wf.
  assert (H0 : no_adjacent_free bs) by exact ex_live_naf.
  assert (H2 : 0 < 100) by lia.
  assert (H3 : 100 + OVERHEAD + (DSIZE - 1) < 2 ^ 64) by (unfold OVERHEAD, DSIZE; lia).
  assert (H4 : mem_max st < heap_lo st + 2 ^ 31) by exact ex_live_small.
  assert (H5 : (length l < 3)%nat) by (cbn; lia).
  split; [exact H1|]. split; [exact H0|]. split; [exact H2|]. split; [exact H3|].
  split; [exact H4|]. split; [exact H5|].
  exact (mm_malloc_then_free_restores st bs l 100 3 H1 H0 H2 H3 H4 H5).
Defined.

(** ** The internal routines *)



(** X10: where the remainder fits the [int] of [place] (below 2^31), placing
    [asize] bytes in a free block of a well-formed heap leaves a well-formed
    heap in which the block is allocated whole, or split into an allocated
    front of [asize] bytes and a free rest, the rest being at least a
    minimum block; the bytes covered stay the same and no payload word of an
    allocated block changes. *)
Theorem place_blocks (st : state) (bs1 : list block) (s : Z) (bs2 : list block)
    (l : list Z) (asize : Z) :
  wf st (bs1 ++ (s, 0) :: bs2) l ->
  MINIMUMSIZE <= asize <= s -> asize mod DSIZE = 0 -> s - asize < 2 ^ 31 ->
  let bp := first_bp st + span bs1 in
  let st' := place st bp asize in
  (exists l', wf st' (placed_blocks bs1 s bs2 asize) l') /\
  span (placed_blocks bs1 s bs2 asize) = span (bs1 ++ (s, 0) :: bs2) /\
  GET_ALLOC st' (HDRP bp) = 1 /\
  asize <= GET_SIZE st' (HDRP bp) < asize + MINIMUMSIZE /\
  (forall p sz a,
      In (p, sz) (alloc_bps (first_bp st) (bs1 ++ (s, 0) :: bs2)) ->
      p <= a < p + sz - DSIZE -> mem st' a = mem st a).
Proof.
  intros Hwf Hasz Ham Hint bp st'.
  destruct (place_live st bs1 s bs2 l asize Hwf Hasz Ham Hint) as
    (Elo & _ & _ & s' & bs2' & l' & Hwf' & Hs' & _ & _ & _ & Esh & _ & Hsp & _ & Hframe).
  fold bp in Elo, Hwf', Hframe. fold st' in Elo, Hwf', Hframe.
  assert (Efb : first_bp st' = first_bp st) by (unfold first_bp; rewrite Elo; auto).
  destruct Hwf' as [[Hlay' Hl'] Hp'].
  destruct (layout_reads _ _ _ _ Hlay') as (_ & _ & Es & Ea & _).
  rewrite Efb in Es, Ea. fold bp in Es, Ea. cbn [fst snd] in Es, Ea.
  rewrite <- Esh.
  split; [exists l'; split; [split|]; assumption|]. split; [exact Hsp|].
  split; [exact Ea|]. split; [rewrite Es; exact Hs'|].
  intros p sz a Hin Ha. apply Hframe. exists p, sz. split; [|exact Ha].
  rewrite alloc_bps_app in Hin. cbn [alloc_bps fst snd Z.eqb] in Hin. exact Hin.
Qed.

Lemma place_blocks_witness :
  let st := ex_live in
  let bs1 := [(128, 1)] in
  let bs2 := [(80, 1); (3664, 0)] in
  let l := [65696; 66000] in
  wf st (bs1 ++ (224, 0) :: bs2) l /\
  MINIMUMSIZE <= 128 <= 224 /\ 128 mod DSIZE = 0 /\ 224 - 128 < 2 ^ 31 /\
  let bp := first_bp st + span bs1 in
  let st' := place st bp 128 in
  (exists l', wf st' (placed_blocks bs1 224 bs2 128) l') /\
  span (placed_blocks bs1 224 bs2 128) = span (bs1 ++ (224, 0) :: bs2) /\
  GET_ALLOC st' (HDRP bp) = 1 /\
  128 <= GET_SIZE st' (HDRP bp) < 128 + MINIMUMSIZE /\
  (forall p sz a,
      In (p, sz) (alloc_bps (first_bp st) (bs1 ++ (224, 0) :: bs2)) ->
      p <= a < p + sz - DSIZE -> mem st' a = mem st a).
Proof.
  intros st bs1 bs2 l.
  assert (H1 : wf st (bs1 ++ (224, 0) :: bs2) l) by exact ex_live_wf.
  assert (H2 : MINIMUMSIZE <= 128 <= 224) by (unfold MINIMUMSIZE; lia).
  assert (H3 : 128 mod DSIZE = 0) by reflexivity.
  assert (H4 : 224 - 128 < 2 ^ 31) by lia.
  split; [exact H1|]. split; [exact H2|]. split; [exact H3|]. split; [exact H4|].
  exact (place_blocks st bs1 224 bs2 l 128 H1 H2 H3 H4).
Defined.

(** ** Freeing twice *)

Lemma find_fit_from_self_loop (st : state) (bp asize : Z) :
  bp <> mem_heap_lo st -> NEXT_FREE st bp = bp ->
  GET_SIZE st (HDRP bp) < asize ->
  forall fuel, find_fit_from fuel st asize bp = None.
Proof.
  intros Hne Hnext Hsz. induction fuel as [|fuel IH]; [reflexivity|].
  cbn [find_fit_from].
  destruct (Z.eqb_spec bp (mem_heap_lo st)); [contradiction|].
  destruct (Z.leb_spec asize (GET_SIZE st (HDRP bp))); [lia|].
  rewrite Hnext. exact IH.
Qed.

(* mm_free of a block that is free already, at the head of the list, with
   allocated neighbours *)
Lemma mm_free_of_head (st : state) (bs1 : list block) (s : Z) (bs2 : list block)
    (l : list Z) :
  let bp := first_bp st + span bs1 in
  wf st (bs1 ++ (s, 0) :: bs2) (bp :: l) ->
  snd (last bs1 (OVERHEAD, 1)) = 1 -> snd (hd (0, 1) bs2) = 1 ->
  let st' := mm_free st bp in
  heap_start st' = bp /\ NEXT_FREE st' bp = bp /\
  GET_SIZE st' (HDRP bp) = s /\ heap_lo st' = heap_lo st.
Proof.
  intros bp [[Hlay Hl] Hperm] Hprev Hnext st'.
  pose proof (lay_lo _ _ Hlay) as Hlo.
  destruct (layout_reads _ _ _ _ Hlay) as (Eh & _ & Es & _ & _ & Ef & _).
  destruct (layout_at _ _ _ _ Hlay) as ((Hmin & Hmod & _) & Hbp & Hend & Hsp2 & Hbrk & Hh & Hf & _).
  fold bp in Eh, Es, Ef, Hbp, Hend, Hh, Hf. cbn [fst snd] in *.
  assert (Hnode : node_ok st bp).
  { apply (layout_node_ok st _ bp Hlay). apply (Permutation_in _ Hperm). left.
    reflexivity. }
  assert (Ehs : heap_start st = bp).
  { cbn [free_list] in Hl. destruct Hl as (E & _). exact E. }
  set (st1 := PUT st (HDRP bp) (PACK (GET_SIZE st (HDRP bp)) 0)).
  assert (Es1 : GET_SIZE st1 (HDRP bp) = s).
  { apply (GET_SIZE_PACK st1 _ s 0); unfold MINIMUMSIZE, DSIZE in *; try lia.
    unfold st1. rewrite Es. cbn [mem PUT set_mem]. apply upd_eq. }
  assert (Ef1 : FTRP st1 bp = bp + s - DSIZE).
  { unfold FTRP. rewrite Es1. unfold PADD, MINIMUMSIZE, DSIZE in *.
    rewrite (wrap64_small (s - 16)) by lia. rewrite wrap64_small by lia. lia. }
  set (st2 := PUT st1 (FTRP st1 bp) (PACK (GET_SIZE st (HDRP bp)) 0)).
  assert (Em : forall c, mem st2 c = mem st c).
  { intros c. unfold st2. rewrite Ef1. unfold st1. rewrite Es, Eh.
    cbn [mem PUT set_mem]. unfold upd.
    destruct (Z.eqb_spec c (bp + s - DSIZE)) as [->|_]; [symmetry; exact Hf|].
    destruct (Z.eqb_spec c (bp - WSIZE)) as [->|_]; [symmetry; exact Hh|].
    reflexivity. }
  assert (Hlay2 : layout st2 (bs1 ++ (s, 0) :: bs2)).
  { apply (layout_frame st st2 _ Hlay); try reflexivity.
    intros c N. exfalso. apply N. apply Em. }
  destruct (layout_reads _ _ _ _ Hlay2) as
    (_ & _ & Es2 & _ & _ & _ & _ & Epa & _ & _ & _ & Ena).
  change (first_bp st2) with (first_bp st) in *. fold bp in Es2, Epa, Ena.
  assert (E : coalesce st2 bp = (bp, insert_head st2 bp)).
  { unfold coalesce. rewrite Epa, Ena, Hprev, Hnext. reflexivity. }
  assert (E' : st' = insert_head st2 bp).
  { unfold st', mm_free. fold st1. fold st2. rewrite E. reflexivity. }
  rewrite E'.
  destruct (insert_head_fields st2 bp) as (H1 & H2 & _).
  split; [exact H1|].
  assert (Ehs2 : heap_start st2 = bp) by exact Ehs.
  split.
  - unfold NEXT_FREE, GET. rewrite insert_head_mem.
    rewrite (node_ok_PADD st bp Hnode Hlo). rewrite Ehs2.
    destruct (Z.eqb_spec (bp + WSIZE) bp); [unfold WSIZE in *; lia|].
    rewrite Z.eqb_refl. reflexivity.
  - split; [|exact H2].
    unfold GET_SIZE, GET. rewrite insert_head_mem, Eh, Ehs2.
    rewrite (node_ok_PADD st bp Hnode Hlo).
    destruct (Z.eqb_spec (bp - WSIZE) bp); [unfold WSIZE in *; lia|].
    destruct (Z.eqb_spec (bp - WSIZE) (bp + WSIZE)); [unfold WSIZE in *; lia|].
    rewrite Em, Hh. apply size_of_PACK; unfold MINIMUMSIZE, DSIZE in *; lia.
Qed.

(** X11: freeing a block a second time, when the block before it is
    allocated, makes the next-link of the head of the free list point to the
    head itself: [find_fit] then never ends for a size that the block cannot
    hold, and neither does [mm_malloc] for such a request (no amount of fuel
    gives a result). *)
Theorem double_free_loops (st : state) (bs1 : list block) (s : Z)
    (bs2 : list block) (l : list Z) :
  wf st (bs1 ++ (s, 1) :: bs2) l ->
  no_adjacent_free (bs1 ++ (s, 1) :: bs2) ->
  snd (last bs1 (OVERHEAD, 1)) = 1 ->
  let bp := first_bp st + span bs1 in
  let st2 := mm_free (mm_free st bp) bp in
  heap_start st2 = bp /\ NEXT_FREE st2 bp = bp /\
  (forall asize fuel,
      GET_SIZE st2 (HDRP bp) < asize -> find_fit fuel st2 asize = None) /\
  (forall size fuel,
      0 < size -> GET_SIZE st2 (HDRP bp) < adjusted_size size ->
      mm_malloc fuel st2 size = None).
Proof.
  intros Hwf Hnaf Hprev bp st2.
  pose proof (mm_free_pending st bs1 s bs2 l Hwf) as Hpend. cbn zeta in Hpend.
  fold bp in Hpend.
  set (sta := PUT (PUT st (HDRP bp) (PACK (GET_SIZE st (HDRP bp)) 0)) _ _) in Hpend.
  assert (Efree : mm_free st bp = snd (coalesce sta bp)) by reflexivity.
  pose proof Hpend as [[Hlay _] _].
  pose proof (lay_ok _ _ Hlay) as Hok.
  apply Forall_app in Hok. destruct Hok as [Hok1 Hok2].
  apply Forall_cons_iff in Hok2. destruct Hok2 as [_ Hok2].
  apply naf_app in Hnaf. destruct Hnaf as (_ & Hnaf2 & _).
  cbn [no_adjacent_free] in Hnaf2. destruct Hnaf2 as [_ Hnaf2].
  assert (Hnf : snd (hd (0, 1) bs2) = 0 \/ snd (hd (0, 1) bs2) = 1).
  { apply (flag_cases bs2 (0, 1)); auto. apply hd_default_or_in. }
  assert (Hfirst : exists S bs2' l',
             wf (mm_free st bp) (bs1 ++ (S, 0) :: bs2') (bp :: l') /\
             snd (hd (0, 1) bs2') = 1).
  { destruct Hnf as [Hn|Hn].
    - pose proof (next_free_split bs2 Hn) as E2.
      rewrite E2 in Hpend.
      destruct (coalesce_next_free _ _ _ _ _ _ Hpend Hprev) as (l1 & l2 & _ & _ & Hw).
      change (first_bp sta + span bs1) with bp in Hw. rewrite <- Efree in Hw.
      eexists. exists (tl bs2), (l1 ++ l2). split; [exact Hw|].
      rewrite E2 in Hnaf2, Hok2. cbn [no_adjacent_free hd snd tl] in *.
      destruct Hnaf2 as [N _].
      apply Forall_cons_iff in Hok2. destruct Hok2 as [_ Hok2].
      destruct (flag_cases (tl bs2) (0, 1) (hd (0, 1) (tl bs2)) Hok2 eq_refl
                  (hd_default_or_in _ _)) as [F|F]; [|exact F].
      exfalso. apply N; auto.
    - destruct (coalesce_none_free _ _ _ _ _ Hpend Hprev Hn) as (_ & Hw).
      change (first_bp sta + span bs1) with bp in Hw. rewrite <- Efree in Hw.
      exists s, bs2, l. split; [exact Hw|exact Hn]. }
  destruct Hfirst as (S & bs2' & l' & Hw1 & Hn1).
  assert (Elo1 : heap_lo (mm_free st bp) = heap_lo st).
  { rewrite Efree. destruct (coalesce_fields sta bp) as (-> & _). reflexivity. }
  assert (Efb : first_bp (mm_free st bp) = first_bp st).
  { unfold first_bp. rewrite Elo1. reflexivity. }
  pose proof (mm_free_of_head (mm_free st bp) bs1 S bs2' l') as H.
  cbn zeta in H. rewrite Efb in H. fold bp in H.
  destruct (H Hw1 Hprev Hn1) as (Ehs & Enext & Esz & Elo2). fold st2 in Ehs, Enext, Esz, Elo2.
  assert (Hne : bp <> mem_heap_lo st2).
  { unfold mem_heap_lo. rewrite Elo2, Elo1.
    pose proof (span_bounds _ Hok1) as [? _]. unfold bp, first_bp, DSIZE. lia. }
  split; [exact Ehs|]. split; [exact Enext|].
  assert (Hloop : forall asize fuel,
             GET_SIZE st2 (HDRP bp) < asize -> find_fit fuel st2 asize = None).
  { intros asize fuel Hlt. unfold find_fit. rewrite Ehs.
    apply find_fit_from_self_loop; assumption. }
  split; [exact Hloop|].
  intros size fuel Hsz Hlt. unfold mm_malloc.
  destruct (Z.leb_spec size 0); [lia|]. rewrite (Hloop _ fuel Hlt). reflexivity.
Qed.

Lemma double_free_loops_witness :
  let st := ex_live in
  let bs1 := [] in
  let bs2 := [(224, 0); (80, 1); (3664, 0)] in
  let l := [65696; 66000] in
  wf st (bs1 ++ (128, 1) :: bs2) l /\
  no_adjacent_free (bs1 ++ (128, 1) :: bs2) /\
  snd (last bs1 (OVERHEAD, 1)) = 1 /\
  let bp := first_bp st + span bs1 in
  let st2 := mm_free (mm_free st bp) bp in
  heap_start st2 = bp /\ NEXT_FREE st2 bp = bp /\
  (forall asize fuel,
      GET_SIZE st2 (HDRP bp) < asize -> find_fit fuel st2 asize = None) /\
  (forall size fuel,
      0 < size -> GET_SIZE st2 (HDRP bp) < adjusted_size size ->
      mm_malloc fuel st2 size = None).
Proof.
  intros st bs1 bs2 l.
  assert (H1 : wf st (bs1 ++ (128, 1) :: bs2) l) by exact ex_live_wf.
  assert (H2 : no_adjacent_free (bs1 ++ (128, 1) :: bs2)) by exact ex_live_naf.
  assert (H3 : snd (last bs1 (OVERHEAD, 1)) = 1) by reflexivity.
  split; [exact H1|]. split; [exact H2|]. split; [exact H3|].
  exact (double_free_loops st bs1 128 bs2 l H1 H2 H3).
Defined.

(** ** The adjusted size and the list routines *)

(** X12: the adjusted size covers the request and the two tags exactly when
    size + OVERHEAD + (DSIZE - 1) does not exceed the 64 bits of [size_t];
    above that bound the adjusted size is 0 or DSIZE. *)
Theorem adjusted_size_covers_iff (size : Z) :
  0 < size < 2 ^ 64 ->
  (size + OVERHEAD <= adjusted_size size <->
   size + OVERHEAD + (DSIZE - 1) < 2 ^ 64) /\
  (2 ^ 64 <= size + OVERHEAD + (DSIZE - 1) ->
   adjusted_size size = 0 \/ adjusted_size size = DSIZE).
Proof.
  intros Hs.
  assert (Hhigh : 2 ^ 64 <= size + OVERHEAD + (DSIZE - 1) ->
                  adjusted_size size = 0 \/ adjusted_size size = DSIZE).
  { intros H. unfold adjusted_size, wrap64, OVERHEAD, DSIZE in *.
    destruct (Z.leb_spec size 16) as [?|_]; [lia|].
    assert (E : (((size + 16) mod 2 ^ 64 + (16 - 1)) mod 2 ^ 64) / 16 = 0 \/
                (((size + 16) mod 2 ^ 64 + (16 - 1)) mod 2 ^ 64) / 16 = 1).
    { Z.div_mod_to_equations. lia. }
    destruct E as [-> | ->]; [left|right]; reflexivity. }
  split; [|exact Hhigh].
  split.
  - intros H. destruct (Z.lt_ge_cases (size + OVERHEAD + (DSIZE - 1)) (2 ^ 64)) as [?|N];
      [assumption|].
    destruct (Hhigh N) as [E|E]; rewrite E in H; unfold OVERHEAD, DSIZE in *; lia.
  - intros H. destruct (adjusted_size_in_range size (proj1 Hs) H) as (_ & _ & _ & H1 & _).
    exact H1.
Qed.

Lemma adjusted_size_covers_iff_witness :
  0 < 100 < 2 ^ 64 /\
  ((100 + OVERHEAD <= adjusted_size 100 <->
    100 + OVERHEAD + (DSIZE - 1) < 2 ^ 64) /\
   (2 ^ 64 <= 100 + OVERHEAD + (DSIZE - 1) ->
    adjusted_size 100 = 0 \/ adjusted_size 100 = DSIZE)).
Proof.
  split; [lia|]. apply (adjusted_size_covers_iff 100). lia.
Defined.

(** X13: [insert_head] followed by [remove_node] of the same node restores
    the head pointer and the list, and changes no word other than the two
    link words of the node (and the word at the low end of the heap when the
    list is empty). *)
Theorem insert_head_remove_node_round_trip (st : state) (l : list Z) (bp : Z) :
  list_state st l -> node_ok st bp -> ~ In bp l ->
  let st' := remove_node (insert_head st bp) bp in
  heap_start st' = heap_start st /\
  free_list st' NULL (heap_start st') l /\
  (forall c, c <> bp -> c <> bp + WSIZE -> (l = [] -> c <> heap_lo st) ->
             mem st' c = mem st c).
Proof.
  intros Hls Hbp Hnin st'.
  destruct (list_state_inv _ _ Hls) as (Hlo & Hok & Hl).
  pose proof (ls_insert st l bp Hls Hbp Hnin) as Hls1.
  destruct (list_state_inv _ _ Hls1) as (Hlo1 & Hok1 & Hl1).
  destruct (remove_node_list (insert_head st bp) bp [] l Hlo1 Hl1 Hok1) as [Hl2 Hmem].
  cbn [app last] in Hl2, Hmem. fold st' in Hl2, Hmem.
  destruct (insert_head_fields st bp) as (Ehs & Elo & _).
  pose proof (free_list_hd _ _ _ _ Hl2) as Ehd'.
  pose proof (free_list_hd _ _ _ _ Hl) as Ehd.
  assert (Elo' : heap_lo st' = heap_lo st).
  { unfold st'. destruct (remove_node_fields (insert_head st bp) bp) as (-> & _).
    exact Elo. }
  assert (Ehs' : heap_start st' = heap_start st) by congruence.
  split; [exact Ehs'|]. split; [exact Hl2|].
  intros c Hc1 Hc2 Hc3. rewrite Hmem. rewrite Elo. rewrite <- Ehd.
  change (negb (NULL =? NULL)) with false. cbn [andb].
  rewrite insert_head_mem. rewrite (node_ok_PADD st bp Hbp Hlo).
  destruct (Z.eqb_spec c (heap_start st)) as [E|N].
  - (* the previous-link of the old head is NULL again *)
    destruct l as [|x l]; [cbn [hd] in Ehd; exfalso; apply Hc3; congruence|].
    cbn [free_list] in Hl. destruct Hl as (E1 & _ & E2 & _).
    rewrite E, E1. symmetry. exact E2.
  - destruct (Z.eqb_spec c bp); [contradiction|].
    destruct (Z.eqb_spec c (bp + WSIZE)); [contradiction|]. reflexivity.
Qed.

Lemma insert_head_remove_node_round_trip_witness :
  let st := insert_head (set_heap_start (ex_source 4096) 65536) 65568 in
  let l := [65568] in
  let bp := 65600 in
  list_state st l /\ node_ok st bp /\ ~ In bp l /\
  let st' := remove_node (insert_head st bp) bp in
  heap_start st' = heap_start st /\
  free_list st' NULL (heap_start st') l /\
  (forall c, c <> bp -> c <> bp + WSIZE -> (l = [] -> c <> heap_lo st) ->
             mem st' c = mem st c).
Proof.
  intros st l bp.
  assert (H1 : list_state st l) by exact ex_list_state.
  assert (H2 : node_ok st bp) by (repeat split; vm_compute; congruence).
  assert (H3 : ~ In bp l) by (intros [H|[]]; discriminate H).
  split; [exact H1|]. split; [exact H2|]. split; [exact H3|].
  exact (insert_head_remove_node_round_trip st l bp H1 H2 H3).
Defined.

(** ** The diagnostics *)

Lemma check_heap_from_sound (st : state) (fuel : nat) :
  forall bp,
    check_heap_from fuel st bp = Some true ->
    Forall (fun b => fst (fst b) mod DSIZE = 0 /\
                     GET st (HDRP (fst (fst b))) = GET st (FTRP st (fst (fst b))))
           (heap_blocks fuel st bp) /\
    GET_SIZE st (HDRP (heap_end fuel st bp)) = 0 /\
    GET_ALLOC st (HDRP (heap_end fuel st bp)) <> 0.
Proof.
  induction fuel as [|fuel IH]; intros bp H; [discriminate|].
  cbn [check_heap_from heap_blocks heap_end] in *.
  destruct (GET_SIZE st (HDRP bp) >? 0) eqn:Epos.
  - unfold check_block in H.
    destruct (Z.eqb_spec (bp mod DSIZE) 0) as [Ea|_]; [|discriminate].
    destruct (Z.eqb_spec (GET st (HDRP bp)) (GET st (FTRP st bp))) as [Et|_];
      [|discriminate].
    cbn [negb] in H. destruct (IH _ H) as (H1 & H2 & H3).
    split; [|split; assumption].
    constructor; [cbn [fst]; split; assumption|exact H1].
  - destruct (Z.eqb_spec (GET_SIZE st (HDRP bp)) 0) as [E0|_]; [|discriminate].
    destruct (Z.eqb_spec (GET_ALLOC st (HDRP bp)) 0) as [|N]; [discriminate|].
    split; [constructor|]. split; assumption.
Qed.



Lemma layout_epilogue_reads (st : state) (bs : list block) :
  layout st bs ->
  GET_SIZE st (HDRP (mem_brk st)) = 0 /\ GET_ALLOC st (HDRP (mem_brk st)) = 1.
Proof.
  intros Hlay.
  pose proof (lay_lo _ _ Hlay). pose proof (lay_brk _ _ Hlay) as Hb.
  pose proof (lay_max _ _ Hlay) as [? ?].
  pose proof (span_bounds _ (lay_ok _ _ Hlay)) as [? _].
  assert (E : HDRP (mem_brk st) = mem_brk st - WSIZE).
  { unfold HDRP, PSUB. apply wrap64_small. unfold first_bp, DSIZE, WSIZE in *. lia. }
  rewrite E. split.
  - apply (GET_SIZE_PACK st _ 0 1 (lay_epilogue _ _ Hlay)); [lia|reflexivity|lia].
  - apply (GET_ALLOC_PACK st _ 0 1 (lay_epilogue _ _ Hlay)); [reflexivity|lia].
Qed.

Lemma check_heap_from_layout (st : state) (bs2 : list block) :
  forall bs1 fuel,
    layout st (bs1 ++ bs2) -> (length bs2 < fuel)%nat ->
    check_heap_from fuel st (first_bp st + span bs1) =
      Some (match bs2 with [] => true | _ => heap_lo st mod DSIZE =? 0 end).
Proof.
  induction bs2 as [|b bs2 IH]; intros bs1 fuel Hlay Hfuel.
  - rewrite app_nil_r in Hlay. rewrite <- (lay_brk _ _ Hlay).
    destruct (layout_epilogue_reads _ _ Hlay) as [E0 E1].
    destruct fuel as [|fuel]; [cbn in Hfuel; lia|].
    cbn [check_heap_from]. rewrite E0, E1. reflexivity.
  - destruct fuel as [|fuel]; [cbn in Hfuel; lia|].
    destruct (layout_reads _ _ _ _ Hlay) as (Eh & _ & Es & _ & En & Ef & _).
    destruct (layout_at _ _ _ _ Hlay) as ((Hmin & _) & _ & _ & _ & _ & Hh & Hf & _).
    pose proof (lay_ok _ _ Hlay) as Hok. apply Forall_app in Hok.
    destruct Hok as [Hok1 _]. destruct (span_bounds _ Hok1) as [_ Hm].
    cbn [check_heap_from]. rewrite Es.
    destruct (Z.gtb_spec (fst b) 0) as [_|N]; [|unfold MINIMUMSIZE in Hmin; lia].
    unfold check_block, GET. rewrite Ef, Eh, Hh, Hf, Z.eqb_refl. cbn [negb].
    assert (Ea : (first_bp st + span bs1) mod DSIZE = heap_lo st mod DSIZE).
    { unfold first_bp, DSIZE in *. Z.div_mod_to_equations. lia. }
    rewrite Ea.
    destruct (Z.eqb_spec (heap_lo st mod DSIZE) 0) as [E|N]; [|reflexivity].
    cbn [negb]. rewrite En.
    replace (first_bp st + span bs1 + fst b) with (first_bp st + span (bs1 ++ [b]))
      by (rewrite span_app; cbn [span]; lia).
    rewrite IH.
    + destruct bs2; reflexivity.
    + rewrite <- app_assoc. exact Hlay.
    + cbn [length] in Hfuel. lia.
Qed.



Lemma wf_head_block (st : state) (bs : list block) (x : Z) (l : list Z) :
  wf st bs (x :: l) ->
  heap_start st = x /\
  exists bs1 s bs2, bs = bs1 ++ (s, 0) :: bs2 /\ x = first_bp st + span bs1.
Proof.
  intros [[Hlay Hl] Hperm]. cbn [free_list] in Hl. destruct Hl as (E & _).
  split; [exact E|]. apply free_bps_split.
  apply (Permutation_in _ Hperm). left. reflexivity.
Qed.

(** X17: [check_heap] answers false on every well-formed heap that has a
    free block, because it reads the prologue at [heap_start], which is the
    head of the free list. *)
Theorem check_heap_rejects_nonempty_free_list (st : state) (bs : list block)
    (l : list Z) (fuel : nat) :
  wf st bs l -> l <> [] -> check_heap fuel st = Some false.
Proof.
  intros Hwf Hne. destruct l as [|x l]; [contradiction|].
  destruct (wf_head_block _ _ _ _ Hwf) as (E & bs1 & s & bs2 & -> & Ex).
  destruct Hwf as [[Hlay _] _].
  destruct (layout_reads _ _ _ _ Hlay) as (_ & _ & _ & Ea & _).
  unfold check_heap. rewrite E, Ex, Ea. cbn [snd Z.eqb].
  rewrite orb_true_r. reflexivity.
Qed.

Lemma check_heap_rejects_nonempty_free_list_witness :
  let st := ex_live in
  let bs := [(128, 1); (224, 0); (80, 1); (3664, 0)] in
  let l := [65696; 66000] in
  wf st bs l /\ l <> [] /\ check_heap 5 st = Some false.
Proof.
  intros st bs l.
  assert (H1 : wf st bs l) by exact ex_live_wf.
  assert (H2 : l <> []) by discriminate.
  split; [exact H1|]. split; [exact H2|].
  exact (check_heap_rejects_nonempty_free_list st bs l 5 H1 H2).
Defined.

Lemma print_heap_from_layout (st : state) (bs2 : list block) :
  forall bs1 fuel,
    layout st (bs1 ++ bs2) -> (length bs2 < fuel)%nat ->
    print_heap_from fuel st (first_bp st + span bs1) =
      Some (block_lines (first_bp st + span bs1) bs2 ++ [end_line (mem_brk st)]).
Proof.
  induction bs2 as [|b bs2 IH]; intros bs1 fuel Hlay Hfuel.
  - rewrite app_nil_r in Hlay. rewrite <- (lay_brk _ _ Hlay).
    destruct (layout_epilogue_reads _ _ Hlay) as [E0 E1].
    destruct fuel as [|fuel]; [cbn in Hfuel; lia|].
    cbn [print_heap_from block_lines app]. unfold print_block. rewrite E0. reflexivity.
  - destruct fuel as [|fuel]; [cbn in Hfuel; lia|].
    destruct (layout_reads _ _ _ _ Hlay) as (Eh & _ & Es & Ea & En & Ef & _).
    destruct (layout_at _ _ _ _ Hlay) as
      ((Hmin & Hmod & Hfl) & Hbp & Hend & Hsp2 & Hbrk & Hh & Hf & _).
    pose proof (lay_lo _ _ Hlay) as Hlo.
    cbn [print_heap_from block_lines app]. rewrite Es.
    destruct (Z.gtb_spec (fst b) 0) as [_|N]; [|unfold MINIMUMSIZE in Hmin; lia].
    rewrite En.
    replace (first_bp st + span bs1 + fst b) with (first_bp st + span (bs1 ++ [b]))
      by (rewrite span_app; cbn [span]; lia).
    rewrite IH; [|rewrite <- app_assoc; exact Hlay|cbn [length] in Hfuel; lia].
    unfold print_block. rewrite Es, Ea, Ef.
    assert (Efs : GET_SIZE st (first_bp st + span bs1 + fst b - DSIZE) = fst b).
    { apply (GET_SIZE_PACK st _ (fst b) (snd b) Hf);
        unfold MINIMUMSIZE, DSIZE in *; lia. }
    assert (Efa : GET_ALLOC st (first_bp st + span bs1 + fst b - DSIZE) = snd b).
    { apply (GET_ALLOC_PACK st _ (fst b) (snd b) Hf); unfold DSIZE in *; lia. }
    rewrite Efs, Efa.
    destruct (Z.eqb_spec (fst b) 0); [unfold MINIMUMSIZE in Hmin; lia|].
    rewrite span_app. cbn [span]. rewrite Z.add_0_r, Z.add_assoc. reflexivity.
Qed.

(** X18: on a well-formed heap with a free block, [print_heap] prints the
    heap line, then one line for each block from the head of the free list
    to the end of the heap in address order, then the end line at the break;
    the blocks before the head of the free list are not printed. *)
Theorem print_heap_from_free_list_head (st : state) (bs : list block) (l : list Z) :
  wf st bs l -> l <> [] ->
  exists bs1 s bs2,
    bs = bs1 ++ (s, 0) :: bs2 /\
    heap_start st = first_bp st + span bs1 /\
    forall fuel,
      (S (length bs2) < fuel)%nat ->
      print_heap fuel st =
        Some (heap_line (heap_start st)
              :: block_lines (heap_start st) ((s, 0) :: bs2)
              ++ [end_line (mem_brk st)]).
Proof.
  intros Hwf Hne. destruct l as [|x l]; [contradiction|].
  destruct (wf_head_block _ _ _ _ Hwf) as (E & bs1 & s & bs2 & -> & Ex).
  exists bs1, s, bs2. split; [reflexivity|]. split; [congruence|].
  intros fuel Hfuel. destruct Hwf as [[Hlay _] _].
  unfold print_heap. rewrite E, Ex.
  rewrite (print_heap_from_layout st ((s, 0) :: bs2) bs1 fuel Hlay Hfuel).
  reflexivity.
Qed.

Lemma print_heap_from_free_list_head_witness :
  let st := ex_live in
  let bs := [(128, 1); (224, 0); (80, 1); (3664, 0)] in
  let l := [65696; 66000] in
  wf st bs l /\ l <> [] /\
  exists bs1 s bs2,
    bs = bs1 ++ (s, 0) :: bs2 /\
    heap_start st = first_bp st + span bs1 /\
    forall fuel,
      (S (length bs2) < fuel)%nat ->
      print_heap fuel st =
        Some (heap_line (heap_start st)
              :: block_lines (heap_start st) ((s, 0) :: bs2)
              ++ [end_line (mem_brk st)]).
Proof.
  intros st bs l.
  assert (H1 : wf st bs l) by exact ex_live_wf.
  assert (H2 : l <> []) by discriminate.
  split; [exact H1|]. split; [exact H2|].
  exact (print_heap_from_free_list_head st bs l H1 H2).
Defined.

(** ** Reachable states *)


